(** * YouTube downloader: stream selection, acquisition and merge pipeline

    A shallow embedding of [app.py] (browser front end) and [yd.py]
    (terminal front end).  Python [str] values are modelled as [string],
    one [ascii] per code point (the Latin-1 range); the file system is a
    finite map from paths to file sizes; the external collaborators (the
    media catalog, the encoding tool, the HTTP client) are fields of an
    environment record. *)

From Stdlib Require Import ZArith String Ascii List Bool Lia Sorted.
From stdpp Require Import base option list gmap strings pretty.

Local Open Scope string_scope.
Local Open Scope Z_scope.

(** ** Python string primitives *)

Module PyStr.

(** [str.isspace] on a single code point below 256. *)
Definition is_space (c : ascii) : bool :=
  let n := nat_of_ascii c in
  ((9 <=? n) && (n <=? 13) || (28 <=? n) && (n <=? 32)
   || (n =? 133) || (n =? 160))%nat.

(** [s.lstrip()] *)
Fixpoint lstrip (s : string) : string :=
  match s with
  | EmptyString => EmptyString
  | String c s' => if is_space c then lstrip s' else s
  end.

(** [s.rstrip()] *)
Fixpoint rstrip (s : string) : string :=
  match s with
  | EmptyString => EmptyString
  | String c s' =>
      match rstrip s' with
      | EmptyString => if is_space c then EmptyString else String c EmptyString
      | r => String c r
      end
  end.

(** [s.strip()] *)
Definition strip (s : string) : string := rstrip (lstrip s).

(** Keep the characters on which [keep] holds. *)
Fixpoint filter_chars (keep : ascii -> bool) (s : string) : string :=
  match s with
  | EmptyString => EmptyString
  | String c s' =>
      if keep c then String c (filter_chars keep s') else filter_chars keep s'
  end.

(** Every character of [s] satisfies [p]. *)
Fixpoint all_chars (p : ascii -> bool) (s : string) : bool :=
  match s with
  | EmptyString => true
  | String c s' => p c && all_chars p s'
  end.

(** [s.startswith(p)] *)
Fixpoint startswith (p s : string) : bool :=
  match p, s with
  | EmptyString, _ => true
  | String a p', String b s' => Ascii.eqb a b && startswith p' s'
  | String _ _, EmptyString => false
  end.

(** [sub in s] *)
Fixpoint contains (sub s : string) : bool :=
  startswith sub s ||
  match s with
  | EmptyString => false
  | String _ s' => contains sub s'
  end.

(** [s.split(sep)[0]] for a one-character separator: the part of [s]
    before the first occurrence of [sep], the whole of [s] without one. *)
Fixpoint split_head (sep : ascii) (s : string) : string :=
  match s with
  | EmptyString => EmptyString
  | String c s' => if Ascii.eqb c sep then EmptyString else String c (split_head sep s')
  end.

(** [s[n:]] *)
Fixpoint drop (n : nat) (s : string) : string :=
  match n, s with
  | O, _ => s
  | S n', String _ s' => drop n' s'
  | S _, EmptyString => EmptyString
  end.

(** [s[:n]] *)
Fixpoint take (n : nat) (s : string) : string :=
  match n, s with
  | O, _ => EmptyString
  | S n', String c s' => String c (take n' s')
  | S _, EmptyString => EmptyString
  end.

(** [s.replace(old, new)] for a non-empty [old]: occurrences are replaced
    left to right without overlap; [skip] counts the characters of a
    matched occurrence still to be dropped. *)
Fixpoint replace_go (old new : string) (skip : nat) (s : string) : string :=
  match s with
  | EmptyString => EmptyString
  | String c s' =>
      match skip with
      | S k => replace_go old new k s'
      | O =>
          if startswith old s
          then new ++ replace_go old new (String.length old - 1) s'
          else String c (replace_go old new O s')
      end
  end.

Definition replace (old new s : string) : string := replace_go old new O s.

(** [s.rfind(c)] for a character, as the number of characters before the
    last occurrence. *)
Fixpoint rfind (c : ascii) (s : string) : option nat :=
  match s with
  | EmptyString => None
  | String a s' =>
      match rfind c s' with
      | Some i => Some (S i)
      | None => if Ascii.eqb a c then Some O else None
      end
  end.

End PyStr.

(** ** Filename policy: [sanitize_filename] (app.py 28-30, yd.py 17-19) *)

(** The character class of the pattern: backslash, slash, star, question
    mark, colon, double quote, less-than, greater-than and bar. *)
Definition illegal_chars : list ascii :=
  ["092"; "/"; "*"; "?"; ":"; "034"; "<"; ">"; "|"]%char.

Definition is_illegal (c : ascii) : bool :=
  existsb (Ascii.eqb c) illegal_chars.

(** [re.sub(pattern, "", name).strip()] *)
Definition sanitize_filename (name : string) : string :=
  PyStr.strip (PyStr.filter_chars (fun c => negb (is_illegal c)) name).

(** A string that is empty or starts with a character that is not
    whitespace. *)
Definition starts_clean (s : string) : bool :=
  match s with
  | EmptyString => true
  | String c _ => negb (PyStr.is_space c)
  end.

(** ** Filename policy: [get_unique_path] (app.py 33-40, yd.py 22-29) *)

Module PosixPath.

(** [p.rfind(c)], with [-1] when [c] does not occur. *)
Definition rfind_index (c : ascii) (p : string) : Z :=
  match PyStr.rfind c p with
  | Some i => Z.of_nat i
  | None => -1
  end.

(** [os.path.splitext]: the extension starts at the last dot of the last
    path component, unless that component has only dots before it. *)
Definition splitext (p : string) : string * string :=
  let sepIndex := rfind_index "/" p in
  let dotIndex := rfind_index "." p in
  if sepIndex <? dotIndex then
    let name := PyStr.take (Z.to_nat (dotIndex - (sepIndex + 1)))
                           (PyStr.drop (Z.to_nat (sepIndex + 1)) p) in
    if PyStr.all_chars (Ascii.eqb ".") name
    then (p, EmptyString)
    else (PyStr.take (Z.to_nat dotIndex) p, PyStr.drop (Z.to_nat dotIndex) p)
  else (p, EmptyString).

(** [os.path.basename] *)
Definition basename (p : string) : string :=
  PyStr.drop (Z.to_nat (rfind_index "/" p + 1)) p.

(** [s.endswith("/")] *)
Fixpoint ends_with_sep (s : string) : bool :=
  match s with
  | EmptyString => false
  | String c EmptyString => Ascii.eqb c "/"
  | String _ s' => ends_with_sep s'
  end.

(** [os.path.join(a, b)] *)
Definition join (a b : string) : string :=
  if PyStr.startswith "/" b then b
  else if (String.eqb a EmptyString || ends_with_sep a)%bool then a ++ b
  else a ++ "/" ++ b.

End PosixPath.

(** The path tried at counter [k]: [f"{base}_{counter}{ext}"]. *)
Definition candidate (base ext : string) (k : Z) : string :=
  base ++ "_" ++ pretty k ++ ext.

(** The [while os.path.exists(path)] loop; [fuel] bounds its iterations. *)
Fixpoint unique_loop (ex : string -> bool) (base ext : string)
    (fuel : nat) (path : string) (counter : Z) : option string :=
  match fuel with
  | O => None
  | S fuel' =>
      if ex path
      then unique_loop ex base ext fuel' (candidate base ext counter) (counter + 1)
      else Some path
  end.

Definition get_unique_path_fuel (ex : string -> bool) (fuel : nat)
    (path : string) : option string :=
  let '(base, ext) := PosixPath.splitext path in
  unique_loop ex base ext fuel path 1.

(** ** URL normalizer: [clean_youtube_url] (app.py 43-51, yd.py 32-40) *)

(** The class [[a-zA-Z0-9_-]]. *)
Definition is_id_char (c : ascii) : bool :=
  let n := nat_of_ascii c in
  ((97 <=? n) && (n <=? 122) || (65 <=? n) && (n <=? 90)
   || (48 <=? n) && (n <=? 57) || (n =? 95) || (n =? 45))%nat.

(** [re.match(r"https?://youtu\.be/([a-zA-Z0-9_-]{11})", url)]: the
    pattern is anchored at the start of [url] only; [group(1)] on a match. *)
Definition short_link_id (url : string) : option string :=
  if PyStr.startswith "http" url then
    let r := PyStr.drop 4 url in
    let r := if PyStr.startswith "s" r then PyStr.drop 1 r else r in
    if PyStr.startswith "://youtu.be/" r then
      let id := PyStr.take 11 (PyStr.drop 12 r) in
      if (String.length id =? 11)%nat && PyStr.all_chars is_id_char id
      then Some id else None
    else None
  else None.

Definition watch_marker : string := "watch?v=".

Definition clean_youtube_url (url : string) : string :=
  match short_link_id url with
  | Some video_id => "https://www.youtube.com/watch?v=" ++ video_id
  | None =>
      if PyStr.contains watch_marker url
      then PyStr.split_head "&" url
      else url
  end.

(** The second rule as the specification words it: keep the text up to and
    including the first watch marker, then cut at the first ampersand that
    follows it. *)
Fixpoint spec_cut_after_marker (url : string) : string :=
  if PyStr.startswith watch_marker url
  then watch_marker ++ PyStr.split_head "&" (PyStr.drop 8 url)
  else match url with
       | EmptyString => EmptyString
       | String c s' => String c (spec_cut_after_marker s')
       end.

Definition spec_clean_youtube_url (url : string) : string :=
  match short_link_id url with
  | Some video_id => "https://www.youtube.com/watch?v=" ++ video_id
  | None =>
      if PyStr.contains watch_marker url
      then spec_cut_after_marker url
      else url
  end.

(** ** Data model: representations and the catalog's query interface *)

(** A representation is video-only or audio-only (adaptive) or carries both
    tracks already muxed (progressive). *)
Inductive Kind := KVideo | KAudio | KProgressive.

Definition Kind_eqb (a b : Kind) : bool :=
  match a, b with
  | KVideo, KVideo | KAudio, KAudio | KProgressive, KProgressive => true
  | _, _ => false
  end.

(** One stream of the catalog.  [resolution] holds the integer that
    [int(s.resolution.replace("p", ""))] denotes and [abr] the bitrate in
    kbps; both are [None] where the catalog gives none (audio streams have no
    resolution, video-only streams no bitrate). *)
Record Stream := {
  itag : Z;
  kind : Kind;
  subtype : string;
  resolution : option Z;
  abr : option Z;
  filesize : Z;
  default_filename : string
}.

(** The stream query of the catalog library, as the pipeline uses it:
    [filter] keeps the matching streams in catalog order, [order_by] drops
    the streams without the attribute and sorts the rest by it, ascending
    and stable, [desc] reverses and [first] is the head or [None]. *)
Module StreamQuery.

Definition filter (p : Stream -> bool) (q : list Stream) : list Stream :=
  List.filter p q.

Definition key_of (attr : Stream -> option Z) (s : Stream) : Z :=
  default 0 (attr s).

Fixpoint insert_by (attr : Stream -> option Z) (x : Stream)
    (l : list Stream) : list Stream :=
  match l with
  | [] => [x]
  | y :: l' =>
      if key_of attr x <=? key_of attr y then x :: y :: l'
      else y :: insert_by attr x l'
  end.

Definition has_attr (attr : Stream -> option Z) (s : Stream) : bool :=
  match attr s with Some _ => true | None => false end.

Definition order_by (attr : Stream -> option Z) (q : list Stream) : list Stream :=
  foldr (insert_by attr) [] (List.filter (has_attr attr) q).

Definition desc (q : list Stream) : list Stream := rev q.

Definition first (q : list Stream) : option Stream := head q.

(** The keyword filters of the two pipelines. *)
Definition only_audio (s : Stream) : bool := Kind_eqb (kind s) KAudio.
Definition adaptive_video (s : Stream) : bool := Kind_eqb (kind s) KVideo.
Definition adaptive_audio (s : Stream) : bool := Kind_eqb (kind s) KAudio.
Definition progressive (s : Stream) : bool := Kind_eqb (kind s) KProgressive.
Definition file_extension (ext : string) (s : Stream) : bool :=
  String.eqb (subtype s) ext.
Definition res (q : Z) (s : Stream) : bool :=
  match resolution s with Some r => r =? q | None => false end.

End StreamQuery.

(** ** Exceptions, results and the world the pipeline runs in *)

Inductive exn :=
| CatalogError (msg : string)
| TransferError (msg : string)
| AttributeError
| ZeroDivisionError
| FileNotFoundError (path : string)
| CalledProcessError (code : Z)
| TimeoutExpired
| OSError (msg : string)
| OverflowError (msg : string)
| IsADirectoryError (path : string).

(** [str(e)] *)
Definition str_exn (e : exn) : string :=
  match e with
  | CatalogError msg => msg
  | TransferError msg => msg
  | AttributeError => "'NoneType' object has no attribute 'download'"
  | ZeroDivisionError => "division by zero"
  | FileNotFoundError path => "No such file or directory: " ++ path
  | CalledProcessError code => "Command returned non-zero exit status " ++ pretty code
  | TimeoutExpired => "Command timed out after 300 seconds"
  | OSError msg => msg
  | OverflowError msg => msg
  | IsADirectoryError path => "Is a directory: " ++ path
  end.

Definition is_timeout (e : exn) : bool :=
  match e with TimeoutExpired => true | _ => false end.

Inductive Exc (A : Type) :=
| Ok (a : A)
| Raise (e : exn).
Arguments Ok {A} a.
Arguments Raise {A} e.

(** How one run of the encoding tool ends: it exits with a status and its
    error output, or [subprocess.run] raises without a status (the binary
    is missing, the time limit of the call expired). *)
Inductive ToolOutcome :=
| Exited (returncode : Z) (stderr : string)
| Thrown (e : exn).

Record VideoInfo := {
  vi_title : string;
  vi_author : string;
  vi_duration : string;
  vi_thumbnail : string
}.

Record ProgressEvent := {
  message : string;
  progress : option Z;
  video_info : option VideoInfo
}.

(** What a run does to the outside: streams handed to the acquisition
    driver, invocations of the encoding tool, removals, thumbnail writes. *)
Inductive Op :=
| OpDownload (s : Stream) (path : string)
| OpRun (argv : list string)
| OpRemove (path : string)
| OpWrite (path : string).

(** Files on disk with their sizes, the operations performed so far, and
    what the front end has shown (socket events or console lines). *)
Record World := {
  fs : gmap string Z;
  ops : list Op;
  events : list ProgressEvent
}.

Record Video := {
  title : string;
  author : string;
  yt_length : Z;
  thumbnail_url : string;
  streams : list Stream
}.

(** A playlist member.  Its title is fetched from the catalog when it is
    read, so reading it can raise like any other catalog query. *)
Record PlaylistItem := {
  item_title : Exc string;
  watch_url : string
}.

Record PlaylistInfo := {
  pl_title : string;
  videos : list PlaylistItem
}.

(** The external collaborators. *)
Record Env := {
  DOWNLOADS_DIR : string;
  TMP_DIR : string;
  (** [YouTube(url)] and its lazily fetched properties *)
  youtube : string -> Exc Video;
  (** [Playlist(url)], its title and its members *)
  playlist : string -> Exc PlaylistInfo;
  (** the transfer of one stream: the [bytes_remaining] reported after each
      chunk, and the error that ends the transfer early, if any *)
  transfer : Stream -> list Z * option exn;
  (** one run of the encoding tool on the current files *)
  ffmpeg : list string -> gmap string Z -> ToolOutcome * gmap string Z;
  (** [requests.get(url)]: status code and content length *)
  http_get : string -> Exc (Z * Z);
  (** the console progress bar of the catalog library (terminal front end):
      the line it prints, or the exception it raises *)
  on_progress : Stream -> Z -> Exc string
}.

Inductive ResultType := TVideo | TAudio.

(** The dictionary a single-item run returns. *)
Inductive DownloadResult :=
| Success (filename : string) (type : ResultType)
| Failure (error : string).

(** The dictionary a collection run returns. *)
Inductive PlaylistResult :=
| PlaylistSuccess (results : list DownloadResult)
| PlaylistFailure (error : string).

(** ** State and exceptions *)

Definition M (A : Type) : Type := World -> Exc A * World.

Definition ret {A} (a : A) : M A := fun w => (Ok a, w).

Definition raise {A} (e : exn) : M A := fun w => (Raise e, w).

Definition bind {A B} (m : M A) (k : A -> M B) : M B :=
  fun w =>
    match m w with
    | (Ok a, w') => k a w'
    | (Raise e, w') => (Raise e, w')
    end.

(** The instances behind stdpp's [x ← m; k] and [m;; k]. *)
#[global] Instance M_ret : MRet M := @ret.
#[global] Instance M_bind : MBind M := fun A B k m => bind m k.

(** [try: m except Exception as e: h e] *)
Definition try_except {A} (m : M A) (h : exn -> M A) : M A :=
  fun w =>
    match m w with
    | (Ok a, w') => (Ok a, w')
    | (Raise e, w') => h e w'
    end.

(** A function whose whole body is a [try] whose handler returns. *)
Definition run_guarded {A} (m : M A) (h : exn -> World -> A * World)
    (w : World) : A * World :=
  match m w with
  | (Ok a, w') => (a, w')
  | (Raise e, w') => h e w'
  end.

Definition lift {A} (r : Exc A) : M A := fun w => (r, w).

Definition log_op (o : Op) : M unit :=
  fun w => (Ok tt, {| fs := fs w; ops := ops w ++ [o]; events := events w |}).

Definition add_event (ev : ProgressEvent) (w : World) : World :=
  {| fs := fs w; ops := ops w; events := events w ++ [ev] |}.

Definition get_fs : M (gmap string Z) := fun w => (Ok (fs w), w).

Fixpoint for_each {A} (l : list A) (body : A -> M unit) : M unit :=
  match l with
  | [] => ret tt
  | x :: l' => body x;; for_each l' body
  end.

(** ** Python arithmetic on binary64 *)

Module PyFloat.

(** A finite binary64 value is written [m * 2^e], with [m] an integer of at
    most 53 bits that carries the sign, and [-1074 <= e].  The operations
    are those of the interpreter: [/] on two integers gives the binary64
    value nearest to the exact quotient, [*] the one nearest to the exact
    product, ties to even in both, and [int] truncates toward zero. *)
Definition float : Type := Z * Z.

(** [2^e], and 1 for a negative [e]: [n * pow2 (- e) / (d * pow2 e)] is
    [n / d / 2^e] for either sign of [e]. *)
Definition pow2 (e : Z) : Z := 2 ^ Z.max 0 e.

(** [floor (log2 (n / d))] for positive [n] and [d]. *)
Definition floor_log2 (n d : Z) : Z :=
  let k := Z.log2 n - Z.log2 d in
  if d * pow2 k <=? n * pow2 (- k) then k else k - 1.

(** The exponent of the last place of the binary64 values around [n / d]:
    53 significant bits, and never below the subnormal step [2^-1074]. *)
Definition ulp_exp (n d : Z) : Z := Z.max (floor_log2 n d - 52) (-1074).

(** [n / d] rounded to the nearest integer, ties to even. *)
Definition nearest_even (n d : Z) : Z :=
  let q := n / d in
  let r := n mod d in
  if 2 * r <? d then q
  else if d <? 2 * r then q + 1
  else if Z.even q then q else q + 1.

(** The binary64 value nearest to [n / d], for [0 <= n] and [0 < d]. *)
Definition round_pos (n d : Z) : float :=
  let e := ulp_exp n d in
  (nearest_even (n * pow2 (- e)) (d * pow2 e), e).

(** The binary64 value nearest to [n / d] for a non-zero [d] of either sign;
    [None] when the rounded magnitude reaches [2^1024] and so leaves the
    format. *)
Definition round_ratio (n d : Z) : option float :=
  let '(m, e) := round_pos (Z.abs n) (Z.abs d) in
  if 2 ^ 1024 * pow2 (- e) <=? m * pow2 e then None
  else Some (Z.sgn n * Z.sgn d * m, e).

(** [a / b] on two integers. *)
Definition truediv (a b : Z) : Exc float :=
  if b =? 0 then Raise ZeroDivisionError
  else match round_ratio a b with
       | Some x => Ok x
       | None => Raise (OverflowError "integer division result too large for a float")
       end.

(** [float(k)], the conversion of the integer operand of a mixed product. *)
Definition of_Z (k : Z) : Exc float :=
  match round_ratio k 1 with
  | Some y => Ok y
  | None => Raise (OverflowError "int too large to convert to float")
  end.

(** [x * y] on two floats; [None] stands for an infinity. *)
Definition mul (x y : float) : option float :=
  let '(m1, e1) := x in
  let '(m2, e2) := y in
  round_ratio (m1 * m2 * pow2 (e1 + e2)) (pow2 (- (e1 + e2))).

(** [int(x)]: truncation toward zero of a finite float. *)
Definition trunc (x : float) : Z :=
  let '(m, e) := x in Z.quot (m * pow2 e) (pow2 (- e)).

(** [int((a / b) * k)]: the division raises on a zero divisor and on a
    quotient too large for the format; [int] raises on an infinite product. *)
Definition int_scaled_ratio (a b k : Z) : Exc Z :=
  match truediv a b with
  | Raise e => Raise e
  | Ok x =>
      match of_Z k with
      | Raise e => Raise e
      | Ok y =>
          match mul x y with
          | Some p => Ok (trunc p)
          | None => Raise (OverflowError "cannot convert float infinity to integer")
          end
      end
  end.

End PyFloat.

(** ** Primitive effects *)

(** [emit_progress] (app.py 78-85) *)
Definition emit_progress (msg : string) (pct : option Z)
    (info : option VideoInfo) : M unit :=
  fun w => (Ok tt, add_event {| message := msg; progress := pct; video_info := info |} w).

(** [print] *)
Definition print (msg : string) : M unit := emit_progress msg None None.

(** [os.path.exists] and [os.path.getsize] *)
Definition path_exists (f : gmap string Z) (p : string) : bool :=
  bool_decide (is_Some (f !! p)).

Definition getsize (f : gmap string Z) (p : string) : Z := default 0 (f !! p).

(** Writing [size] bytes to [path], creating or replacing the file. *)
Definition write_file (path : string) (size : Z) : M unit :=
  fun w => (Ok tt, {| fs := <[path := size]> (fs w); ops := ops w; events := events w |}).

(** [os.remove]: raises on a path that is not there. *)
Definition remove (path : string) : M unit :=
  fun w =>
    match fs w !! path with
    | Some _ =>
        (Ok tt, {| fs := delete path (fs w); ops := ops w ++ [OpRemove path];
                   events := events w |})
    | None => (Raise (FileNotFoundError path), w)
    end.

(** [subprocess.run(argv, check=check)]: the return code and the error
    output of the tool. *)
Definition subprocess_run (env : Env) (argv : list string) (check : bool)
    : M (Z * string) :=
  fun w =>
    let '(out, f') := ffmpeg env argv (fs w) in
    let w' := {| fs := f'; ops := ops w ++ [OpRun argv]; events := events w |} in
    match out with
    | Exited code err =>
        if check && negb (code =? 0) then (Raise (CalledProcessError code), w')
        else (Ok (code, err), w')
    | Thrown e => (Raise e, w')
    end.

(** [stream.download(output_path, filename_prefix)] with the progress
    callback [cb] registered on the catalog object: each chunk is written,
    then reported to [cb]. *)
Definition download (env : Env) (cb : Stream -> Z -> M unit) (s : Stream)
    (output_path filename_prefix : string) : M string :=
  let file_path :=
    PosixPath.join output_path (filename_prefix ++ default_filename s) in
  log_op (OpDownload s file_path);;
  write_file file_path 0;;
  for_each (transfer env s).1
    (fun bytes_remaining =>
       write_file file_path (filesize s - bytes_remaining);;
       cb s bytes_remaining);;
  match (transfer env s).2 with
  | Some e => raise e
  | None => ret file_path
  end.

(** The same call on the result of [first()], which may be [None]. *)
Definition download_first (env : Env) (cb : Stream -> Z -> M unit)
    (o : option Stream) (output_path filename_prefix : string) : M string :=
  match o with
  | Some s => download env cb s output_path filename_prefix
  | None => raise AttributeError
  end.

(** [get_unique_path] on the files of the world.  The loop stops within
    [size f + 2] tests (lemma [get_unique_path_total]). *)
Definition get_unique_path (f : gmap string Z) (path : string) : string :=
  default path (get_unique_path_fuel (path_exists f) (S (S (size f))) path).

(** ** Merge stage: [merge_audio_video] (app.py 54-75, yd.py 43-64) *)

Definition merge_argv (video_path audio_path output_path : string) : list string :=
  ["ffmpeg"; "-y"; "-i"; video_path; "-i"; audio_path;
   "-c:v"; "copy"; "-c:a"; "aac"; "-filter:a"; "loudnorm"; output_path].

Definition merge_audio_video (env : Env)
    (video_path audio_path output_path : string) : M bool :=
  try_except
    (subprocess_run env (merge_argv video_path audio_path output_path) true;;
     remove video_path;;
     remove audio_path;;
     ret true)
    (fun _ => ret false).

(** ** Representation selector *)

(** The [for s in video_streams] loop (app.py 188-193, yd.py 103-108). *)
Fixpoint first_within (target_quality : Z) (video_streams : list Stream)
    : Exc (option Stream) :=
  match video_streams with
  | [] => Ok None
  | s :: rest =>
      match resolution s with
      | None => Raise AttributeError
      | Some r =>
          if r <=? target_quality then Ok (Some s)
          else first_within target_quality rest
      end
  end.

(** The loop followed by [if not selected_video: selected_video =
    video_streams.first()] (app.py 188-195, yd.py 103-110). *)
Definition select_video (target_quality : Z) (video_streams : list Stream)
    : Exc (option Stream) :=
  match first_within target_quality video_streams with
  | Ok None => Ok (StreamQuery.first video_streams)
  | r => r
  end.

Definition video_streams (yt : Video) : list Stream :=
  StreamQuery.desc (StreamQuery.order_by resolution
    (StreamQuery.filter
       (fun s => StreamQuery.adaptive_video s && StreamQuery.file_extension "mp4" s)
       (streams yt))).

Definition audio_streams (yt : Video) : list Stream :=
  StreamQuery.desc (StreamQuery.order_by abr
    (StreamQuery.filter StreamQuery.adaptive_audio (streams yt))).

(** [yt.streams.filter(only_audio=True).order_by("abr").desc().first()] *)
Definition best_audio_only (yt : Video) : option Stream :=
  StreamQuery.first (StreamQuery.desc (StreamQuery.order_by abr
    (StreamQuery.filter StreamQuery.only_audio (streams yt)))).

(** The progressive fallback: [a or b] on two [first()] results. *)
Definition progressive_fallback (target_quality : Z) (yt : Video) : option Stream :=
  match StreamQuery.first (StreamQuery.desc (StreamQuery.order_by resolution
          (StreamQuery.filter
             (fun s => StreamQuery.progressive s
                       && StreamQuery.file_extension "mp4" s
                       && StreamQuery.res target_quality s)
             (streams yt)))) with
  | Some s => Some s
  | None =>
      StreamQuery.first (StreamQuery.desc (StreamQuery.order_by resolution
        (StreamQuery.filter StreamQuery.progressive (streams yt))))
  end.

(** [f"{s.resolution}"] and [f"{s.abr}"] *)
Definition fmt_resolution (s : Stream) : string :=
  match resolution s with Some r => pretty r ++ "p" | None => "None" end.

Definition fmt_abr (s : Stream) : string :=
  match abr s with Some r => pretty r ++ "kbps" | None => "None" end.

Definition fmt_duration (yt : Video) : string :=
  pretty (yt_length yt / 60) ++ "m " ++ pretty (yt_length yt mod 60) ++ "s".

(** The merged file's path before [get_unique_path]. *)
Definition output_name (env : Env) (yt : Video) (selected_video : Stream) : string :=
  PosixPath.join (DOWNLOADS_DIR env)
    (sanitize_filename (title yt) ++ " (" ++ fmt_resolution selected_video ++ ").mp4").

(** ** Browser front end: [download_video_web] (app.py 90-232) *)

(** [progress_callback] (app.py 95-99) *)
Definition progress_callback (stream : Stream) (bytes_remaining : Z) : M unit :=
  let total := filesize stream in
  let downloaded := total - bytes_remaining in
  percent ← lift (PyFloat.int_scaled_ratio downloaded total 100);
  emit_progress ("Downloading... " ++ pretty percent ++ "%") (Some percent) None.

(** [save_thumbnail] (app.py 114-127) *)
Definition save_thumbnail (env : Env) (url final_filename : string) : M unit :=
  try_except
    (let base_name := (PosixPath.splitext final_filename).1 in
     let thumb_path := PosixPath.join (DOWNLOADS_DIR env) (base_name ++ ".jpg") in
     response ← lift (http_get env url);
     if response.1 =? 200
     then log_op (OpWrite thumb_path);; write_file thumb_path response.2
     else ret tt)
    (fun e => print ("Failed to save thumbnail: " ++ str_exn e)).

Definition convert_argv_web (audio_file_path mp3_path : string) : list string :=
  ["ffmpeg"; "-y"; "-i"; audio_file_path; "-q:a"; "0"; "-map"; "a"; mp3_path].

(** The conversion of the downloaded audio file (app.py 140-174). *)
Definition convert_web (env : Env) (yt : Video) (audio_file_path : string)
    : M DownloadResult :=
  let base_name := (PosixPath.splitext audio_file_path).1 in
  let mp3_path := base_name ++ ".mp3" in
  emit_progress "Converting to MP3..." (Some 80) None;;
  try_except
    (result ← subprocess_run env (convert_argv_web audio_file_path mp3_path) false;
     if negb (result.1 =? 0) then
       let error_msg := result.2 in
       emit_progress ("Conversion failed: " ++ PyStr.take 100 error_msg) (Some 0) None;;
       ret (Failure ("Audio conversion failed: " ++ PyStr.take 100 error_msg))
     else
       f ← get_fs;
       if path_exists f mp3_path && (0 <? getsize f mp3_path) then
         remove audio_file_path;;
         save_thumbnail env (thumbnail_url yt) (PosixPath.basename mp3_path);;
         emit_progress "Download complete!" (Some 100) None;;
         ret (Success (PosixPath.basename mp3_path) TAudio)
       else
         emit_progress "Error: MP3 file not created properly" (Some 0) None;;
         ret (Failure "MP3 conversion produced empty file"))
    (fun e =>
       if is_timeout e then
         emit_progress "Error: Conversion timeout" (Some 0) None;;
         ret (Failure "Audio conversion timed out")
       else
         emit_progress ("Error: " ++ str_exn e) (Some 0) None;;
         ret (Failure ("Conversion error: " ++ str_exn e))).

(** The [if audio_only:] block (app.py 129-174); every path through it
    returns. *)
Definition audio_only_web (env : Env) (yt : Video) : M DownloadResult :=
  emit_progress "Downloading audio only..." (Some 20) None;;
  match best_audio_only yt with
  | None =>
      emit_progress "Error: No audio stream found" (Some 0) None;;
      ret (Failure "No audio stream available")
  | Some stream =>
      audio_file_path ← download env progress_callback stream (DOWNLOADS_DIR env) "";
      convert_web env yt audio_file_path
  end.

(** The video path (app.py 176-228).  The sorted list [available_res] is
    computed and not used; it has no effect. *)
Definition video_web (env : Env) (yt : Video) (target_quality : Z)
    : M DownloadResult :=
  selected_video ← lift (select_video target_quality (video_streams yt));
  match selected_video, audio_streams yt with
  | Some selected_video, audio_stream :: _ =>
      emit_progress ("Downloading video (" ++ fmt_resolution selected_video ++ ")...")
        (Some 30) None;;
      video_path ← download env progress_callback selected_video (TMP_DIR env) "video_";
      emit_progress ("Downloading audio (" ++ fmt_abr audio_stream ++ ")...")
        (Some 60) None;;
      audio_path ← download env progress_callback audio_stream (TMP_DIR env) "audio_";
      f ← get_fs;
      let output_file := get_unique_path f (output_name env yt selected_video) in
      emit_progress "Merging audio and video..." (Some 85) None;;
      merged ← merge_audio_video env video_path audio_path output_file;
      if merged : bool then
        save_thumbnail env (thumbnail_url yt) (PosixPath.basename output_file);;
        emit_progress "Download complete!" (Some 100) None;;
        ret (Success (PosixPath.basename output_file) TVideo)
      else
        emit_progress "Merge failed, but files saved" (Some 100) None;;
        ret (Failure "Merge failed")
  | _, _ =>
      emit_progress "Using progressive stream fallback..." (Some 30) None;;
      file_path ← download_first env progress_callback
                    (progressive_fallback target_quality yt) (DOWNLOADS_DIR env) "";
      save_thumbnail env (thumbnail_url yt) (PosixPath.basename file_path);;
      emit_progress "Download complete!" (Some 100) None;;
      ret (Success (PosixPath.basename file_path) TVideo)
  end.

Definition info_of (yt : Video) : VideoInfo :=
  {| vi_title := title yt; vi_author := author yt;
     vi_duration := fmt_duration yt; vi_thumbnail := thumbnail_url yt |}.

(** The body of the outer [try] (app.py 93-228). *)
Definition download_video_web_body (env : Env) (url : string)
    (target_quality : Z) (audio_only : bool) : M DownloadResult :=
  emit_progress "Fetching video information..." (Some 0) None;;
  yt ← lift (youtube env url);
  emit_progress ("Processing: " ++ title yt) (Some 10) (Some (info_of yt));;
  emit_progress ("Processing: " ++ title yt) (Some 10) (Some (info_of yt));;
  if audio_only then audio_only_web env yt
  else video_web env yt target_quality.

(** The outer handler (app.py 230-232). *)
Definition error_result (e : exn) (w : World) : DownloadResult * World :=
  (Failure (str_exn e),
   add_event {| message := "Error: " ++ str_exn e; progress := Some 0;
                video_info := None |} w).

Definition download_video_web (env : Env) (url : string)
    (target_quality : Z) (audio_only : bool) (w : World) : DownloadResult * World :=
  run_guarded (download_video_web_body env url target_quality audio_only)
    error_result w.

(** ** Browser front end: [download_playlist_web] (app.py 235-255) *)

(** The [for idx, video in enumerate(pl.videos, 1)] loop. *)
Fixpoint playlist_loop (env : Env) (target_quality : Z) (audio_only : bool)
    (total_videos idx : Z) (items : list PlaylistItem)
    (results : list DownloadResult) : M (list DownloadResult) :=
  match items with
  | [] => ret results
  | video :: rest =>
      video_title ← lift (item_title video);
      pct ← lift (PyFloat.int_scaled_ratio idx total_videos 90);
      emit_progress
        ("[" ++ pretty idx ++ "/" ++ pretty total_videos ++ "] " ++ video_title)
        (Some pct) None;;
      result ← (fun w =>
                  let '(r, w') :=
                    download_video_web env (watch_url video) target_quality audio_only w in
                  (Ok r, w'));
      playlist_loop env target_quality audio_only total_videos (idx + 1) rest
        (results ++ [result])
  end.

Definition download_playlist_web_body (env : Env) (url : string)
    (target_quality : Z) (audio_only : bool) : M PlaylistResult :=
  emit_progress "Fetching playlist information..." (Some 0) None;;
  pl ← lift (playlist env url);
  let total_videos := Z.of_nat (List.length (videos pl)) in
  emit_progress
    ("Playlist: " ++ pl_title pl ++ " (" ++ pretty total_videos ++ " videos)")
    (Some 5) None;;
  results ← playlist_loop env target_quality audio_only total_videos 1 (videos pl) [];
  emit_progress "Playlist download complete!" (Some 100) None;;
  ret (PlaylistSuccess results).

Definition download_playlist_web (env : Env) (url : string)
    (target_quality : Z) (audio_only : bool) (w : World) : PlaylistResult * World :=
  run_guarded (download_playlist_web_body env url target_quality audio_only)
    (fun e w' =>
       (PlaylistFailure (str_exn e),
        add_event {| message := "Error: " ++ str_exn e; progress := Some 0;
                     video_info := None |} w'))
    w.

(** ** Terminal front end: [download_video] (yd.py 69-144) *)

(** The callback registered by [YouTube(url, on_progress_callback=on_progress)]. *)
Definition cli_progress (env : Env) (stream : Stream) (bytes_remaining : Z) : M unit :=
  line ← lift (on_progress env stream bytes_remaining);
  print line.

Definition convert_argv_cli (mp4_path mp3_path : string) : list string :=
  ["ffmpeg"; "-y"; "-i"; mp4_path; mp3_path].

(** The [if audio_only:] block (yd.py 76-88). *)
Definition audio_only_cli (env : Env) (yt : Video) : M unit :=
  print "Downloading audio only ...";;
  mp4_path ← download_first env (cli_progress env) (best_audio_only yt)
               (DOWNLOADS_DIR env) "";
  let mp3_path := PyStr.replace ".mp4" ".mp3" mp4_path in
  subprocess_run env (convert_argv_cli mp4_path mp3_path) false;;
  remove mp4_path;;
  print ("Audio saved as: " ++ mp3_path).

(** The video path (yd.py 90-141). *)
Definition video_cli (env : Env) (yt : Video) (target_quality : Z) : M unit :=
  print "Available resolutions";;
  selected_video ← lift (select_video target_quality (video_streams yt));
  match selected_video, audio_streams yt with
  | Some selected_video, audio_stream :: _ =>
      print ("Downloading video (" ++ fmt_resolution selected_video ++ ") ...");;
      print ("Downloading audio (" ++ fmt_abr audio_stream ++ ") ...");;
      video_path ← download env (cli_progress env) selected_video (TMP_DIR env) "video_";
      audio_path ← download env (cli_progress env) audio_stream (TMP_DIR env) "audio_";
      f ← get_fs;
      let output_file := get_unique_path f (output_name env yt selected_video) in
      print "Estimated final size";;
      print "Merging audio and video ...";;
      merged ← merge_audio_video env video_path audio_path output_file;
      if merged : bool then print ("Download complete: " ++ output_file)
      else print "Merge failed. Files saved separately."
  | _, _ =>
      print "No suitable adaptive stream found, trying progressive fallback...";;
      file_path ← download_first env (cli_progress env)
                    (progressive_fallback target_quality yt) (DOWNLOADS_DIR env) "";
      print ("Download complete: " ++ file_path)
  end.

Definition download_video_body (env : Env) (url : string)
    (target_quality : Z) (audio_only : bool) : M unit :=
  yt ← lift (youtube env url);
  print (title yt);;
  print (author yt);;
  print ("Duration: " ++ fmt_duration yt);;
  if audio_only then audio_only_cli env yt
  else video_cli env yt target_quality.

Definition download_video (env : Env) (url : string)
    (target_quality : Z) (audio_only : bool) (w : World) : unit * World :=
  run_guarded (download_video_body env url target_quality audio_only)
    (fun e w' =>
       (tt, add_event {| message := "Error downloading video: " ++ str_exn e;
                         progress := None; video_info := None |} w'))
    w.

(** ** Terminal front end: [download_playlist] (yd.py 147-160) *)

(** The [for idx, video in enumerate(pl.videos, 1)] loop. *)
Fixpoint playlist_loop_cli (env : Env) (target_quality : Z) (audio_only : bool)
    (total_videos idx : Z) (items : list PlaylistItem) : M unit :=
  match items with
  | [] => ret tt
  | video :: rest =>
      video_title ← lift (item_title video);
      print ("[" ++ pretty idx ++ "/" ++ pretty total_videos ++ "] " ++ video_title);;
      (fun w => (Ok tt, (download_video env (watch_url video) target_quality audio_only w).2));;
      playlist_loop_cli env target_quality audio_only total_videos (idx + 1) rest
  end.

Definition download_playlist_body (env : Env) (url : string)
    (target_quality : Z) (audio_only : bool) : M unit :=
  pl ← lift (playlist env url);
  print ("Playlist: " ++ pl_title pl);;
  print ("Videos: " ++ pretty (Z.of_nat (List.length (videos pl))));;
  playlist_loop_cli env target_quality audio_only
    (Z.of_nat (List.length (videos pl))) 1 (videos pl);;
  print "Playlist download complete!".

Definition download_playlist (env : Env) (url : string)
    (target_quality : Z) (audio_only : bool) (w : World) : unit * World :=
  run_guarded (download_playlist_body env url target_quality audio_only)
    (fun e w' =>
       (tt, add_event {| message := "Error downloading playlist: " ++ str_exn e;
                         progress := None; video_info := None |} w'))
    w.

(** ** Terminal front end: [main] (yd.py 165-180) *)

(** [c.lower()] on a code point below 256. *)
Definition lower_char (c : ascii) : ascii :=
  let n := nat_of_ascii c in
  if ((65 <=? n) && (n <=? 90)
      || (192 <=? n) && (n <=? 222) && negb (n =? 215))%nat
  then ascii_of_nat (n + 32) else c.

(** [s.lower()] *)
Fixpoint lower (s : string) : string :=
  match s with
  | EmptyString => EmptyString
  | String c s' => String (lower_char c) (lower s')
  end.

(** [s or default] on strings *)
Definition str_or (s default : string) : string :=
  if String.eqb s EmptyString then default else s.

(** The call [main] ends with: which pipeline, on which address, with
    which quality answer ([None] stands for Python's [None]) and flag. *)
Inductive Call :=
| CallPlaylist (url : string) (quality : option string) (audio_only : bool)
| CallVideo (url : string) (quality : option string) (audio_only : bool).

(** [if "playlist" in url: download_playlist(...) else: download_video(...)] *)
Definition dispatch (url : string) (quality : option string) (audio_only : bool) : Call :=
  if PyStr.contains "playlist" url then CallPlaylist url quality audio_only
  else CallVideo url quality audio_only.

(** [main] on the lines typed at its prompts, in order; [None] when the
    input ends before a prompt is answered ([input] raises). *)
Definition main (stdin : list string) : option Call :=
  match stdin with
  | [] => None
  | line1 :: rest =>
      let url := clean_youtube_url (PyStr.strip line1) in
      match rest with
      | [] => None
      | line2 :: rest' =>
          let mode := str_or (PyStr.strip (lower line2)) "v" in
          let audio_only := String.eqb mode "a" in
          if audio_only then Some (dispatch url None true)
          else
            match rest' with
            | [] => None
            | line3 :: _ =>
                Some (dispatch url (Some (str_or (PyStr.strip line3) "720")) false)
            end
      end
  end.

(** ** Browser front end: the request handlers (app.py 266-359) *)

(** A value of a JSON body; arrays and objects are not looked into. *)
Inductive Json :=
| JNull
| JBool (b : bool)
| JNumber (n : Z)
| JString (s : string)
| JCompound.

(** The body of a download request, a JSON object: the value under [url],
    if the key is there, and the ceiling and the mode the body names, if it
    names them. *)
Record DownloadRequest := {
  req_url : option Json;
  req_quality : option Z;
  req_audio_only : option bool
}.

(** A JSON response: the status code, the [success] field and the
    [message] or [error] text. *)
Record Response := {
  status : Z;
  success : bool;
  text : string
}.

(** [download_task] (app.py 280-284), the body of the background thread. *)
Definition download_task (env : Env) (url : string) (quality : Z)
    (audio_only : bool) (w : World) : World :=
  if PyStr.contains "playlist" url
  then (download_playlist_web env url quality audio_only w).2
  else (download_video_web env url quality audio_only w).2.

(** [api_download] (app.py 266-290): the response, and the arguments of the
    task it starts, if it starts one.  [data.get('url', '').strip()] is
    outside any handler: a value that is not a string has no [strip], and
    the exception leaves the view. *)
Definition api_download (data : DownloadRequest)
    : Exc (Response * option (string * Z * bool)) :=
  match default (JString EmptyString) (req_url data) with
  | JString raw =>
      let url := PyStr.strip raw in
      let quality := default 720 (req_quality data) in
      let audio_only := default false (req_audio_only data) in
      if String.eqb url EmptyString then
        Ok ({| status := 400; success := false; text := "URL is required" |}, None)
      else
        let url := clean_youtube_url url in
        Ok ({| status := 200; success := true; text := "Download started" |},
            Some (url, quality, audio_only))
  | _ => Raise AttributeError
  end.

(** The file handlers take the name from the request, and a name such as
    [..] or [.] leads to a directory.  A world lists the regular files;
    [dirs] is the set of the other paths that exist. *)
Definition exists_on (dirs : gset string) (f : gmap string Z) (p : string) : bool :=
  path_exists f p || bool_decide (p ∈ dirs).

(** [os.remove] on such a tree: a directory is refused. *)
Definition remove_on (dirs : gset string) (path : string) : M unit :=
  fun w =>
    if negb (path_exists (fs w) path) && bool_decide (path ∈ dirs)
    then (Raise (IsADirectoryError path), w)
    else remove path w.

(** The path of the thumbnail kept beside [filename]. *)
Definition thumb_path_of (env : Env) (filename : string) : string :=
  PosixPath.join (DOWNLOADS_DIR env)
    ((PosixPath.splitext filename).1 ++ ".jpg").

(** [api_delete_file] (app.py 342-359) *)
Definition api_delete_file (dirs : gset string) (env : Env) (filename : string)
    (w : World) : Response * World :=
  run_guarded
    (let filepath := PosixPath.join (DOWNLOADS_DIR env) filename in
     f ← get_fs;
     if exists_on dirs f filepath then
       remove_on dirs filepath;;
       let thumb_path := thumb_path_of env filename in
       f' ← get_fs;
       (if exists_on dirs f' thumb_path then remove_on dirs thumb_path else ret tt);;
       ret {| status := 200; success := true; text := "File deleted" |}
     else ret {| status := 404; success := false; text := "File not found" |})
    (fun e w' => ({| status := 500; success := false; text := str_exn e |}, w'))
    w.

(** [api_download_file] (app.py 322-339): the status, and the size of the
    attachment sent.  [send_file] opens the path, and raises on a
    directory. *)
Definition api_download_file (dirs : gset string) (env : Env) (filename : string)
    (w : World) : Z * option Z :=
  let filepath := PosixPath.join (DOWNLOADS_DIR env) filename in
  if negb (exists_on dirs (fs w) filepath) then (404, None)
  else match fs w !! filepath with
       | Some size => (200, Some size)
       | None => (500, None)
       end.

(** * Predicates of the statements *)

(** [c != "&"] *)
Definition not_amp (c : ascii) : bool := negb (Ascii.eqb c "&").

(** The numeric resolution of a stream that has one. *)
Definition res_of (s : Stream) : Z := StreamQuery.key_of resolution s.

(** The order [order_by(attr)] sorts into. *)
Definition asc_by (attr : Stream -> option Z) (a b : Stream) : Prop :=
  StreamQuery.key_of attr a <= StreamQuery.key_of attr b.

(** A list in the order [order_by(attr).desc()] leaves it: no stream is
    followed by one with a larger key. *)
Definition sorted_desc (attr : Stream -> option Z) (q : list Stream) : Prop :=
  StronglySorted (fun a b => StreamQuery.key_of attr b <= StreamQuery.key_of attr a) q.

(** The tool exited with status zero. *)
Definition exit_ok (out : ToolOutcome) : bool :=
  match out with
  | Exited code _ => code =? 0
  | Thrown _ => false
  end.

Definition is_success (r : DownloadResult) : bool :=
  match r with Success _ _ => true | Failure _ => false end.

(** ** Runs *)

(** Every operation a run of [m] adds to the world satisfies [P]. *)
Definition appends {A} (P : Op -> Prop) (m : M A) : Prop :=
  forall w r w', m w = (r, w') ->
    exists new, ops w' = (ops w ++ new)%list /\ Forall P new.

(** The only stream an audio-only run may hand to the acquisition driver:
    the audio-only representation that [best_audio_only] picks from the
    catalog entry of [url], which no audio-only representation with a
    bitrate exceeds in bitrate. *)
Definition audio_only_op (env : Env) (url : string) (o : Op) : Prop :=
  match o with
  | OpDownload s _ =>
      exists yt, youtube env url = Ok yt
        /\ best_audio_only yt = Some s
        /\ kind s = KAudio
        /\ s ∈ streams yt
        /\ forall s', s' ∈ streams yt -> kind s' = KAudio -> is_Some (abr s') ->
                      StreamQuery.key_of abr s' <= StreamQuery.key_of abr s
  | _ => True
  end.

(** ** Collection runs *)

(** What a collection run records for one member: the value the single-item
    pipeline returns on the member's address, which is a failure when the
    catalog raises for that address or lists no stream for it. *)
Definition item_result (env : Env) (target_quality : Z) (audio_only : bool)
    (video : PlaylistItem) (r : DownloadResult) : Prop :=
  (exists w0, (download_video_web env (watch_url video) target_quality audio_only w0).1 = r)
  /\ (forall e, youtube env (watch_url video) = Raise e -> r = Failure (str_exn e))
  /\ (forall yt, youtube env (watch_url video) = Ok yt -> streams yt = [] ->
                 exists msg, r = Failure msg).

(** The catalog resolves the title of every member. *)
Definition titles_resolve (pl : PlaylistInfo) : Prop :=
  Forall (fun video => exists t, item_title video = Ok t) (videos pl).

(** ** Comparing the two front ends *)

(** Two worlds with the same files and the same operations performed; what
    the front ends have shown may differ. *)
Definition phys_eq (w1 w2 : World) : Prop :=
  fs w1 = fs w2 /\ ops w1 = ops w2.

(** The same, except that the first world may hold one more operation, the
    write of a thumbnail, and its file. *)
Definition agree_up_to_thumbnail (w1 w2 : World) : Prop :=
  phys_eq w1 w2
  \/ exists path size,
       fs w1 = <[path := size]> (fs w2) /\ ops w1 = (ops w2 ++ [OpWrite path])%list.

Definition outcome_rel {A B} (R : A -> B -> Prop) (r1 : Exc A) (r2 : Exc B) : Prop :=
  match r1, r2 with
  | Ok a, Ok b => R a b
  | Raise _, Raise _ => True
  | _, _ => False
  end.

(** From worlds that agree on files and operations, [m1] and [m2] both
    return, with values related by [R], or both raise, and they end in
    worlds that agree again. *)
Definition sim {A B} (R : A -> B -> Prop) (m1 : M A) (m2 : M B) : Prop :=
  forall w1 w2, phys_eq w1 w2 ->
    outcome_rel R (m1 w1).1 (m2 w2).1 /\ phys_eq (m1 w1).2 (m2 w2).2.

(** From such worlds, [m1] and [m2] end in worlds related by [Q]. *)
Definition ends {A B} (Q : World -> World -> Prop) (m1 : M A) (m2 : M B) : Prop :=
  forall w1 w2, phys_eq w1 w2 -> Q (m1 w1).2 (m2 w2).2.

(** No progress callback raises during a transfer: at every chunk a stream
    reports, the percentage of the browser front end is computed, and the
    console progress bar returns. *)
Definition callbacks_succeed (env : Env) : Prop :=
  forall s r, r ∈ (transfer env s).1 ->
    (exists percent,
        PyFloat.int_scaled_ratio (filesize s - r) (filesize s) 100 = Ok percent)
    /\ exists line, on_progress env s r = Ok line.

(** ** Further predicates *)

(** A string that is empty or ends with a character that is not whitespace. *)
Fixpoint ends_clean (s : string) : bool :=
  match s with
  | EmptyString => true
  | String c EmptyString => negb (PyStr.is_space c)
  | String _ s' => ends_clean s'
  end.

(** A character the sanitizer drops wherever it stands, or strips at an end. *)
Definition is_dropped (c : ascii) : bool := is_illegal c || PyStr.is_space c.

(** The last event of a run that ends well. *)
Definition complete_event : ProgressEvent :=
  {| message := "Download complete!"; progress := Some 100; video_info := None |}.

(** [Q] holds of the outcome and the final world of every run of [m]. *)
Definition finishes {A} (Q : Exc A -> World -> Prop) (m : M A) : Prop :=
  forall w, Q (m w).1 (m w).2.

(** A success is returned only right after the completion event. *)
Definition success_is_announced (r : Exc DownloadResult) (w : World) : Prop :=
  forall filename type, r = Ok (Success filename type) ->
    last (events w) = Some complete_event.

Definition returned_success (r : Exc DownloadResult) : bool :=
  match r with Ok (Success _ _) => true | _ => false end.

(** What a video-mode run may do: fetch a video-only mp4 stream of the
    catalog entry to the temporary directory under the prefix [video_], an
    audio-only stream under [audio_], or a progressive stream to the
    downloads directory; run the tool with the merge arguments; remove one of
    the two temporary files; write a thumbnail. *)
Definition video_mode_op (env : Env) (url : string) (o : Op) : Prop :=
  exists yt, youtube env url = Ok yt /\
    match o with
    | OpDownload s path =>
        s ∈ streams yt
        /\ ((kind s = KVideo /\ subtype s = "mp4"
             /\ path = PosixPath.join (TMP_DIR env) ("video_" ++ default_filename s))
            \/ (kind s = KAudio
                /\ path = PosixPath.join (TMP_DIR env) ("audio_" ++ default_filename s))
            \/ (kind s = KProgressive
                /\ path = PosixPath.join (DOWNLOADS_DIR env) (default_filename s)))
    | OpRun argv =>
        exists video_path audio_path output_path,
          argv = merge_argv video_path audio_path output_path
    | OpRemove path =>
        exists s, s ∈ streams yt
          /\ (path = PosixPath.join (TMP_DIR env) ("video_" ++ default_filename s)
              \/ path = PosixPath.join (TMP_DIR env) ("audio_" ++ default_filename s))
    | OpWrite path => exists name, path = thumb_path_of env name
    end.

(** What a run of the progressive fallback may do: fetch the fallback
    stream to the downloads directory and write a thumbnail. *)
Definition fallback_op (env : Env) (q : Z) (yt : Video) (o : Op) : Prop :=
  match o with
  | OpDownload s path =>
      progressive_fallback q yt = Some s
      /\ path = PosixPath.join (DOWNLOADS_DIR env) (default_filename s)
  | OpWrite _ => True
  | OpRun _ | OpRemove _ => False
  end.

(** Every value a run of [m] returns satisfies [R]. *)
Definition returns {A} (R : A -> Prop) (m : M A) : Prop :=
  forall w a w', m w = (Ok a, w') -> R a.

(** What an audio-only run of the terminal front end may do with the
    stream [s] saved at [path]: fetch it there, run the tool with [path] as
    its input and [mp3_path] as its output, and remove [path]. *)
Definition audio_cli_op (s : Stream) (path mp3_path : string) (o : Op) : Prop :=
  match o with
  | OpDownload s' path' => s' = s /\ path' = path
  | OpRun argv => argv = convert_argv_cli path mp3_path
  | OpRemove path' => path' = path
  | OpWrite _ => False
  end.

(** * Sample inputs *)

(** A directory in which [/d/a.mp4] and [/d/a_1.mp4] are taken. *)
Definition taken_a (p : string) : bool :=
  (String.eqb p "/d/a.mp4" || String.eqb p "/d/a_1.mp4")%bool.

(** A link whose first ampersand comes before the watch marker. *)
Definition attribution_url : string :=
  "https://www.youtube.com/attribution_link?a=x&u=/watch?v=abcdEFGH123&feature=share".

Definition watch_address : string := "https://www.youtube.com/watch?v=abcdEFGH123".

Definition playlist_address : string :=
  "https://www.youtube.com/playlist?list=PL0123456789".

Definition address_1 : string := "https://www.youtube.com/watch?v=aaaaaaaaaaa".
Definition address_2 : string := "https://www.youtube.com/watch?v=bbbbbbbbbbb".
Definition address_3 : string := "https://www.youtube.com/watch?v=ccccccccccc".

Definition v1080 : Stream :=
  {| itag := 137; kind := KVideo; subtype := "mp4"; resolution := Some 1080;
     abr := None; filesize := 1000; default_filename := "Clip.mp4" |}.

Definition v720 : Stream :=
  {| itag := 136; kind := KVideo; subtype := "mp4"; resolution := Some 720;
     abr := None; filesize := 500; default_filename := "Clip.mp4" |}.

Definition v480 : Stream :=
  {| itag := 135; kind := KVideo; subtype := "mp4"; resolution := Some 480;
     abr := None; filesize := 300; default_filename := "Clip.mp4" |}.

Definition a128 : Stream :=
  {| itag := 140; kind := KAudio; subtype := "mp4"; resolution := None;
     abr := Some 128; filesize := 100; default_filename := "Clip.m4a" |}.

Definition a160 : Stream :=
  {| itag := 251; kind := KAudio; subtype := "webm"; resolution := None;
     abr := Some 160; filesize := 120; default_filename := "Clip.webm" |}.

(** An audio-only stream saved under an [.mp4] name, as yd.py expects. *)
Definition audio_mp4 : Stream :=
  {| itag := 140; kind := KAudio; subtype := "mp4"; resolution := None;
     abr := Some 128; filesize := 100; default_filename := "Clip.mp4" |}.

(** A stream whose size the catalog reports as zero. *)
Definition sizeless : Stream :=
  {| itag := 18; kind := KProgressive; subtype := "mp4"; resolution := Some 360;
     abr := Some 96; filesize := 0; default_filename := "Live.mp4" |}.

Definition sample_video : Video :=
  {| title := "My: Clip"; author := "me"; yt_length := 125;
     thumbnail_url := "https://i.ytimg.com/vi/abcdEFGH123/hq.jpg";
     streams := [v720; a128; v1080; a160] |}.

Definition audio_video : Video :=
  {| title := "Song"; author := "me"; yt_length := 61;
     thumbnail_url := "https://i.ytimg.com/vi/abcdEFGH123/hq.jpg";
     streams := [audio_mp4] |}.

(** A catalog entry whose only stream has an unknown (zero) size. *)
Definition live_video : Video :=
  {| title := "Live"; author := "me"; yt_length := 0;
     thumbnail_url := "https://i.ytimg.com/vi/abcdEFGH123/hq.jpg";
     streams := [sizeless] |}.

(** A catalog entry without any stream. *)
Definition no_streams_video : Video :=
  {| title := "Gone"; author := "me"; yt_length := 0;
     thumbnail_url := "https://i.ytimg.com/vi/bbbbbbbbbbb/hq.jpg"; streams := [] |}.

(** A tool run that writes [size] bytes to its last argument and exits
    with [code]. *)
Definition tool_writes (code size : Z) (argv : list string) (f : gmap string Z)
    : ToolOutcome * gmap string Z :=
  (Exited code "", <[List.last argv "" := size]> f).

(** A tool run that touches no file and exits with [code]. *)
Definition tool_exits (code : Z) (argv : list string) (f : gmap string Z)
    : ToolOutcome * gmap string Z :=
  (Exited code "Conversion failed!", f).

(** A catalog that serves [yt] for every address and transfers every stream
    in one chunk, with the encoding tool [tool]. *)
Definition sample_env (yt : Video) (tool : list string -> gmap string Z ->
                                          ToolOutcome * gmap string Z) : Env :=
  {| DOWNLOADS_DIR := "/dl"; TMP_DIR := "/tmp";
     youtube := fun _ => Ok yt;
     playlist := fun _ => Raise (CatalogError "not a playlist");
     transfer := fun _ => ([0], None);
     ffmpeg := tool;
     http_get := fun _ => Ok (200, 7);
     on_progress := fun _ _ => Ok "[####]" |}.

(** The same catalog with a transfer in two chunks, which reports no chunk
    for a stream of unknown size. *)
Definition steady_env (yt : Video) (tool : list string -> gmap string Z ->
                                          ToolOutcome * gmap string Z) : Env :=
  {| DOWNLOADS_DIR := "/dl"; TMP_DIR := "/tmp";
     youtube := fun _ => Ok yt;
     playlist := fun _ => Raise (CatalogError "not a playlist");
     transfer := fun s => (if filesize s =? 0 then [] else [filesize s / 2; 0], None);
     ffmpeg := tool;
     http_get := fun _ => Ok (200, 7);
     on_progress := fun _ _ => Ok "[####]" |}.

(** A catalog with the playlist [items], in which [address_2] has no stream. *)
Definition playlist_env (items : list PlaylistItem) : Env :=
  {| DOWNLOADS_DIR := "/dl"; TMP_DIR := "/tmp";
     youtube := fun url =>
       if String.eqb url address_2 then Ok no_streams_video else Ok sample_video;
     playlist := fun _ => Ok {| pl_title := "Mix"; videos := items |};
     transfer := fun _ => ([0], None);
     ffmpeg := tool_writes 0 42;
     http_get := fun _ => Ok (200, 7);
     on_progress := fun _ _ => Ok "[####]" |}.

Definition three_items : list PlaylistItem :=
  [ {| item_title := Ok "One"; watch_url := address_1 |};
    {| item_title := Ok "Gone"; watch_url := address_2 |};
    {| item_title := Ok "Three"; watch_url := address_3 |} ].

(** The same members, the title of the second unavailable. *)
Definition three_items_private : list PlaylistItem :=
  [ {| item_title := Ok "One"; watch_url := address_1 |};
    {| item_title := Raise (CatalogError "Video unavailable"); watch_url := address_2 |};
    {| item_title := Ok "Three"; watch_url := address_3 |} ].

Definition empty_world : World := {| fs := ∅; ops := []; events := [] |}.

(** A world whose only file is [path]. *)
Definition one_file (path : string) (size : Z) : World :=
  {| fs := {[ path := size ]}; ops := []; events := [] |}.

(** A catalog that is out of reach. *)
Definition offline_env : Env :=
  {| DOWNLOADS_DIR := "/dl"; TMP_DIR := "/tmp";
     youtube := fun _ => Raise (CatalogError "Network is unreachable");
     playlist := fun _ => Raise (CatalogError "Network is unreachable");
     transfer := fun _ => ([0], None);
     ffmpeg := tool_writes 0 42;
     http_get := fun _ => Ok (200, 7);
     on_progress := fun _ _ => Ok "[####]" |}.

(** A short link whose identifier holds the word the dispatch looks for. *)
Definition playlist_like_link : string := "https://youtu.be/abplaylistc".

(** * Properties *)

(** ** Strings *)

Section StringFacts.

Lemma append_cons (c : ascii) (s t : string) : String c s ++ t = String c (s ++ t).
Proof. reflexivity. Qed.

Lemma append_nil_l (t : string) : "" ++ t = t.
Proof. reflexivity. Qed.

Lemma append_empty_r (s : string) : s ++ "" = s.
Proof.
  induction s as [|c s IH]; [reflexivity |].
  now rewrite append_cons, IH.
Qed.

Lemma append_assoc (a b c : string) : (a ++ b) ++ c = a ++ b ++ c.
Proof.
  induction a as [|x a IH]; [reflexivity |].
  now rewrite !append_cons, IH.
Qed.

Lemma length_append (a b : string) :
  String.length (a ++ b) = (String.length a + String.length b)%nat.
Proof.
  induction a as [|x a IH]; [reflexivity |].
  rewrite append_cons. simpl. now rewrite IH.
Qed.

Lemma append_cancel_l (a b c : string) : a ++ b = a ++ c -> b = c.
Proof.
  induction a as [|x a IH]; intros H; [exact H |].
  rewrite !append_cons in H. injection H as H. now apply IH.
Qed.

Lemma append_cancel_r (a b e : string) : a ++ e = b ++ e -> a = b.
Proof.
  revert b. induction a as [|x a IH]; intros [|y b] H.
  - reflexivity.
  - apply (f_equal String.length) in H.
    rewrite append_nil_l, length_append in H. simpl in H. lia.
  - apply (f_equal String.length) in H.
    rewrite append_nil_l, length_append in H. simpl in H. lia.
  - rewrite !append_cons in H. injection H as -> H. f_equal. now apply IH.
Qed.

Lemma filter_chars_all (keep : ascii -> bool) (s : string) :
  PyStr.all_chars keep (PyStr.filter_chars keep s) = true.
Proof.
  induction s as [|c s IH]; simpl; [reflexivity |].
  destruct (keep c) eqn:E; simpl; [rewrite E |]; exact IH.
Qed.

Lemma filter_chars_id (keep : ascii -> bool) (s : string) :
  PyStr.all_chars keep s = true -> PyStr.filter_chars keep s = s.
Proof.
  induction s as [|c s IH]; simpl; [reflexivity |].
  intros [Hc Hs]%andb_prop. rewrite Hc. f_equal. now apply IH.
Qed.

Lemma lstrip_all_chars (p : ascii -> bool) (s : string) :
  PyStr.all_chars p s = true -> PyStr.all_chars p (PyStr.lstrip s) = true.
Proof.
  induction s as [|c s IH]; simpl; [reflexivity |].
  intros H. destruct (PyStr.is_space c); [| exact H].
  apply andb_prop in H as [_ H]. now apply IH.
Qed.

Lemma rstrip_all_chars (p : ascii -> bool) (s : string) :
  PyStr.all_chars p s = true -> PyStr.all_chars p (PyStr.rstrip s) = true.
Proof.
  induction s as [|c s IH]; simpl; [reflexivity |].
  intros [Hc Hs]%andb_prop. specialize (IH Hs).
  destruct (PyStr.rstrip s) as [|a r].
  - destruct (PyStr.is_space c); simpl; [reflexivity | now rewrite Hc].
  - change (p c && PyStr.all_chars p (String a r) = true).
    now rewrite Hc, IH.
Qed.

Lemma lstrip_starts_clean (s : string) : starts_clean (PyStr.lstrip s) = true.
Proof.
  induction s as [|c s IH]; simpl; [reflexivity |].
  destruct (PyStr.is_space c) eqn:E; [exact IH | simpl; now rewrite E].
Qed.

Lemma lstrip_id (s : string) : starts_clean s = true -> PyStr.lstrip s = s.
Proof.
  destruct s as [|c s]; simpl; [reflexivity |].
  now intros ->%negb_true_iff.
Qed.

Lemma rstrip_starts_clean (s : string) :
  starts_clean s = true -> starts_clean (PyStr.rstrip s) = true.
Proof.
  destruct s as [|c s]; simpl; [reflexivity |]. intros H.
  destruct (PyStr.rstrip s); [| exact H].
  apply negb_true_iff in H. rewrite H. simpl. now rewrite H.
Qed.

Lemma rstrip_idem (s : string) : PyStr.rstrip (PyStr.rstrip s) = PyStr.rstrip s.
Proof.
  induction s as [|c s IH]; simpl; [reflexivity |].
  destruct (PyStr.rstrip s) as [|a r] eqn:E.
  - destruct (PyStr.is_space c) eqn:Ec; simpl; [reflexivity | now rewrite Ec].
  - change (PyStr.rstrip (String c (String a r))) with
      (match PyStr.rstrip (String a r) with
       | EmptyString =>
           if PyStr.is_space c then EmptyString else String c EmptyString
       | r' => String c r'
       end).
    now rewrite IH.
Qed.

Lemma strip_idem (s : string) : PyStr.strip (PyStr.strip s) = PyStr.strip s.
Proof.
  unfold PyStr.strip.
  rewrite (lstrip_id (PyStr.rstrip (PyStr.lstrip s))).
  - apply rstrip_idem.
  - apply rstrip_starts_clean, lstrip_starts_clean.
Qed.

Lemma strip_all_chars (p : ascii -> bool) (s : string) :
  PyStr.all_chars p s = true -> PyStr.all_chars p (PyStr.strip s) = true.
Proof. intros H. now apply rstrip_all_chars, lstrip_all_chars. Qed.

End StringFacts.

(** ** Filename policy *)

Example sanitize_example :
  sanitize_filename "My: Video / Title?" = "My Video  Title".
Proof. reflexivity. Qed.

Lemma sanitize_has_no_illegal (s : string) :
  PyStr.all_chars (fun c => negb (is_illegal c)) (sanitize_filename s) = true.
Proof. apply strip_all_chars, filter_chars_all. Qed.

(** C10.  [sanitize_filename] is idempotent: sanitizing a sanitized name
    gives that name back, for every string. *)
Theorem sanitize_filename_idempotent (s : string) :
  sanitize_filename (sanitize_filename s) = sanitize_filename s.
Proof.
  unfold sanitize_filename at 1.
  rewrite filter_chars_id by apply sanitize_has_no_illegal.
  apply strip_idem.
Qed.

Lemma take_drop (n : nat) (s : string) : PyStr.take n s ++ PyStr.drop n s = s.
Proof.
  revert s. induction n as [|n IH]; intros [|c s]; try reflexivity.
  simpl. now rewrite append_cons, IH.
Qed.

Lemma splitext_append (p base ext : string) :
  PosixPath.splitext p = (base, ext) -> base ++ ext = p.
Proof.
  unfold PosixPath.splitext.
  destruct (_ <? _); [destruct (PyStr.all_chars _ _) |];
    intros [= <- <-]; auto using append_empty_r, take_drop.
Qed.

Lemma unique_loop_stops (ex : string -> bool) (base ext : string)
    (fuel : nat) (path : string) (counter : Z) :
  ex path = false -> (0 < fuel)%nat ->
  unique_loop ex base ext fuel path counter = Some path.
Proof.
  intros Hp Hf. destruct fuel as [|fuel]; [lia |]. simpl. now rewrite Hp.
Qed.

Lemma unique_loop_first_free (ex : string -> bool) (base ext : string) (n : nat) :
  forall (fuel : nat) (path : string) (counter : Z),
    ex path = true ->
    (forall j, counter <= j < counter + Z.of_nat n ->
               ex (candidate base ext j) = true) ->
    ex (candidate base ext (counter + Z.of_nat n)) = false ->
    (S n < fuel)%nat ->
    unique_loop ex base ext fuel path counter
    = Some (candidate base ext (counter + Z.of_nat n)).
Proof.
  induction n as [|n IH]; intros fuel path counter Hp Hbelow Hfree Hfuel;
    (destruct fuel as [|fuel]; [lia |]); simpl; rewrite Hp.
  - rewrite Z.add_0_r in *. apply unique_loop_stops; [exact Hfree | lia].
  - replace (counter + Z.of_nat (S n)) with (counter + 1 + Z.of_nat n) in * by lia.
    apply IH; [apply Hbelow; lia | intros j Hj; apply Hbelow; lia | exact Hfree | lia].
Qed.

Lemma unique_loop_Some_free (ex : string -> bool) (base ext : string) (fuel : nat) :
  forall (path : string) (counter : Z) (p : string),
    unique_loop ex base ext fuel path counter = Some p -> ex p = false.
Proof.
  induction fuel as [|fuel IH]; intros path counter p; simpl; [discriminate |].
  destruct (ex path) eqn:E; [apply IH | now intros [= <-]].
Qed.

Lemma unique_loop_None_head (ex : string -> bool) (base ext : string)
    (fuel : nat) (path : string) (counter : Z) :
  unique_loop ex base ext fuel path counter = None -> (0 < fuel)%nat ->
  ex path = true.
Proof.
  destruct fuel as [|fuel]; [lia |]. simpl.
  destruct (ex path); [reflexivity | discriminate].
Qed.

Lemma unique_loop_None_all (ex : string -> bool) (base ext : string) (fuel : nat) :
  forall (path : string) (counter : Z),
    unique_loop ex base ext fuel path counter = None ->
    forall j, counter <= j < counter + Z.of_nat fuel - 1 ->
              ex (candidate base ext j) = true.
Proof.
  induction fuel as [|fuel IH]; intros path counter H j Hj; [lia |].
  simpl in H. destruct (ex path); [| discriminate].
  destruct (decide (j = counter)) as [-> | Hne].
  - apply (unique_loop_None_head _ _ _ _ _ _ H). lia.
  - apply (IH _ _ H). lia.
Qed.

Lemma candidate_inj (base ext : string) (j k : Z) :
  candidate base ext j = candidate base ext k -> j = k.
Proof.
  unfold candidate. intros H.
  apply append_cancel_l, append_cancel_l, append_cancel_r in H.
  exact (pretty_Z_inj _ _ H).
Qed.

(** A finite directory cannot hold every one of [size f + 1] candidates. *)
Lemma not_all_candidates_exist (f : gmap string Z) (base ext : string) :
  ~ (forall j, 1 <= j < 1 + Z.of_nat (S (size f)) ->
               path_exists f (candidate base ext j) = true).
Proof.
  intros H.
  set (l := (fun n : nat => candidate base ext (Z.of_nat n)) <$> seq 1 (S (size f))).
  assert (Hnd : NoDup l).
  { apply NoDup_fmap_2; [| apply NoDup_seq].
    intros a b Hab. apply candidate_inj in Hab. lia. }
  assert (Hsub : (list_to_set l : gset string) ⊆ dom f).
  { intros x Hx. apply elem_of_list_to_set, list_elem_of_fmap in Hx as (n & -> & Hn).
    apply elem_of_seq in Hn. apply elem_of_dom.
    specialize (H (Z.of_nat n) ltac:(lia)). unfold path_exists in H.
    now apply bool_decide_eq_true in H. }
  apply subseteq_size in Hsub.
  rewrite size_list_to_set, size_dom in Hsub by exact Hnd.
  unfold l in Hsub. rewrite length_fmap, length_seq in Hsub. lia.
Qed.

(** On the files of a world the loop always ends, within [size f + 2]
    tests, at a path that is free. *)
Lemma get_unique_path_total (f : gmap string Z) (path : string) :
  exists p, get_unique_path_fuel (path_exists f) (S (S (size f))) path = Some p
            /\ get_unique_path f path = p
            /\ path_exists f p = false.
Proof.
  unfold get_unique_path, get_unique_path_fuel.
  destruct (PosixPath.splitext path) as [base ext].
  destruct (unique_loop _ base ext _ path 1) as [p|] eqn:E.
  - exists p. repeat split. eapply unique_loop_Some_free, E.
  - exfalso. apply (not_all_candidates_exist f base ext).
    intros j Hj. apply (unique_loop_None_all _ _ _ _ _ _ E). lia.
Qed.

(** C9.  With [(base, ext)] the split of [path] at its extension:
    a path that does not exist is returned unchanged; for a path that
    exists, the result is the candidate [base_k ext] of the least counter
    [k >= 1] whose candidate does not exist (the loop needs [k + 1] tests). *)
Theorem get_unique_path_first_free (ex : string -> bool) (path base ext : string) :
  PosixPath.splitext path = (base, ext) ->
  base ++ ext = path
  /\ (ex path = false ->
      forall fuel, (0 < fuel)%nat -> get_unique_path_fuel ex fuel path = Some path)
  /\ (ex path = true ->
      forall k, 1 <= k ->
        (forall j, 1 <= j < k -> ex (candidate base ext j) = true) ->
        ex (candidate base ext k) = false ->
        forall fuel, (Z.to_nat k < fuel)%nat ->
          get_unique_path_fuel ex fuel path = Some (base ++ "_" ++ pretty k ++ ext)).
Proof.
  intros Hsplit. split; [now apply splitext_append |].
  unfold get_unique_path_fuel. rewrite Hsplit. split.
  - intros Hp fuel Hfuel. now apply unique_loop_stops.
  - intros Hp k Hk Hbelow Hfree fuel Hfuel.
    replace k with (1 + Z.of_nat (Z.to_nat (k - 1))) in Hfree |- * by lia.
    apply unique_loop_first_free; [exact Hp | | exact Hfree | lia].
    intros j Hj. apply Hbelow. lia.
Qed.

Lemma get_unique_path_first_free_witness :
  get_unique_path_fuel taken_a 3 "/d/a.mp4" = Some "/d/a_2.mp4"
  /\ get_unique_path_fuel taken_a 1 "/d/b.mp4" = Some "/d/b.mp4".
Proof.
  split.
  - destruct (get_unique_path_first_free taken_a "/d/a.mp4" "/d/a" ".mp4" eq_refl)
      as (_ & _ & H).
    apply (H eq_refl 2); [lia | | reflexivity | simpl; lia].
    intros j Hj. assert (j = 1) as -> by lia. reflexivity.
  - destruct (get_unique_path_first_free taken_a "/d/b.mp4" "/d/b" ".mp4" eq_refl)
      as (_ & H & _).
    apply (H eq_refl 1%nat). lia.
Defined.

(** ** URL normalizer *)

Lemma startswith_app (p s : string) : PyStr.startswith p (p ++ s) = true.
Proof.
  induction p as [|c p IH]; [now destruct s |].
  rewrite append_cons. simpl. now rewrite Ascii.eqb_refl.
Qed.

Lemma drop_app (p s : string) : PyStr.drop (String.length p) (p ++ s) = s.
Proof. induction p as [|c p IH]; [reflexivity | now rewrite append_cons]. Qed.

Lemma take_app (p s : string) : PyStr.take (String.length p) (p ++ s) = p.
Proof.
  induction p as [|c p IH]; [reflexivity |].
  rewrite append_cons. simpl. now rewrite IH.
Qed.

Lemma startswith_split (p s : string) :
  PyStr.startswith p s = true -> s = p ++ PyStr.drop (String.length p) s.
Proof.
  revert s. induction p as [|c p IH]; intros [|d s]; simpl; try easy.
  intros [Hc Hs]%andb_prop. apply Ascii.eqb_eq in Hc as ->.
  rewrite append_cons. f_equal. now apply IH.
Qed.

Lemma split_head_app (pre post : string) :
  PyStr.all_chars not_amp pre = true ->
  PyStr.split_head "&" (pre ++ post) = pre ++ PyStr.split_head "&" post.
Proof.
  induction pre as [|c pre IH]; [reflexivity |].
  simpl. intros [Hc Hs]%andb_prop. rewrite !append_cons. simpl.
  unfold not_amp in Hc. apply negb_true_iff in Hc. rewrite Hc.
  f_equal. now apply IH.
Qed.

Lemma split_head_at_amp (pre post : string) :
  PyStr.all_chars not_amp pre = true ->
  PyStr.split_head "&" (pre ++ "&" ++ post) = pre.
Proof.
  intros H. rewrite split_head_app by exact H.
  change (PyStr.split_head "&" ("&" ++ post)) with EmptyString.
  apply append_empty_r.
Qed.

Lemma split_head_no_amp (s : string) :
  PyStr.all_chars not_amp s = true -> PyStr.split_head "&" s = s.
Proof.
  intros H. rewrite <- (append_empty_r s) at 1.
  rewrite split_head_app by exact H. apply append_empty_r.
Qed.

Lemma contains_app (sub pre post : string) :
  PyStr.contains sub (pre ++ sub ++ post) = true.
Proof.
  induction pre as [|c pre IH].
  - rewrite append_nil_l. destruct (sub ++ post) eqn:E; simpl;
      rewrite <- E, startswith_app; reflexivity.
  - rewrite append_cons. simpl. rewrite IH. apply orb_true_r.
Qed.

(** What the short-link pattern accepts: [http] or [https], the host
    [youtu.be], and eleven identifier characters; anything may follow. *)
Lemma short_link_id_match (secure : bool) (video_id rest : string) :
  String.length video_id = 11%nat ->
  PyStr.all_chars is_id_char video_id = true ->
  short_link_id ("http" ++ (if secure then "s" else "") ++ "://youtu.be/"
                 ++ video_id ++ rest) = Some video_id.
Proof.
  intros Hlen Hid. unfold short_link_id.
  assert (Hdrop : forall n p t, n = String.length p -> PyStr.drop n (p ++ t) = t)
    by (intros n p t ->; apply drop_app).
  rewrite startswith_app, (Hdrop 4%nat "http") by reflexivity.
  assert (Hs : PyStr.startswith "s" ("://youtu.be/" ++ video_id ++ rest) = false)
    by reflexivity.
  destruct secure.
  - rewrite startswith_app, (Hdrop 1%nat "s") by reflexivity.
    rewrite startswith_app, (Hdrop 12%nat "://youtu.be/") by reflexivity.
    rewrite <- Hlen, take_app, Nat.eqb_refl, Hid. reflexivity.
  - rewrite append_nil_l, Hs.
    rewrite startswith_app, (Hdrop 12%nat "://youtu.be/") by reflexivity.
    rewrite <- Hlen, take_app, Nat.eqb_refl, Hid. reflexivity.
Qed.

(** On a string with no ampersand before a watch marker, the first
    ampersand of the string is the first one after the marker, and the two
    readings of the second rule agree. *)
Lemma spec_cut_agrees (pre post : string) :
  PyStr.all_chars not_amp pre = true ->
  spec_cut_after_marker (pre ++ watch_marker ++ post)
  = PyStr.split_head "&" (pre ++ watch_marker ++ post).
Proof.
  induction pre as [|c pre IH]; intros Hpre.
  - rewrite append_nil_l.
    assert (E : spec_cut_after_marker (watch_marker ++ post)
                = watch_marker ++ PyStr.split_head "&" post) by reflexivity.
    rewrite E. now rewrite split_head_app.
  - simpl in Hpre. apply andb_prop in Hpre as [Hc Hpre].
    rewrite append_cons.
    destruct (PyStr.startswith watch_marker (String c (pre ++ watch_marker ++ post))) eqn:E.
    + pose proof (startswith_split _ _ E) as Hs.
      set (s := String c (pre ++ watch_marker ++ post)) in *.
      assert (Hcut : spec_cut_after_marker s
                     = watch_marker ++ PyStr.split_head "&" (PyStr.drop 8 s)).
      { unfold s. simpl. unfold s in E. simpl in E. now rewrite E. }
      rewrite Hcut. rewrite Hs at 2. now rewrite split_head_app.
    + assert (Hcut : spec_cut_after_marker (String c (pre ++ watch_marker ++ post))
                     = String c (spec_cut_after_marker (pre ++ watch_marker ++ post))).
      { simpl. simpl in E. now rewrite E. }
      rewrite Hcut, IH by exact Hpre. simpl.
      unfold not_amp in Hc. apply negb_true_iff in Hc. now rewrite Hc.
Qed.

Lemma short_link_id_inv (url video_id : string) :
  short_link_id url = Some video_id ->
  String.length video_id = 11%nat
  /\ PyStr.all_chars is_id_char video_id = true
  /\ exists (secure : bool) (rest : string),
       url = "http" ++ (if secure then "s" else "") ++ "://youtu.be/"
             ++ video_id ++ rest.
Proof.
  unfold short_link_id.
  destruct (PyStr.startswith "http" url) eqn:E1; [| discriminate].
  apply startswith_split in E1. set (r := PyStr.drop 4 url) in *.
  set (r' := if PyStr.startswith "s" r then PyStr.drop 1 r else r).
  destruct (PyStr.startswith "://youtu.be/" r') eqn:E2; [| discriminate].
  apply startswith_split in E2.
  remember (PyStr.take 11 (PyStr.drop 12 r')) as vid eqn:Evid.
  destruct (_ && _) eqn:E3; [| discriminate].
  apply andb_prop in E3 as [Hlen Hid]. apply Nat.eqb_eq in Hlen.
  intros Hsome. assert (vid = video_id) as <- by congruence. clear Hsome.
  repeat split; [exact Hlen | exact Hid |].
  assert (Hr : r = (if PyStr.startswith "s" r then "s" else "") ++ r').
  { unfold r'. destruct (PyStr.startswith "s" r) eqn:E; [| reflexivity].
    now apply startswith_split in E. }
  exists (PyStr.startswith "s" r), (PyStr.drop 11 (PyStr.drop 12 r')).
  rewrite Evid, take_drop.
  change (PyStr.drop 12 r') with (PyStr.drop (String.length "://youtu.be/") r').
  rewrite <- E2, <- Hr. exact E1.
Qed.

(** C7, as the code has it.  A string that starts with the short-link
    pattern is rewritten to the canonical long form built from the
    identifier alone; otherwise a string that contains the watch marker is
    cut at the first ampersand of the whole string (kept whole without
    one), which is the first ampersand after the marker when none comes
    before it; any other string is returned unchanged. *)
Theorem clean_youtube_url_rules (url : string) :
  (forall (secure : bool) (video_id rest : string),
      url = "http" ++ (if secure then "s" else "") ++ "://youtu.be/"
            ++ video_id ++ rest ->
      String.length video_id = 11%nat ->
      PyStr.all_chars is_id_char video_id = true ->
      clean_youtube_url url = "https://www.youtube.com/watch?v=" ++ video_id)
  /\ (short_link_id url = None -> PyStr.contains watch_marker url = true ->
      (forall pre post, url = pre ++ "&" ++ post ->
                        PyStr.all_chars not_amp pre = true ->
                        clean_youtube_url url = pre)
      /\ (PyStr.all_chars not_amp url = true -> clean_youtube_url url = url)
      /\ (forall pre post, url = pre ++ watch_marker ++ post ->
                           PyStr.all_chars not_amp pre = true ->
                           clean_youtube_url url
                           = pre ++ watch_marker ++ PyStr.split_head "&" post))
  /\ (short_link_id url = None -> PyStr.contains watch_marker url = false ->
      clean_youtube_url url = url).
Proof.
  unfold clean_youtube_url. split; [| split].
  - intros secure video_id rest -> Hlen Hid.
    now rewrite short_link_id_match.
  - intros -> ->. split; [| split].
    + intros pre post -> Hpre. now apply split_head_at_amp.
    + intros Hurl. now apply split_head_no_amp.
    + intros pre post -> Hpre.
      rewrite split_head_app by exact Hpre. reflexivity.
  - intros -> ->. reflexivity.
Qed.

Lemma clean_youtube_url_rules_witness :
  clean_youtube_url "https://youtu.be/abcdEFGH123?t=42"
  = "https://www.youtube.com/watch?v=abcdEFGH123"
  /\ clean_youtube_url "https://www.youtube.com/watch?v=X&list=Y"
     = "https://www.youtube.com/watch?v=X"
  /\ clean_youtube_url attribution_url
     = "https://www.youtube.com/attribution_link?a=x"
  /\ clean_youtube_url "https://example.org/a&b" = "https://example.org/a&b".
Proof.
  split; [| split; [| split]].
  - apply (proj1 (clean_youtube_url_rules "https://youtu.be/abcdEFGH123?t=42")
             true "abcdEFGH123" "?t=42"); reflexivity.
  - apply (proj1 (proj1 (proj2 (clean_youtube_url_rules
                    "https://www.youtube.com/watch?v=X&list=Y")) eq_refl eq_refl)
             "https://www.youtube.com/watch?v=X" "list=Y"); reflexivity.
  - apply (proj1 (proj1 (proj2 (clean_youtube_url_rules attribution_url))
                    eq_refl eq_refl)
             "https://www.youtube.com/attribution_link?a=x"
             "u=/watch?v=abcdEFGH123&feature=share"); reflexivity.
  - apply (proj2 (proj2 (clean_youtube_url_rules "https://example.org/a&b")));
      reflexivity.
Defined.

(** Where the two readings of the second rule part: the first ampersand of
    this link comes before the watch marker, and the code cuts there,
    dropping the marker and the identifier with it. *)
Lemma clean_youtube_url_cuts_before_marker :
  short_link_id attribution_url = None
  /\ PyStr.contains watch_marker attribution_url = true
  /\ clean_youtube_url attribution_url
     = "https://www.youtube.com/attribution_link?a=x"
  /\ spec_clean_youtube_url attribution_url
     = "https://www.youtube.com/attribution_link?a=x&u=/watch?v=abcdEFGH123"
  /\ clean_youtube_url attribution_url <> spec_clean_youtube_url attribution_url.
Proof. repeat split. vm_compute. discriminate. Qed.

(** The two readings agree on every string in which no ampersand comes
    before some watch marker. *)
Lemma clean_youtube_url_agrees_with_spec (pre post : string) :
  PyStr.all_chars not_amp pre = true ->
  clean_youtube_url (pre ++ watch_marker ++ post)
  = spec_clean_youtube_url (pre ++ watch_marker ++ post).
Proof.
  intros Hpre. unfold clean_youtube_url, spec_clean_youtube_url.
  destruct (short_link_id _); [reflexivity |].
  rewrite contains_app. symmetry. now apply spec_cut_agrees.
Qed.

(** ** Representation selector *)

Section Selector.

Variable Q : Z.

(** The loop stops at the first stream within the ceiling, having passed
    only streams above it. *)
Lemma first_within_spec (vs : list Stream) :
  Forall (fun s => is_Some (resolution s)) vs ->
  (first_within Q vs = Ok None /\ Forall (fun s => Q < res_of s) vs)
  \/ (exists l1 s l2,
        first_within Q vs = Ok (Some s) /\ vs = (l1 ++ s :: l2)%list
        /\ Forall (fun x => Q < res_of x) l1 /\ res_of s <= Q).
Proof.
  induction 1 as [|s vs [r Hr] Hvs IH]; [left; split; constructor |].
  simpl. rewrite Hr. destruct (r <=? Q) eqn:E.
  - right. exists [], s, vs. repeat split; [constructor |].
    unfold res_of, StreamQuery.key_of. rewrite Hr. simpl. lia.
  - assert (Hs : Q < res_of s).
    { unfold res_of, StreamQuery.key_of. rewrite Hr. simpl. lia. }
    destruct IH as [[E1 Hall] | (l1 & x & l2 & E1 & -> & Hl1 & Hx)].
    + left. split; [exact E1 | now constructor].
    + right. exists (s :: l1), x, l2. repeat split; auto.
Qed.

End Selector.

Lemma sorted_desc_head (attr : Stream -> option Z) (s : Stream) (q : list Stream) :
  sorted_desc attr (s :: q) ->
  forall s', s' ∈ s :: q -> StreamQuery.key_of attr s' <= StreamQuery.key_of attr s.
Proof.
  intros Hs s' Hin. apply StronglySorted_inv in Hs as [_ Hall].
  apply elem_of_cons in Hin as [-> | Hin]; [lia |].
  rewrite Forall_forall in Hall. now apply Hall.
Qed.

Lemma sorted_desc_app_inv (attr : Stream -> option Z) (l1 l2 : list Stream) :
  sorted_desc attr (l1 ++ l2)%list -> sorted_desc attr l2.
Proof.
  induction l1 as [|x l1 IH]; [auto |].
  simpl. intros H. apply StronglySorted_inv in H as [H _]. now apply IH.
Qed.

(** C1.  On a non-empty list of video representations sorted by resolution,
    highest first, the selector returns a member of the list: when some
    resolution is within the ceiling [Q], one within [Q] that no other
    resolution within [Q] exceeds; when every resolution exceeds [Q], the
    head of the list, which no resolution exceeds. *)
Theorem select_video_largest_within (Q : Z) (vs : list Stream) :
  vs <> [] ->
  Forall (fun s => is_Some (resolution s)) vs ->
  sorted_desc resolution vs ->
  exists s,
    select_video Q vs = Ok (Some s) /\ s ∈ vs
    /\ ((exists s', s' ∈ vs /\ res_of s' <= Q) ->
        res_of s <= Q
        /\ forall s', s' ∈ vs -> res_of s' <= Q -> res_of s' <= res_of s)
    /\ ((forall s', s' ∈ vs -> Q < res_of s') ->
        head vs = Some s /\ forall s', s' ∈ vs -> res_of s' <= res_of s).
Proof.
  intros Hne Hres Hsorted. unfold select_video.
  destruct (first_within_spec Q vs Hres)
    as [[E Hall] | (l1 & s & l2 & E & -> & Hl1 & Hs)]; rewrite E.
  - destruct vs as [|s vs]; [congruence |]. exists s. simpl.
    split; [reflexivity |]. split; [apply elem_of_cons; auto |]. split.
    + intros (s' & Hin & Hle). rewrite Forall_forall in Hall.
      apply Hall in Hin. lia.
    + intros _. split; [reflexivity |]. now apply sorted_desc_head.
  - exists s. split; [reflexivity |].
    split; [apply elem_of_app; right; apply elem_of_cons; auto |]. split.
    + intros _. split; [exact Hs |]. intros s' Hin Hle.
      apply elem_of_app in Hin as [Hin | Hin].
      * rewrite Forall_forall in Hl1. apply Hl1 in Hin. lia.
      * apply sorted_desc_app_inv in Hsorted.
        now apply (sorted_desc_head resolution s l2).
    + intros Habove. specialize (Habove s).
      assert (s ∈ (l1 ++ s :: l2)%list) as Hin
          by (apply elem_of_app; right; apply elem_of_cons; auto).
      apply Habove in Hin. lia.
Qed.

Lemma select_video_largest_within_witness :
  (exists s, select_video 720 [v1080; v720; v480] = Ok (Some s) /\ res_of s = 720)
  /\ (exists s, select_video 360 [v1080; v720; v480] = Ok (Some s) /\ res_of s = 1080).
Proof.
  assert (Hne : [v1080; v720; v480] <> []) by discriminate.
  assert (Hres : Forall (fun s => is_Some (resolution s)) [v1080; v720; v480])
    by (repeat constructor; eexists; reflexivity).
  assert (Hsorted : sorted_desc resolution [v1080; v720; v480])
    by (repeat constructor; vm_compute; discriminate).
  split.
  - destruct (select_video_largest_within 720 _ Hne Hres Hsorted)
      as (s & E & _). exists s. split; [exact E |].
    vm_compute in E. now injection E as <-.
  - destruct (select_video_largest_within 360 _ Hne Hres Hsorted)
      as (s & E & _). exists s. split; [exact E |].
    vm_compute in E. now injection E as <-.
Defined.

(** *** The stream query *)

Section OrderBy.

Variable attr : Stream -> option Z.

Lemma elem_of_insert_by (x y : Stream) (l : list Stream) :
  y ∈ StreamQuery.insert_by attr x l <-> y = x \/ y ∈ l.
Proof.
  induction l as [|z l IH]; simpl.
  - rewrite list_elem_of_singleton, elem_of_nil. tauto.
  - destruct (_ <=? _); rewrite !elem_of_cons; [tauto |].
    rewrite IH. tauto.
Qed.

Lemma insert_by_sorted (x : Stream) (l : list Stream) :
  StronglySorted (asc_by attr) l -> StronglySorted (asc_by attr) (StreamQuery.insert_by attr x l).
Proof.
  induction 1 as [|z l Hl IH Hz]; simpl; [repeat constructor |].
  destruct (_ <=? _) eqn:E.
  - apply Z.leb_le in E. constructor; [now constructor |].
    constructor; [exact E |].
    eapply Forall_impl; [exact Hz |]. unfold asc_by. intros; simpl in *; lia.
  - apply Z.leb_gt in E. constructor; [exact IH |].
    apply Forall_forall. intros y Hy. apply elem_of_insert_by in Hy as [-> | Hy].
    + unfold asc_by. lia.
    + rewrite Forall_forall in Hz. now apply Hz.
Qed.

Lemma order_by_sorted (q : list Stream) :
  StronglySorted (asc_by attr) (StreamQuery.order_by attr q).
Proof.
  unfold StreamQuery.order_by.
  induction (List.filter _ q) as [|x l IH]; simpl; [constructor |].
  now apply insert_by_sorted.
Qed.

Lemma elem_of_order_by (s : Stream) (q : list Stream) :
  s ∈ StreamQuery.order_by attr q <-> s ∈ q /\ is_Some (attr s).
Proof.
  unfold StreamQuery.order_by.
  assert (H : forall l, s ∈ foldr (StreamQuery.insert_by attr) [] l <-> s ∈ l).
  { induction l as [|x l IH]; simpl; [reflexivity |].
    rewrite elem_of_insert_by, elem_of_cons, IH. reflexivity. }
  rewrite H, !list_elem_of_In, filter_In.
  unfold StreamQuery.has_attr.
  destruct (attr s) as [v|]; split; intros [Hin Hs]; split; auto;
    first [congruence | now destruct Hs | now eexists].
Qed.

Lemma sorted_rev (l : list Stream) :
  StronglySorted (asc_by attr) l -> sorted_desc attr (rev l).
Proof.
  induction 1 as [|x l Hl IH Hx]; simpl; [constructor |].
  assert (Happ : forall l1,
             sorted_desc attr l1 ->
             Forall (fun y => asc_by attr x y) l1 -> sorted_desc attr (l1 ++ [x])%list).
  { induction 1 as [|y l1 Hl1 IH1 Hy]; intros Hall; simpl.
    - repeat constructor.
    - apply Forall_cons in Hall as [Hxy Hall]. constructor; [now apply IH1 |].
      apply Forall_app. split; [exact Hy | repeat constructor; exact Hxy]. }
  apply Happ; [exact IH |].
  apply Forall_forall. intros y Hy. rewrite Forall_forall in Hx. apply Hx.
  apply list_elem_of_In. apply list_elem_of_In, in_rev in Hy. exact Hy.
Qed.

(** [order_by(attr).desc()] is sorted, highest first, and holds exactly
    the streams of the query that have the attribute. *)
Lemma desc_order_by_sorted (q : list Stream) :
  sorted_desc attr (StreamQuery.desc (StreamQuery.order_by attr q)).
Proof. apply sorted_rev, order_by_sorted. Qed.

Lemma elem_of_desc_order_by (s : Stream) (q : list Stream) :
  s ∈ StreamQuery.desc (StreamQuery.order_by attr q) <-> s ∈ q /\ is_Some (attr s).
Proof.
  unfold StreamQuery.desc. rewrite <- elem_of_order_by.
  rewrite !list_elem_of_In. symmetry. apply in_rev.
Qed.

(** [first()] of such a query is a stream no other exceeds. *)
Lemma first_desc_order_by (s : Stream) (q : list Stream) :
  StreamQuery.first (StreamQuery.desc (StreamQuery.order_by attr q)) = Some s ->
  s ∈ q /\ is_Some (attr s)
  /\ forall s', s' ∈ q -> is_Some (attr s') ->
                StreamQuery.key_of attr s' <= StreamQuery.key_of attr s.
Proof.
  intros Hfirst.
  pose proof (desc_order_by_sorted q) as Hsorted.
  pose proof (fun x => elem_of_desc_order_by x q) as Hin.
  destruct (StreamQuery.desc (StreamQuery.order_by attr q)) as [|x l];
    [discriminate |].
  injection Hfirst as ->.
  destruct (proj1 (Hin s)) as [Hs Hattr]; [apply elem_of_cons; auto |].
  repeat split; auto. intros s' Hs' Hattr'.
  apply (sorted_desc_head attr s l Hsorted). apply Hin. auto.
Qed.

End OrderBy.

Lemma elem_of_query_filter (p : Stream -> bool) (s : Stream) (q : list Stream) :
  s ∈ StreamQuery.filter p q <-> s ∈ q /\ p s = true.
Proof.
  unfold StreamQuery.filter.
  rewrite !list_elem_of_In. apply filter_In.
Qed.

Lemma Kind_eqb_eq (a b : Kind) : Kind_eqb a b = true <-> a = b.
Proof. destruct a, b; simpl; split; congruence. Qed.

(** The audio-only selection: an audio-only stream of the catalog whose
    bitrate no other audio-only stream exceeds. *)
Lemma best_audio_only_spec (yt : Video) (s : Stream) :
  best_audio_only yt = Some s ->
  kind s = KAudio /\ s ∈ streams yt
  /\ forall s', s' ∈ streams yt -> kind s' = KAudio -> is_Some (abr s') ->
                StreamQuery.key_of abr s' <= StreamQuery.key_of abr s.
Proof.
  intros H. apply first_desc_order_by in H as (Hin & _ & Hmax).
  apply elem_of_query_filter in Hin as [Hin Hk].
  apply Kind_eqb_eq in Hk. repeat split; auto.
  intros s' Hs' Hk' Habr. apply Hmax; [| exact Habr].
  apply elem_of_query_filter. split; [exact Hs' |]. now apply Kind_eqb_eq.
Qed.

(** The candidate list of the video path meets the premises of the
    selector's property: it is sorted by resolution, highest first, and
    every member is a video-only mp4 stream with a resolution. *)
Lemma video_streams_sorted (yt : Video) :
  sorted_desc resolution (video_streams yt)
  /\ Forall (fun s => is_Some (resolution s)) (video_streams yt)
  /\ Forall (fun s => kind s = KVideo /\ subtype s = "mp4" /\ s ∈ streams yt)
            (video_streams yt).
Proof.
  split; [apply desc_order_by_sorted |].
  split; apply Forall_forall; intros s Hs;
    apply elem_of_desc_order_by in Hs as [Hs Hres]; [exact Hres |].
  apply elem_of_query_filter in Hs as [Hs Hp].
  apply andb_prop in Hp as [Hk He].
  apply Kind_eqb_eq in Hk. apply String.eqb_eq in He. auto.
Qed.

(** ** Operations a run adds to the world *)

Section Appends.

Variable P : Op -> Prop.

Lemma appends_nothing {A} (m : M A) :
  (forall w r w', m w = (r, w') -> ops w' = ops w) -> appends P m.
Proof.
  intros H w r w' E. exists []. rewrite app_nil_r. split; [eauto | constructor].
Qed.

Lemma appends_ret {A} (a : A) : appends P (mret a).
Proof. apply appends_nothing. now intros w r w' [= _ <-]. Qed.

Lemma appends_raise {A} (e : exn) : appends P (raise e : M A).
Proof. apply appends_nothing. now intros w r w' [= _ <-]. Qed.

Lemma appends_lift {A} (x : Exc A) : appends P (lift x).
Proof. apply appends_nothing. now intros w r w' [= _ <-]. Qed.

Lemma appends_emit (msg : string) (pct : option Z) (info : option VideoInfo) :
  appends P (emit_progress msg pct info).
Proof. apply appends_nothing. now intros w r w' [= _ <-]. Qed.

Lemma appends_get_fs : appends P get_fs.
Proof. apply appends_nothing. now intros w r w' [= _ <-]. Qed.

Lemma appends_write_file (path : string) (size : Z) : appends P (write_file path size).
Proof. apply appends_nothing. now intros w r w' [= _ <-]. Qed.

Lemma appends_log_op (o : Op) : P o -> appends P (log_op o).
Proof.
  intros Ho w r w' [= _ <-]. exists [o]. split; [reflexivity | now constructor].
Qed.

Lemma appends_remove (path : string) : P (OpRemove path) -> appends P (remove path).
Proof.
  intros Ho w r w'. unfold remove. destruct (fs w !! path); intros [= _ <-].
  - exists [OpRemove path]. split; [reflexivity | now constructor].
  - exists []. rewrite app_nil_r. split; [reflexivity | constructor].
Qed.

Lemma appends_subprocess_run (env : Env) (argv : list string) (check : bool) :
  P (OpRun argv) -> appends P (subprocess_run env argv check).
Proof.
  intros Ho w r w'. unfold subprocess_run.
  destruct (ffmpeg env argv (fs w)) as [[code err | e] f'];
    [destruct (check && negb (code =? 0)) |]; intros [= _ <-];
    (exists [OpRun argv]; split; [reflexivity | now constructor]).
Qed.

Lemma appends_bind {A B} (m : M A) (k : A -> M B) :
  appends P m -> (forall a, appends P (k a)) -> appends P (m ≫= k).
Proof.
  intros Hm Hk w r w'. unfold mbind, M_bind, bind.
  destruct (m w) as [[a | e] w1] eqn:E; apply Hm in E as (n1 & E1 & F1).
  - intros (n2 & E2 & F2)%Hk. exists (n1 ++ n2)%list.
    rewrite E2, E1, app_assoc. split; [reflexivity | now apply Forall_app].
  - intros [= _ <-]. now exists n1.
Qed.

Lemma appends_bind_lift {A B} (x : Exc A) (k : A -> M B) :
  (forall a, x = Ok a -> appends P (k a)) -> appends P (lift x ≫= k).
Proof.
  intros Hk w r w'. unfold mbind, M_bind, bind, lift.
  destruct x as [a | e]; [now apply Hk |].
  intros [= _ <-]. exists []. rewrite app_nil_r. split; [reflexivity | constructor].
Qed.

Lemma appends_try_except {A} (m : M A) (h : exn -> M A) :
  appends P m -> (forall e, appends P (h e)) -> appends P (try_except m h).
Proof.
  intros Hm Hh w r w'. unfold try_except.
  destruct (m w) as [[a | e] w1] eqn:E; apply Hm in E as (n1 & E1 & F1).
  - intros [= _ <-]. now exists n1.
  - intros (n2 & E2 & F2)%Hh. exists (n1 ++ n2)%list.
    rewrite E2, E1, app_assoc. split; [reflexivity | now apply Forall_app].
Qed.

Lemma appends_for_each {A} (l : list A) (body : A -> M unit) :
  (forall x, appends P (body x)) -> appends P (for_each l body).
Proof.
  intros Hb. induction l as [|x l IH]; simpl; [apply appends_ret |].
  apply appends_bind; auto.
Qed.

Lemma appends_progress_callback (s : Stream) (bytes_remaining : Z) :
  appends P (progress_callback s bytes_remaining).
Proof.
  unfold progress_callback. apply appends_bind; [apply appends_lift |].
  intros; apply appends_emit.
Qed.

Lemma appends_cli_progress (env : Env) (s : Stream) (bytes_remaining : Z) :
  appends P (cli_progress env s bytes_remaining).
Proof.
  unfold cli_progress. apply appends_bind; [apply appends_lift |].
  intros; apply appends_emit.
Qed.

Lemma appends_download (env : Env) (cb : Stream -> Z -> M unit) (s : Stream)
    (output_path filename_prefix : string) :
  (forall path, P (OpDownload s path)) ->
  (forall r, appends P (cb s r)) ->
  appends P (download env cb s output_path filename_prefix).
Proof.
  intros Hs Hcb. unfold download.
  apply appends_bind; [now apply appends_log_op | intros _].
  apply appends_bind; [apply appends_write_file | intros _].
  apply appends_bind.
  - apply appends_for_each. intros r.
    apply appends_bind; [apply appends_write_file | intros _; apply Hcb].
  - intros _. destruct (transfer env s).2; [apply appends_raise | apply appends_ret].
Qed.

Lemma appends_download_first (env : Env) (cb : Stream -> Z -> M unit)
    (o : option Stream) (output_path filename_prefix : string) :
  (forall s path, o = Some s -> P (OpDownload s path)) ->
  (forall s r, appends P (cb s r)) ->
  appends P (download_first env cb o output_path filename_prefix).
Proof.
  intros Hs Hcb. destruct o as [s|]; simpl; [| apply appends_raise].
  apply appends_download; eauto.
Qed.

Lemma appends_save_thumbnail (env : Env) (url final_filename : string) :
  (forall path, P (OpWrite path)) ->
  appends P (save_thumbnail env url final_filename).
Proof.
  intros Hw. unfold save_thumbnail.
  apply appends_try_except; [| intros; apply appends_emit].
  apply appends_bind; [apply appends_lift | intros response].
  destruct (response.1 =? 200); [| apply appends_ret].
  apply appends_bind; [now apply appends_log_op | intros; apply appends_write_file].
Qed.

Lemma appends_run_guarded {A} (m : M A) (h : exn -> World -> A * World)
    (w : World) :
  appends P m ->
  (forall e w1, ops (h e w1).2 = ops w1) ->
  exists new, ops (run_guarded m h w).2 = (ops w ++ new)%list /\ Forall P new.
Proof.
  intros Hm Hh. unfold run_guarded.
  destruct (m w) as [[a | e] w1] eqn:E; apply Hm in E as (n1 & E1 & F1);
    exists n1; [| rewrite Hh]; auto.
Qed.

End Appends.

(** ** Audio-only runs *)

Lemma audio_only_op_intro (env : Env) (url : string) (yt : Video) (s : Stream)
    (path : string) :
  youtube env url = Ok yt -> best_audio_only yt = Some s ->
  audio_only_op env url (OpDownload s path).
Proof.
  intros Hyt Hs. exists yt. pose proof (best_audio_only_spec yt s Hs). tauto.
Qed.

Lemma audio_only_web_appends (env : Env) (url : string) (yt : Video) :
  youtube env url = Ok yt ->
  appends (audio_only_op env url) (audio_only_web env yt).
Proof.
  intros Hyt. unfold audio_only_web.
  apply appends_bind; [apply appends_emit | intros _].
  destruct (best_audio_only yt) as [s|] eqn:Hs.
  - apply appends_bind.
    + apply appends_download; [| intros; apply appends_progress_callback].
      intros path. now apply (audio_only_op_intro env url yt).
    + intros audio_file_path. unfold convert_web.
      apply appends_bind; [apply appends_emit | intros _].
      apply appends_try_except.
      * apply appends_bind; [now apply appends_subprocess_run | intros result].
        destruct (negb (result.1 =? 0)).
        { apply appends_bind; [apply appends_emit | intros; apply appends_ret]. }
        apply appends_bind; [apply appends_get_fs | intros f].
        destruct (_ && _).
        { apply appends_bind; [now apply appends_remove | intros _].
          apply appends_bind; [now apply appends_save_thumbnail | intros _].
          apply appends_bind; [apply appends_emit | intros; apply appends_ret]. }
        apply appends_bind; [apply appends_emit | intros; apply appends_ret].
      * intros e. destruct (is_timeout e);
          (apply appends_bind; [apply appends_emit | intros; apply appends_ret]).
  - apply appends_bind; [apply appends_emit | intros; apply appends_ret].
Qed.

Lemma audio_only_cli_appends (env : Env) (url : string) (yt : Video) :
  youtube env url = Ok yt ->
  appends (audio_only_op env url) (audio_only_cli env yt).
Proof.
  intros Hyt. unfold audio_only_cli.
  apply appends_bind; [apply appends_emit | intros _].
  apply appends_bind.
  - apply appends_download_first; [| intros; apply appends_cli_progress].
    intros s path Hs. now apply (audio_only_op_intro env url yt).
  - intros mp4_path.
    apply appends_bind; [now apply appends_subprocess_run | intros _].
    apply appends_bind; [now apply appends_remove | intros; apply appends_emit].
Qed.

(** C8.  In a run with the audio-only flag set, on either front end, every
    stream handed to the acquisition driver is the audio-only
    representation of highest bitrate; no video or progressive stream is
    fetched, and the run does not depend on the quality ceiling, which only
    the video selection reads. *)
Theorem audio_only_selects_no_video (env : Env) (url : string) (q : Z) (w : World) :
  (exists new,
      ops (download_video_web env url q true w).2 = (ops w ++ new)%list
      /\ Forall (audio_only_op env url) new)
  /\ (exists new,
         ops (download_video env url q true w).2 = (ops w ++ new)%list
         /\ Forall (audio_only_op env url) new)
  /\ (forall q', download_video_web env url q' true w
                 = download_video_web env url q true w)
  /\ (forall q', download_video env url q' true w
                 = download_video env url q true w).
Proof.
  split; [| split; [| split; reflexivity]].
  - apply appends_run_guarded; [| reflexivity].
    unfold download_video_web_body.
    apply appends_bind; [apply appends_emit | intros _].
    apply appends_bind_lift. intros yt Hyt.
    apply appends_bind; [apply appends_emit | intros _].
    apply appends_bind; [apply appends_emit | intros _].
    now apply audio_only_web_appends.
  - apply appends_run_guarded; [| reflexivity].
    unfold download_video_body.
    apply appends_bind_lift. intros yt Hyt.
    apply appends_bind; [apply appends_emit | intros _].
    apply appends_bind; [apply appends_emit | intros _].
    apply appends_bind; [apply appends_emit | intros _].
    now apply audio_only_cli_appends.
Qed.

(** ** Merge stage *)

(** A failed tool run: [merge_audio_video] removes nothing and returns
    [False]. *)
Lemma merge_audio_video_tool_failure (env : Env) (video_path audio_path output_path : string)
    (w : World) (out : ToolOutcome) (f1 : gmap string Z) :
  ffmpeg env (merge_argv video_path audio_path output_path) (fs w) = (out, f1) ->
  exit_ok out = false ->
  exists w', merge_audio_video env video_path audio_path output_path w = (Ok false, w')
             /\ fs w' = f1.
Proof.
  intros Htool Hout.
  unfold merge_audio_video, try_except, mbind, M_bind, bind, subprocess_run.
  rewrite Htool. destruct out as [code err | e]; simpl in *.
  - rewrite Hout. simpl. eexists; split; reflexivity.
  - eexists; split; reflexivity.
Qed.

(** A run that exits with zero: the two removals decide the result. *)
Lemma merge_audio_video_tool_success (env : Env) (video_path audio_path output_path : string)
    (w : World) (out : ToolOutcome) (f1 : gmap string Z) :
  ffmpeg env (merge_argv video_path audio_path output_path) (fs w) = (out, f1) ->
  exit_ok out = true ->
  exists w',
    merge_audio_video env video_path audio_path output_path w
    = (Ok (bool_decide (is_Some (f1 !! video_path)
                        /\ is_Some (delete video_path f1 !! audio_path))), w')
    /\ fs w' = (if bool_decide (is_Some (f1 !! video_path))
                then if bool_decide (is_Some (delete video_path f1 !! audio_path))
                     then delete audio_path (delete video_path f1)
                     else delete video_path f1
                else f1).
Proof.
  intros Htool Hout.
  unfold merge_audio_video, try_except, mbind, M_bind, bind, subprocess_run, remove.
  rewrite Htool. destruct out as [code err | e]; simpl in *; [| discriminate].
  rewrite Hout. simpl.
  destruct (f1 !! video_path) as [sz|] eqn:Ev; simpl;
    [destruct (delete video_path f1 !! audio_path) as [sz'|] eqn:Ea; simpl |];
    eexists; split; reflexivity.
Qed.

(** C2, as the code has it.  When the tool fails (a non-zero status or a
    raised error), whatever the paths, the merge removes nothing and returns
    failure.  When the tool exits with zero and the two source paths are
    distinct files on disk at that moment, the merge deletes both and
    returns success; so for such paths success is returned exactly when the
    tool exits with zero. *)
Theorem merge_audio_video_outcome (env : Env)
    (video_path audio_path output_path : string) (w : World)
    (out : ToolOutcome) (f1 : gmap string Z) :
  ffmpeg env (merge_argv video_path audio_path output_path) (fs w) = (out, f1) ->
  (exit_ok out = false ->
   exists w', merge_audio_video env video_path audio_path output_path w = (Ok false, w')
              /\ fs w' = f1)
  /\ (video_path <> audio_path ->
      is_Some (f1 !! video_path) -> is_Some (f1 !! audio_path) ->
      exists w',
        merge_audio_video env video_path audio_path output_path w = (Ok (exit_ok out), w')
        /\ fs w' = (if exit_ok out then delete audio_path (delete video_path f1) else f1)).
Proof.
  intros Htool. split; [now apply (merge_audio_video_tool_failure _ _ _ _ _ out) |].
  intros Hne Hv Ha. destruct (exit_ok out) eqn:Hout.
  - destruct (merge_audio_video_tool_success _ _ _ _ _ _ _ Htool Hout) as (w' & E & F).
    assert (Ha' : is_Some (delete video_path f1 !! audio_path))
      by now rewrite lookup_delete_ne.
    rewrite bool_decide_eq_true_2 in E by auto.
    rewrite !bool_decide_eq_true_2 in F by auto.
    now exists w'.
  - now apply (merge_audio_video_tool_failure _ _ _ _ _ out).
Qed.

Lemma merge_audio_video_outcome_witness :
  (exists w',
      merge_audio_video (sample_env sample_video (tool_writes 0 42))
        "/tmp/video_Clip.mp4" "/tmp/audio_Clip.m4a" "/dl/Clip.mp4"
        {| fs := {[ "/tmp/video_Clip.mp4" := 500; "/tmp/audio_Clip.m4a" := 100 ]};
           ops := []; events := [] |}
      = (Ok true, w')
      /\ fs w' = {[ "/dl/Clip.mp4" := 42 ]})
  /\ (exists w',
         merge_audio_video (sample_env sample_video (tool_exits 1))
           "/tmp/video_Clip.mp4" "/tmp/audio_Clip.m4a" "/dl/Clip.mp4"
           {| fs := {[ "/tmp/video_Clip.mp4" := 500; "/tmp/audio_Clip.m4a" := 100 ]};
              ops := []; events := [] |}
         = (Ok false, w')
         /\ fs w' = {[ "/tmp/video_Clip.mp4" := 500; "/tmp/audio_Clip.m4a" := 100 ]}).
Proof.
  split.
  - destruct (proj2 (merge_audio_video_outcome
                       (sample_env sample_video (tool_writes 0 42))
                       "/tmp/video_Clip.mp4" "/tmp/audio_Clip.m4a" "/dl/Clip.mp4"
                       {| fs := {[ "/tmp/video_Clip.mp4" := 500;
                                   "/tmp/audio_Clip.m4a" := 100 ]};
                          ops := []; events := [] |} _ _ eq_refl))
      as (w' & E & F); [discriminate | vm_compute; eauto | vm_compute; eauto |].
    exists w'. split; [exact E |]. rewrite F. now vm_compute.
  - destruct (proj1 (merge_audio_video_outcome
                       (sample_env sample_video (tool_exits 1))
                       "/tmp/video_Clip.mp4" "/tmp/audio_Clip.m4a" "/dl/Clip.mp4"
                       {| fs := {[ "/tmp/video_Clip.mp4" := 500;
                                   "/tmp/audio_Clip.m4a" := 100 ]};
                          ops := []; events := [] |} _ _ eq_refl))
      as (w' & E & F); [reflexivity |].
    exists w'. split; [exact E | exact F].
Defined.

(** The specification's statement fails when the two paths are one: the tool exits
    with zero, the first removal deletes the file, the second raises, and
    the merge reports failure with the file gone. *)
Lemma merge_audio_video_same_path :
  let env := sample_env sample_video (tool_writes 0 42) in
  let w := one_file "/tmp/Clip.mp4" 500 in
  exit_ok (ffmpeg env (merge_argv "/tmp/Clip.mp4" "/tmp/Clip.mp4" "/dl/Clip.mp4") (fs w)).1
  = true
  /\ (merge_audio_video env "/tmp/Clip.mp4" "/tmp/Clip.mp4" "/dl/Clip.mp4" w).1
     = Ok false
  /\ fs (merge_audio_video env "/tmp/Clip.mp4" "/tmp/Clip.mp4" "/dl/Clip.mp4" w).2
     !! "/tmp/Clip.mp4" = None.
Proof. vm_compute. repeat split. Qed.

(** ** Audio-only conversion *)

(** The browser front end: a run of the tool that exits with zero and leaves
    no output, or an empty one, is reported as a failure, and the pipeline
    removes nothing: the files are as the tool left them. *)
Lemma convert_web_rejects_empty_output (env : Env) (yt : Video)
    (audio_file_path : string) (w : World) (err : string) (f1 : gmap string Z) :
  let mp3_path := (PosixPath.splitext audio_file_path).1 ++ ".mp3" in
  ffmpeg env (convert_argv_web audio_file_path mp3_path) (fs w) = (Exited 0 err, f1) ->
  f1 !! mp3_path = None \/ f1 !! mp3_path = Some 0 ->
  exists w',
    convert_web env yt audio_file_path w
    = (Ok (Failure "MP3 conversion produced empty file"), w')
    /\ fs w' = f1.
Proof.
  intros mp3_path Htool Hout.
  unfold convert_web, try_except, mbind, M_bind, bind, subprocess_run,
    emit_progress, get_fs, path_exists, getsize.
  simpl. fold mp3_path. rewrite Htool. simpl.
  destruct Hout as [-> | ->]; simpl; eexists; split; reflexivity.
Qed.

(** C4, at the failing input.  The tool exits with zero and writes an
    empty [.mp3].  The terminal front end deletes the downloaded audio file
    and announces the empty file as saved; the browser front end, on the same
    input, reports a failure and keeps the downloaded file. *)
Theorem download_video_accepts_empty_output :
  let env := sample_env audio_video (tool_writes 0 0) in
  let cli := (download_video env watch_address 720 true empty_world).2 in
  let web := download_video_web env watch_address 720 true empty_world in
  ops cli = [OpDownload audio_mp4 "/dl/Clip.mp4";
             OpRun (convert_argv_cli "/dl/Clip.mp4" "/dl/Clip.mp3");
             OpRemove "/dl/Clip.mp4"]
  /\ fs cli !! "/dl/Clip.mp4" = None
  /\ fs cli !! "/dl/Clip.mp3" = Some 0
  /\ message <$> last (events cli) = Some "Audio saved as: /dl/Clip.mp3"
  /\ web.1 = Failure "MP3 conversion produced empty file"
  /\ fs web.2 !! "/dl/Clip.mp4" = Some 100
  /\ fs web.2 !! "/dl/Clip.mp3" = Some 0.
Proof. vm_compute. repeat split. Qed.

(** A tool that fails outright fares no better on the terminal: the
    downloaded file is deleted although nothing was converted. *)
Lemma download_video_deletes_input_on_tool_failure :
  let env := sample_env audio_video (tool_exits 1) in
  let cli := (download_video env watch_address 720 true empty_world).2 in
  fs cli = ∅
  /\ message <$> last (events cli) = Some "Audio saved as: /dl/Clip.mp3".
Proof. vm_compute. repeat split. Qed.

(** ** Progress callback *)

Example percent_exact : PyFloat.int_scaled_ratio 50 100 100 = Ok 50.
Proof. vm_compute. reflexivity. Qed.

(** The product is rounded before it is truncated. *)
Example percent_rounded_down : PyFloat.int_scaled_ratio 29 100 100 = Ok 28.
Proof. vm_compute. reflexivity. Qed.

(** The quotient of two integers is rounded once, whatever their size. *)
Example percent_large_sizes :
  PyFloat.int_scaled_ratio (2 ^ 53) (2 ^ 53 + 1) 100 = Ok 99
  /\ PyFloat.int_scaled_ratio (2 ^ 63) (2 ^ 63) 100 = Ok 100.
Proof. vm_compute. split; reflexivity. Qed.

Example quotient_out_of_range :
  PyFloat.int_scaled_ratio (2 ^ 1024) 1 100
  = Raise (OverflowError "integer division result too large for a float").
Proof. vm_compute. reflexivity. Qed.

Lemma pow2_nonpos (e : Z) : e <= 0 -> PyFloat.pow2 e = 1.
Proof. intros H. unfold PyFloat.pow2. now rewrite Z.max_l by lia. Qed.

Lemma pow2_nonneg (e : Z) : 0 <= e -> PyFloat.pow2 e = 2 ^ e.
Proof. intros H. unfold PyFloat.pow2. now rewrite Z.max_r by lia. Qed.

Lemma nearest_even_nonneg (n d : Z) :
  0 <= n -> 0 < d -> 0 <= PyFloat.nearest_even n d.
Proof.
  intros Hn Hd. unfold PyFloat.nearest_even.
  pose proof (Z.div_pos n d Hn Hd).
  repeat case_match; lia.
Qed.

(** Rounding to the nearest integer never passes an integer bound of the
    ratio. *)
Lemma nearest_even_le (n d c : Z) :
  0 <= n -> 0 < d -> n <= c * d -> PyFloat.nearest_even n d <= c.
Proof.
  intros Hn Hd Hc. unfold PyFloat.nearest_even.
  pose proof (Z.div_mod n d ltac:(lia)) as E.
  pose proof (Z.mod_pos_bound n d Hd) as [Hr0 Hr1].
  assert (Hq : n / d <= c) by (apply Z.div_le_upper_bound; lia).
  destruct (Z.ltb_spec (2 * (n mod d)) d) as [H1 | H1]; [exact Hq |].
  assert (n / d < c) by nia.
  repeat case_match; lia.
Qed.

Lemma floor_log2_le (n d : Z) : PyFloat.floor_log2 n d <= Z.log2 n - Z.log2 d.
Proof. unfold PyFloat.floor_log2. case_match; lia. Qed.

(** [floor_log2 n d] is the binary exponent of [n / d]:
    [2^fl <= n / d < 2^(fl + 1)], written without fractions. *)
Lemma floor_log2_spec (n d : Z) :
  0 < n -> 0 < d ->
  d * PyFloat.pow2 (PyFloat.floor_log2 n d)
  <= n * PyFloat.pow2 (- PyFloat.floor_log2 n d)
  < 2 * (d * PyFloat.pow2 (PyFloat.floor_log2 n d)).
Proof.
  intros Hn Hd. unfold PyFloat.floor_log2.
  pose proof (Z.log2_spec n Hn) as Ln. pose proof (Z.log2_spec d Hd) as Ld.
  pose proof (Z.log2_nonneg n). pose proof (Z.log2_nonneg d).
  rewrite !Z.pow_succ_r in Ln, Ld by lia.
  set (ln := Z.log2 n) in *. set (ld := Z.log2 d) in *.
  destruct (Z.le_ge_cases 0 (ln - ld)) as [Hk | Hk].
  - assert (Ek : 2 ^ ln = 2 ^ ld * 2 ^ (ln - ld)).
    { rewrite <- Z.pow_add_r by lia. f_equal. lia. }
    assert (0 < 2 ^ (ln - ld)) by (apply Z.pow_pos_nonneg; lia).
    assert (0 < 2 ^ ld) by (apply Z.pow_pos_nonneg; lia).
    rewrite (pow2_nonneg (ln - ld)), (pow2_nonpos (- (ln - ld))) by lia.
    destruct (Z.leb_spec (d * 2 ^ (ln - ld)) (n * 1)) as [T | T].
    + rewrite (pow2_nonneg (ln - ld)), (pow2_nonpos (- (ln - ld))) by lia. nia.
    + destruct (Z.eq_dec (ln - ld) 0) as [E0 | E0].
      * rewrite E0 in *. change (PyFloat.pow2 (0 - 1)) with 1.
        change (PyFloat.pow2 (- (0 - 1))) with 2. change (2 ^ 0) with 1 in *. nia.
      * rewrite (pow2_nonneg (ln - ld - 1)), (pow2_nonpos (- (ln - ld - 1))) by lia.
        assert (E1 : 2 ^ (ln - ld) = 2 * 2 ^ (ln - ld - 1)).
        { rewrite <- Z.pow_succ_r by lia. f_equal. lia. }
        assert (0 < 2 ^ (ln - ld - 1)) by (apply Z.pow_pos_nonneg; lia).
        nia.
  - assert (Ek : 2 ^ ld = 2 ^ ln * 2 ^ (- (ln - ld))).
    { rewrite <- Z.pow_add_r by lia. f_equal. lia. }
    assert (0 < 2 ^ (- (ln - ld))) by (apply Z.pow_pos_nonneg; lia).
    assert (0 < 2 ^ ln) by (apply Z.pow_pos_nonneg; lia).
    rewrite (pow2_nonpos (ln - ld)), (pow2_nonneg (- (ln - ld))) by lia.
    destruct (Z.leb_spec (d * 1) (n * 2 ^ (- (ln - ld)))) as [T | T].
    + rewrite (pow2_nonpos (ln - ld)), (pow2_nonneg (- (ln - ld))) by lia. nia.
    + rewrite (pow2_nonpos (ln - ld - 1)), (pow2_nonneg (- (ln - ld - 1))) by lia.
      assert (E1 : 2 ^ (- (ln - ld - 1)) = 2 * 2 ^ (- (ln - ld))).
      { rewrite <- Z.pow_succ_r by lia. f_equal. lia. }
      nia.
Qed.

(** [nearest_even n d] is an integer nearest to [n / d], and the even one of
    the two when [n / d] lies halfway. *)
Lemma nearest_even_nearest (n d : Z) :
  0 < d ->
  Z.abs (2 * (n - PyFloat.nearest_even n d * d)) <= d
  /\ (2 * (n mod d) = d -> Z.even (PyFloat.nearest_even n d) = true).
Proof.
  intros Hd. unfold PyFloat.nearest_even.
  pose proof (Z.div_mod n d ltac:(lia)) as E.
  pose proof (Z.mod_pos_bound n d Hd) as [Hr0 Hr1].
  destruct (Z.ltb_spec (2 * (n mod d)) d) as [H1 | H1]; [split; [nia | lia] |].
  destruct (Z.ltb_spec d (2 * (n mod d))) as [H2 | H2]; [split; [nia | lia] |].
  destruct (Z.even (n / d)) eqn:Ev.
  - split; [nia | auto].
  - split; [nia |]. intros _.
    rewrite Z.even_add, Ev. reflexivity.
Qed.

(** A ratio of at most [c], for an integer [c] up to [2^52], is rounded to
    a value [m * 2^e] of at most [c], on a grid that holds the integers. *)
Lemma round_pos_le (n d c : Z) :
  0 <= n -> 0 < d -> 0 <= c <= 2 ^ 52 -> n <= c * d ->
  (PyFloat.round_pos n d).2 <= 0
  /\ 0 <= (PyFloat.round_pos n d).1 <= c * 2 ^ (- (PyFloat.round_pos n d).2).
Proof.
  intros Hn Hd Hc Hle. unfold PyFloat.round_pos. cbn [fst snd].
  assert (He : PyFloat.ulp_exp n d <= 0).
  { unfold PyFloat.ulp_exp. pose proof (floor_log2_le n d).
    assert (Z.log2 n <= 52 + Z.log2 d); [| lia].
    transitivity (Z.log2 (d * 2 ^ 52)).
    - apply Z.log2_le_mono. nia.
    - rewrite Z.log2_mul_pow2 by lia. lia. }
  set (e := PyFloat.ulp_exp n d) in *.
  rewrite (pow2_nonpos e He), (pow2_nonneg (- e)) by lia.
  rewrite Z.mul_1_r.
  assert (0 < 2 ^ (- e)) by (apply Z.pow_pos_nonneg; lia).
  split; [exact He |]. split.
  - apply nearest_even_nonneg; nia.
  - apply nearest_even_le; nia.
Qed.

(** [int((a / b) * k)] for a part [a] of a positive whole [b], and a scale
    [k] that binary64 holds exactly: nothing is raised, and the integer lies
    between 0 and [k]; it is 0 for an empty part ([c = 0]). *)
Lemma int_scaled_ratio_bounds (a b k c : Z) (y : PyFloat.float) :
  0 <= a -> a <= c * b -> 0 <= c <= 1 -> 0 < b -> 0 <= k <= 2 ^ 52 ->
  PyFloat.of_Z k = Ok y -> y.2 <= 0 -> y.1 = k * 2 ^ (- y.2) ->
  exists p, PyFloat.int_scaled_ratio a b k = Ok p /\ 0 <= p <= c * k.
Proof.
  intros Ha Hac Hc Hb Hk Hy Hye Hym.
  unfold PyFloat.int_scaled_ratio, PyFloat.truediv.
  rewrite (proj2 (Z.eqb_neq b 0)) by lia. rewrite Hy.
  unfold PyFloat.round_ratio at 1.
  rewrite (Z.abs_eq a), (Z.abs_eq b) by lia.
  assert (B52 : 1 <= 2 ^ 52) by (apply Z.leb_le; vm_compute; reflexivity).
  destruct (round_pos_le a b c) as (He1 & Hm0 & Hm1); [lia | lia | lia | lia |].
  destruct (PyFloat.round_pos a b) as [m1 e1]. cbn [fst snd] in He1, Hm0, Hm1.
  assert (P1 : 0 < 2 ^ (- e1)) by (apply Z.pow_pos_nonneg; lia).
  rewrite (pow2_nonpos e1 He1), (pow2_nonneg (- e1)) by lia.
  destruct (Z.leb_spec (2 ^ 1024 * 2 ^ (- e1)) (m1 * 1)) as [Hov | _].
  { assert (1 < 2 ^ 1024) by (apply Z.pow_gt_1; lia). nia. }
  destruct y as [m2 e2]. cbn [fst snd] in Hye, Hym.
  assert (P2 : 0 < 2 ^ (- e2)) by (apply Z.pow_pos_nonneg; lia).
  unfold PyFloat.mul.
  rewrite (Z.sgn_pos b) by lia.
  assert (Hm1' : 0 <= Z.sgn a * 1 * m1 <= c * 2 ^ (- e1)).
  { destruct (Z.eq_dec a 0) as [-> | Hne]; [simpl; nia |].
    rewrite Z.sgn_pos by lia. lia. }
  set (m1' := Z.sgn a * 1 * m1) in *.
  rewrite (pow2_nonpos (e1 + e2)), (pow2_nonneg (- (e1 + e2))) by lia.
  rewrite Z.mul_1_r.
  assert (Hsplit : 2 ^ (- (e1 + e2)) = 2 ^ (- e1) * 2 ^ (- e2)).
  { rewrite <- Z.pow_add_r by lia. f_equal. lia. }
  assert (P3 : 0 < 2 ^ (- (e1 + e2))) by (apply Z.pow_pos_nonneg; lia).
  unfold PyFloat.round_ratio.
  assert (Hn : 0 <= m1' * m2) by nia.
  rewrite (Z.abs_eq (m1' * m2)), (Z.abs_eq (2 ^ (- (e1 + e2)))) by lia.
  destruct (round_pos_le (m1' * m2) (2 ^ (- (e1 + e2))) (c * k))
    as (He3 & Hp0 & Hp1); [lia | lia | nia | rewrite Hsplit, Hym; nia |].
  destruct (PyFloat.round_pos (m1' * m2) (2 ^ (- (e1 + e2)))) as [m3 e3].
  cbn [fst snd] in He3, Hp0, Hp1.
  assert (P4 : 0 < 2 ^ (- e3)) by (apply Z.pow_pos_nonneg; lia).
  rewrite (pow2_nonpos e3 He3), (pow2_nonneg (- e3)) by lia.
  destruct (Z.leb_spec (2 ^ 1024 * 2 ^ (- e3)) (m3 * 1)) as [Hov | _].
  { assert (2 ^ 52 < 2 ^ 1024) by (apply Z.pow_lt_mono_r; lia).
    assert (c * k * 2 ^ (- e3) <= 2 ^ 52 * 2 ^ (- e3))
      by (apply Z.mul_le_mono_nonneg_r; nia).
    assert (2 ^ 52 * 2 ^ (- e3) < 2 ^ 1024 * 2 ^ (- e3))
      by (apply Z.mul_lt_mono_pos_r; lia).
    lia. }
  eexists. split; [reflexivity |].
  unfold PyFloat.trunc.
  rewrite (pow2_nonpos e3 He3), (pow2_nonneg (- e3)) by lia.
  rewrite (Z.sgn_pos (2 ^ (- (e1 + e2)))) by lia.
  assert (Hm3 : 0 <= Z.sgn (m1' * m2) * 1 * m3 <= c * k * 2 ^ (- e3)).
  { destruct (Z.eq_dec (m1' * m2) 0) as [-> | Hne]; [simpl; nia |].
    rewrite Z.sgn_pos by lia. lia. }
  set (m3' := Z.sgn (m1' * m2) * 1 * m3) in *.
  rewrite Z.mul_1_r, Z.quot_div_nonneg by lia.
  split.
  - apply Z.div_pos; lia.
  - apply Z.div_le_upper_bound; nia.
Qed.

(** The same computation on a part and a whole of opposite signs to those
    above gives the same result: only the sign of the quotient matters. *)
Lemma int_scaled_ratio_opp (a b k : Z) :
  PyFloat.int_scaled_ratio (- a) (- b) k = PyFloat.int_scaled_ratio a b k.
Proof.
  unfold PyFloat.int_scaled_ratio, PyFloat.truediv, PyFloat.round_ratio.
  rewrite !Z.abs_opp, !Z.sgn_opp.
  replace (- Z.sgn a * - Z.sgn b) with (Z.sgn a * Z.sgn b) by lia.
  destruct (Z.eqb_spec b 0) as [-> | Hb]; [reflexivity |].
  now rewrite (proj2 (Z.eqb_neq (- b) 0)) by lia.
Qed.

(** The scale 100 of the callback. *)
Lemma percent_bounds (a b c : Z) :
  0 <= a -> a <= c * b -> 0 <= c <= 1 -> 0 < b ->
  exists p, PyFloat.int_scaled_ratio a b 100 = Ok p /\ 0 <= p <= c * 100.
Proof.
  intros Ha Hac Hc Hb.
  apply (int_scaled_ratio_bounds a b 100 c (7036874417766400, -46));
    [exact Ha | exact Hac | exact Hc | exact Hb | | | |].
  - split; [lia |]. apply Z.leb_le. vm_compute. reflexivity.
  - vm_compute. reflexivity.
  - simpl. lia.
  - vm_compute. reflexivity.
Qed.

(** A whole is reported as exactly 100. *)
Lemma percent_of_whole (b : Z) : 0 < b -> PyFloat.int_scaled_ratio b b 100 = Ok 100.
Proof.
  intros Hb.
  unfold PyFloat.int_scaled_ratio, PyFloat.truediv.
  rewrite (proj2 (Z.eqb_neq b 0)) by lia.
  assert (E : PyFloat.round_ratio b b = Some (4503599627370496, -52)).
  { unfold PyFloat.round_ratio, PyFloat.round_pos, PyFloat.ulp_exp,
      PyFloat.floor_log2.
    rewrite Z.abs_eq, Z.sub_diag by lia.
    change (PyFloat.pow2 0) with 1. change (PyFloat.pow2 (- 0)) with 1.
    rewrite Z.leb_refl.
    change (Z.max (0 - 52) (-1074)) with (-52).
    change (PyFloat.pow2 (-52)) with 1.
    change (PyFloat.pow2 (- -52)) with 4503599627370496.
    assert (N : PyFloat.nearest_even (b * 4503599627370496) (b * 1)
                = 4503599627370496).
    { unfold PyFloat.nearest_even.
      rewrite Z.mul_1_r, (Z.mul_comm b), Z.div_mul, Z.mod_mul by lia.
      rewrite (proj2 (Z.ltb_lt (2 * 0) b)) by lia. reflexivity. }
    rewrite N, Z.sgn_pos by lia. reflexivity. }
  rewrite E. vm_compute. reflexivity.
Qed.

(** A transfer whose first chunk is reported on a stream of size zero ends
    there, with the exception of the callback. *)
Lemma download_zero_total (env : Env) (s : Stream) (output_path filename_prefix : string)
    (r : Z) (rest : list Z) (w : World) :
  filesize s = 0 -> (transfer env s).1 = r :: rest ->
  (download env progress_callback s output_path filename_prefix w).1
  = Raise ZeroDivisionError
  /\ events (download env progress_callback s output_path filename_prefix w).2
     = events w.
Proof.
  intros Hsize Hchunks.
  unfold download, mbind, M_bind, bind, log_op, write_file. rewrite Hchunks. simpl.
  unfold mbind, M_bind, bind, progress_callback, lift, PyFloat.int_scaled_ratio,
    PyFloat.truediv.
  rewrite Hsize. simpl. split; reflexivity.
Qed.

(** C5, as the code has it.  For a chunk of a stream of known, positive
    size, with a count of remaining bytes between none and all, the callback
    computes an integer percentage between 0 and 100, which is 100 when nothing
    remains and 0 when everything does, and emits it as one progress event.
    With a zero total there is no guard: the division is evaluated and raises,
    nothing is emitted, and the transfer of the stream ends at that chunk. *)
Theorem progress_callback_outcome (stream : Stream) (bytes_remaining : Z) (w : World) :
  (0 < filesize stream -> 0 <= bytes_remaining <= filesize stream ->
   exists percent,
     0 <= percent <= 100
     /\ (bytes_remaining = 0 -> percent = 100)
     /\ (bytes_remaining = filesize stream -> percent = 0)
     /\ progress_callback stream bytes_remaining w
        = (Ok tt,
           add_event {| message := "Downloading... " ++ pretty percent ++ "%";
                        progress := Some percent; video_info := None |} w))
  /\ (filesize stream = 0 ->
      progress_callback stream bytes_remaining w = (Raise ZeroDivisionError, w)
      /\ forall env output_path filename_prefix rest,
           (transfer env stream).1 = bytes_remaining :: rest ->
           (download env progress_callback stream output_path filename_prefix w).1
           = Raise ZeroDivisionError
           /\ events (download env progress_callback stream output_path
                        filename_prefix w).2 = events w).
Proof.
  split.
  - intros Hsize Hrange.
    destruct (percent_bounds (filesize stream - bytes_remaining) (filesize stream) 1)
      as (percent & E & Hp); [lia | lia | lia | exact Hsize |].
    exists percent. split; [lia |]. split; [| split].
    + intros ->. rewrite Z.sub_0_r, percent_of_whole in E by exact Hsize. congruence.
    + intros ->.
      destruct (percent_bounds (filesize stream - filesize stream) (filesize stream) 0)
        as (p0 & E0 & Hp0); [lia | lia | lia | exact Hsize |].
      rewrite E in E0. injection E0 as ->. lia.
    + unfold progress_callback, mbind, M_bind, bind, lift. now rewrite E.
  - intros Hsize. split.
    + unfold progress_callback, PyFloat.int_scaled_ratio, PyFloat.truediv,
        mbind, M_bind, bind, lift.
      rewrite Hsize. reflexivity.
    + intros env output_path filename_prefix rest Hchunks.
      now apply (download_zero_total env stream output_path filename_prefix
                   bytes_remaining rest w).
Qed.

Lemma progress_callback_outcome_witness :
  progress_callback v720 250 empty_world
  = (Ok tt, add_event {| message := "Downloading... 50%"; progress := Some 50;
                         video_info := None |} empty_world)
  /\ progress_callback sizeless 0 empty_world = (Raise ZeroDivisionError, empty_world).
Proof.
  split.
  - destruct (proj1 (progress_callback_outcome v720 250 empty_world))
      as (percent & _ & _ & _ & E); [reflexivity | simpl; lia |].
    assert (Hp : Some 50 = Some percent).
    { apply (f_equal (fun r => last (events r.2) ≫= progress)) in E.
      vm_compute in E. exact E. }
    injection Hp as <-. exact E.
  - apply (proj2 (progress_callback_outcome sizeless 0 empty_world)). reflexivity.
Defined.

(** The specification's statement fails on a stream of unknown size: the callback
    raises instead of skipping the report, and the exception ends the
    acquisition; the run is reported as failed and the file stays empty. *)
Lemma progress_callback_zero_total :
  let env := sample_env live_video (tool_writes 0 42) in
  let web := download_video_web env watch_address 360 false empty_world in
  progress_callback sizeless 0 empty_world = (Raise ZeroDivisionError, empty_world)
  /\ web.1 = Failure "division by zero"
  /\ fs web.2 !! "/dl/Live.mp4" = Some 0.
Proof. vm_compute. repeat split. Qed.

(** ** Collection runs *)

(** Every exception of the single-item body becomes a failure result. *)
Lemma download_video_web_captures (env : Env) (url : string) (q : Z)
    (audio_only : bool) (w w1 : World) (e : exn) :
  download_video_web_body env url q audio_only w = (Raise e, w1) ->
  (download_video_web env url q audio_only w).1 = Failure (str_exn e).
Proof. intros H. unfold download_video_web, run_guarded. now rewrite H. Qed.

Lemma download_video_web_catalog_error (env : Env) (url : string) (q : Z)
    (audio_only : bool) (w : World) (e : exn) :
  youtube env url = Raise e ->
  (download_video_web env url q audio_only w).1 = Failure (str_exn e).
Proof.
  intros H. eapply download_video_web_captures.
  unfold download_video_web_body, mbind, M_bind, bind, lift, emit_progress.
  rewrite H. reflexivity.
Qed.

Lemma download_video_web_no_streams (env : Env) (url : string) (q : Z)
    (audio_only : bool) (w : World) (yt : Video) :
  youtube env url = Ok yt -> streams yt = [] ->
  exists msg, (download_video_web env url q audio_only w).1 = Failure msg.
Proof.
  intros Hyt Hs.
  unfold download_video_web, run_guarded, download_video_web_body,
    mbind, M_bind, bind, lift, emit_progress.
  rewrite Hyt. destruct audio_only.
  - unfold audio_only_web, best_audio_only, mbind, M_bind, bind, emit_progress.
    rewrite Hs. simpl. eauto.
  - unfold video_web, video_streams, audio_streams, progressive_fallback,
      mbind, M_bind, bind, lift, emit_progress.
    rewrite Hs. simpl. eauto.
Qed.

Lemma item_result_intro (env : Env) (q : Z) (audio_only : bool)
    (video : PlaylistItem) (w0 : World) :
  item_result env q audio_only video
    (download_video_web env (watch_url video) q audio_only w0).1.
Proof.
  split; [now exists w0 |]. split.
  - intros e He. now apply download_video_web_catalog_error.
  - intros yt Hyt Hs. now apply (download_video_web_no_streams _ _ _ _ _ yt).
Qed.

(** The percentage of the loop, for a member within the count. *)
Lemma playlist_percent_ok (idx total : Z) :
  0 <= idx <= total -> 0 < total ->
  exists pct, PyFloat.int_scaled_ratio idx total 90 = Ok pct.
Proof.
  intros Hidx Htotal.
  destruct (int_scaled_ratio_bounds idx total 90 1 (6333186975989760, -46))
    as (pct & E & _); [lia | lia | lia | exact Htotal | | | | |].
  - split; [lia |]. apply Z.leb_le. vm_compute. reflexivity.
  - vm_compute. reflexivity.
  - simpl. lia.
  - vm_compute. reflexivity.
  - now exists pct.
Qed.

(** The loop visits every member, in order, whatever the single-item runs
    return. *)
Lemma playlist_loop_collects (env : Env) (q : Z) (audio_only : bool) (total : Z) :
  forall (items : list PlaylistItem) (idx : Z) (acc : list DownloadResult) (w : World),
    0 < idx -> idx + Z.of_nat (List.length items) <= total + 1 ->
    Forall (fun video => exists t, item_title video = Ok t) items ->
    exists rs w',
      playlist_loop env q audio_only total idx items acc w = (Ok (acc ++ rs)%list, w')
      /\ Forall2 (item_result env q audio_only) items rs.
Proof.
  induction items as [|video rest IH]; intros idx acc w Hidx Hlen Htitles.
  - exists [], w. rewrite app_nil_r. split; [reflexivity | constructor].
  - apply Forall_cons in Htitles as [[t Ht] Hrest].
    rewrite length_cons, Nat2Z.inj_succ in Hlen.
    destruct (playlist_percent_ok idx total) as [pct Hpct]; [lia | lia |].
    simpl. unfold mbind, M_bind, bind, lift, emit_progress.
    rewrite Ht, Hpct.
    match goal with
    | |- context [download_video_web env (watch_url video) q audio_only ?w0] =>
        pose proof (item_result_intro env q audio_only video w0) as Hitem;
        destruct (download_video_web env (watch_url video) q audio_only w0)
          as [r w1]
    end.
    destruct (IH (idx + 1) (acc ++ [r])%list w1 ltac:(lia) ltac:(lia) Hrest)
      as (rs & w' & E & Hrs).
    exists (r :: rs), w'. split; [| now constructor].
    unfold mbind, M_bind, bind in E. rewrite E.
    now rewrite <- app_assoc.
Qed.

(** C3, as the code has it.  For a playlist whose members' titles the
    catalog resolves, the collection run succeeds with one result per
    member, in catalog order; each is the value the single-item pipeline
    returned for that member, a failure when the catalog raises for it or
    lists no stream for it, and every later member is still processed. *)
Theorem playlist_collects_every_item (env : Env) (url : string) (q : Z)
    (audio_only : bool) (w : World) (pl : PlaylistInfo) :
  playlist env url = Ok pl ->
  titles_resolve pl ->
  exists results w',
    download_playlist_web env url q audio_only w = (PlaylistSuccess results, w')
    /\ List.length results = List.length (videos pl)
    /\ Forall2 (item_result env q audio_only) (videos pl) results.
Proof.
  intros Hpl Htitles.
  unfold download_playlist_web, run_guarded, download_playlist_web_body,
    mbind, M_bind, bind, lift, emit_progress.
  rewrite Hpl.
  destruct (videos pl) as [|video rest] eqn:Hv.
  - exists [], (add_event
                  {| message := "Playlist download complete!";
                     progress := Some 100; video_info := None |}
                  (add_event
                     {| message := "Playlist: " ++ pl_title pl ++ " ("
                                   ++ pretty (Z.of_nat (List.length (@nil PlaylistItem)))
                                   ++ " videos)";
                        progress := Some 5; video_info := None |}
                     (add_event
                        {| message := "Fetching playlist information...";
                           progress := Some 0; video_info := None |} w))).
    repeat split. constructor.
  - unfold titles_resolve in Htitles. rewrite Hv in Htitles.
    match goal with
    | |- context [playlist_loop env q audio_only ?total 1 ?items [] ?w0] =>
        destruct (playlist_loop_collects env q audio_only total
                    items 1 [] w0 ltac:(lia) ltac:(simpl; lia) Htitles)
          as (rs & w' & E & Hrs)
    end.
    unfold mbind, M_bind, bind in E. rewrite E. simpl.
    eexists rs, _. split; [reflexivity |]. split; [| exact Hrs].
    symmetry. exact (Forall2_length _ _ _ Hrs).
Qed.

Lemma playlist_collects_every_item_witness :
  exists results w',
    download_playlist_web (playlist_env three_items) playlist_address 720 false
      empty_world = (PlaylistSuccess results, w')
    /\ is_success <$> results = [true; false; true].
Proof.
  destruct (playlist_collects_every_item (playlist_env three_items)
              playlist_address 720 false empty_world
              {| pl_title := "Mix"; videos := three_items |} eq_refl)
    as (results & w' & E & _ & _).
  { repeat constructor; eexists; reflexivity. }
  exists results, w'. split; [exact E |].
  vm_compute in E. now injection E as <- _.
Defined.

(** The specification's statement fails when the catalog cannot resolve the title of
    a member: the title is read in the loop, outside the single-item
    pipeline, so the exception ends the loop.  The first member has been
    processed, the third never is, and no per-item result is returned. *)
Lemma playlist_aborts_on_unresolved_title :
  let run := download_playlist_web (playlist_env three_items_private)
               playlist_address 720 false empty_world in
  run.1 = PlaylistFailure "Video unavailable"
  /\ List.length (List.filter (fun o => match o with OpDownload _ _ => true | _ => false end)
                    (ops run.2)) = 2%nat
  /\ List.length three_items_private = 3%nat.
Proof. vm_compute. repeat split. Qed.

(** ** The two front ends, side by side *)

Section Simulation.

Lemma phys_eq_refl (w : World) : phys_eq w w.
Proof. now split. Qed.

Lemma phys_eq_add_event_l (ev : ProgressEvent) (w1 w2 : World) :
  phys_eq w1 w2 -> phys_eq (add_event ev w1) w2.
Proof. intros [Hf Ho]. now split. Qed.

Lemma phys_eq_add_event_r (ev : ProgressEvent) (w1 w2 : World) :
  phys_eq w1 w2 -> phys_eq w1 (add_event ev w2).
Proof. intros [Hf Ho]. now split. Qed.

Lemma sim_ret {A B} (R : A -> B -> Prop) (a : A) (b : B) :
  R a b -> sim R (mret a) (mret b).
Proof. intros HR w1 w2 H. now split. Qed.

Lemma sim_raise {A B} (R : A -> B -> Prop) (e1 e2 : exn) :
  sim R (raise e1) (raise e2).
Proof. intros w1 w2 H. now split. Qed.

Lemma sim_lift {A} (x : Exc A) : sim eq (lift x) (lift x).
Proof. intros w1 w2 H. split; [now destruct x | exact H]. Qed.

Lemma sim_get_fs : sim eq get_fs get_fs.
Proof. intros w1 w2 H. split; [apply H | exact H]. Qed.

Lemma sim_write_file (path : string) (size : Z) :
  sim eq (write_file path size) (write_file path size).
Proof.
  intros w1 w2 [Hf Ho]. split; [reflexivity |]. split; simpl; congruence.
Qed.

Lemma sim_log_op (o : Op) : sim eq (log_op o) (log_op o).
Proof.
  intros w1 w2 [Hf Ho]. split; [reflexivity |]. split; simpl; congruence.
Qed.

Lemma sim_remove (path : string) : sim eq (remove path) (remove path).
Proof.
  intros w1 w2 [Hf Ho]. unfold remove. rewrite Hf.
  destruct (fs w2 !! path); simpl; (split; [auto | split; simpl; congruence]).
Qed.

Lemma sim_subprocess_run (env : Env) (argv : list string) (check : bool) :
  sim eq (subprocess_run env argv check) (subprocess_run env argv check).
Proof.
  intros w1 w2 [Hf Ho]. unfold subprocess_run. rewrite Hf.
  destruct (ffmpeg env argv (fs w2)) as [[code err | e] f'];
    [destruct (check && negb (code =? 0)) |]; simpl;
    (split; [auto | split; simpl; congruence]).
Qed.

Lemma sim_bind {A1 A2 B1 B2} (R : A1 -> A2 -> Prop) (R' : B1 -> B2 -> Prop)
    (m1 : M A1) (m2 : M A2) (k1 : A1 -> M B1) (k2 : A2 -> M B2) :
  sim R m1 m2 -> (forall a b, R a b -> sim R' (k1 a) (k2 b)) ->
  sim R' (m1 ≫= k1) (m2 ≫= k2).
Proof.
  intros Hm Hk w1 w2 H. unfold mbind, M_bind, bind.
  destruct (Hm w1 w2 H) as [Hr Hw].
  destruct (m1 w1) as [[a | e1] w1'], (m2 w2) as [[b | e2] w2'];
    simpl in *; try contradiction; auto.
  now apply Hk.
Qed.

Lemma sim_emit_l {A B} (R : A -> B -> Prop) (msg : string) (pct : option Z)
    (info : option VideoInfo) (k : M A) (m2 : M B) :
  sim R k m2 -> sim R (emit_progress msg pct info;; k) m2.
Proof.
  intros Hk w1 w2 H. unfold mbind, M_bind, bind, emit_progress.
  now apply Hk, phys_eq_add_event_l.
Qed.

Lemma sim_emit_r {A B} (R : A -> B -> Prop) (msg : string) (pct : option Z)
    (info : option VideoInfo) (m1 : M A) (k : M B) :
  sim R m1 k -> sim R m1 (emit_progress msg pct info;; k).
Proof.
  intros Hk w1 w2 H. unfold mbind, M_bind, bind, emit_progress.
  now apply Hk, phys_eq_add_event_r.
Qed.

Lemma sim_try_except {A B} (R : A -> B -> Prop) (m1 : M A) (m2 : M B)
    (h1 : exn -> M A) (h2 : exn -> M B) :
  sim R m1 m2 -> (forall e1 e2, sim R (h1 e1) (h2 e2)) ->
  sim R (try_except m1 h1) (try_except m2 h2).
Proof.
  intros Hm Hh w1 w2 H. unfold try_except.
  destruct (Hm w1 w2 H) as [Hr Hw].
  destruct (m1 w1) as [[a | e1] w1'], (m2 w2) as [[b | e2] w2'];
    simpl in *; try contradiction; auto.
  now apply Hh.
Qed.

Lemma sim_for_each {A} (l : list A) (b1 b2 : A -> M unit) :
  (forall x, x ∈ l -> sim eq (b1 x) (b2 x)) ->
  sim eq (for_each l b1) (for_each l b2).
Proof.
  induction l as [|x l IH]; intros Hb; simpl; [now apply sim_ret |].
  eapply sim_bind; [apply Hb, elem_of_cons; auto |].
  intros _ _ _. apply IH. intros y Hy. apply Hb, elem_of_cons. auto.
Qed.

Lemma ends_bind {A1 A2 B1 B2} (R : A1 -> A2 -> Prop) (Q : World -> World -> Prop)
    (m1 : M A1) (m2 : M A2) (k1 : A1 -> M B1) (k2 : A2 -> M B2) :
  (forall w1 w2, phys_eq w1 w2 -> Q w1 w2) ->
  sim R m1 m2 -> (forall a b, R a b -> ends Q (k1 a) (k2 b)) ->
  ends Q (m1 ≫= k1) (m2 ≫= k2).
Proof.
  intros HQ Hm Hk w1 w2 H. unfold mbind, M_bind, bind.
  destruct (Hm w1 w2 H) as [Hr Hw].
  destruct (m1 w1) as [[a | e1] w1'], (m2 w2) as [[b | e2] w2'];
    simpl in *; try contradiction; auto.
  now apply Hk.
Qed.

Lemma ends_emit_l {A B} (Q : World -> World -> Prop) (msg : string)
    (pct : option Z) (info : option VideoInfo) (k : M A) (m2 : M B) :
  ends Q k m2 -> ends Q (emit_progress msg pct info;; k) m2.
Proof.
  intros Hk w1 w2 H. unfold mbind, M_bind, bind, emit_progress.
  now apply Hk, phys_eq_add_event_l.
Qed.

Lemma ends_emit_r {A B} (Q : World -> World -> Prop) (msg : string)
    (pct : option Z) (info : option VideoInfo) (m1 : M A) (k : M B) :
  ends Q m1 k -> ends Q m1 (emit_progress msg pct info;; k).
Proof.
  intros Hk w1 w2 H. unfold mbind, M_bind, bind, emit_progress.
  now apply Hk, phys_eq_add_event_r.
Qed.

End Simulation.

Lemma agree_add_event_l (ev : ProgressEvent) (w1 w2 : World) :
  agree_up_to_thumbnail w1 w2 -> agree_up_to_thumbnail (add_event ev w1) w2.
Proof. intros [H | H]; [left; now apply phys_eq_add_event_l | right; exact H]. Qed.

Lemma agree_add_event_r (ev : ProgressEvent) (w1 w2 : World) :
  agree_up_to_thumbnail w1 w2 -> agree_up_to_thumbnail w1 (add_event ev w2).
Proof. intros [H | H]; [left; now apply phys_eq_add_event_r | right; exact H]. Qed.

Lemma sim_callbacks (env : Env) (s : Stream) (r : Z) :
  (exists percent,
      PyFloat.int_scaled_ratio (filesize s - r) (filesize s) 100 = Ok percent) ->
  (exists line, on_progress env s r = Ok line) ->
  sim eq (progress_callback s r) (cli_progress env s r).
Proof.
  intros [percent Hpercent] [line Hline] w1 w2 H.
  unfold progress_callback, cli_progress,
    mbind, M_bind, bind, lift, print, emit_progress.
  rewrite Hpercent, Hline. simpl.
  split; [reflexivity |]. now apply phys_eq_add_event_l, phys_eq_add_event_r.
Qed.

Lemma sim_download (env : Env) (s : Stream) (output_path filename_prefix : string) :
  callbacks_succeed env ->
  sim eq (download env progress_callback s output_path filename_prefix)
         (download env (cli_progress env) s output_path filename_prefix).
Proof.
  intros Hcb. unfold download.
  eapply sim_bind; [apply sim_log_op | intros _ _ _].
  eapply sim_bind; [apply sim_write_file | intros _ _ _].
  eapply sim_bind.
  - apply sim_for_each. intros r Hr.
    eapply sim_bind; [apply sim_write_file | intros _ _ _].
    destruct (Hcb s r Hr) as [Hsize Hline]. now apply sim_callbacks.
  - intros _ _ _. destruct (transfer env s).2; [apply sim_raise | now apply sim_ret].
Qed.

Lemma sim_download_first (env : Env) (o : option Stream)
    (output_path filename_prefix : string) :
  callbacks_succeed env ->
  sim eq (download_first env progress_callback o output_path filename_prefix)
         (download_first env (cli_progress env) o output_path filename_prefix).
Proof.
  intros Hcb. destruct o as [s|]; simpl; [now apply sim_download | apply sim_raise].
Qed.

Lemma sim_merge_audio_video (env : Env) (video_path audio_path output_path : string) :
  sim eq (merge_audio_video env video_path audio_path output_path)
         (merge_audio_video env video_path audio_path output_path).
Proof.
  unfold merge_audio_video. apply sim_try_except.
  - eapply sim_bind; [apply sim_subprocess_run | intros _ _ _].
    eapply sim_bind; [apply sim_remove | intros _ _ _].
    eapply sim_bind; [apply sim_remove | intros _ _ _].
    now apply sim_ret.
  - intros e1 e2. now apply sim_ret.
Qed.

(** The thumbnail step returns, having written at most the thumbnail. *)
Lemma save_thumbnail_agree (env : Env) (url final_filename : string) (w1 w2 : World) :
  phys_eq w1 w2 ->
  (save_thumbnail env url final_filename w1).1 = Ok tt
  /\ agree_up_to_thumbnail (save_thumbnail env url final_filename w1).2 w2.
Proof.
  intros [Hf Ho].
  unfold save_thumbnail, try_except, mbind, M_bind, bind, lift, print,
    emit_progress, log_op, write_file.
  destruct (http_get env url) as [[status len] | e]; simpl.
  - destruct (status =? 200); simpl.
    + split; [reflexivity |]. right. eexists _, _. simpl.
      split; [now rewrite Hf | now rewrite Ho].
    + split; [reflexivity |]. left. now split.
  - split; [reflexivity |]. left. now split.
Qed.

(** After the thumbnail step only progress is shown. *)
Lemma ends_thumbnail_tail {A} (env : Env) (url final_filename : string)
    (msg1 msg2 : string) (pct1 pct2 : option Z) (a : A) :
  ends agree_up_to_thumbnail
    (save_thumbnail env url final_filename;; emit_progress msg1 pct1 None;; mret a)
    (emit_progress msg2 pct2 None : M unit).
Proof.
  intros w1 w2 H.
  destruct (save_thumbnail_agree env url final_filename w1 w2 H) as [Hr Hw].
  unfold mbind, M_bind, bind.
  destruct (save_thumbnail env url final_filename w1) as [[[]|e] w1'];
    simpl in *; [| discriminate].
  now apply agree_add_event_l, agree_add_event_r.
Qed.

Lemma ends_video (env : Env) (yt : Video) (q : Z) :
  callbacks_succeed env ->
  ends agree_up_to_thumbnail (video_web env yt q) (video_cli env yt q).
Proof.
  intros Hcb.
  assert (HQ : forall w1 w2, phys_eq w1 w2 -> agree_up_to_thumbnail w1 w2)
    by (intros; now left).
  unfold video_web, video_cli, print.
  apply ends_emit_r.
  eapply ends_bind; [exact HQ | apply sim_lift | intros selected ? <-].
  assert (Hfallback :
    ends agree_up_to_thumbnail
      (emit_progress "Using progressive stream fallback..." (Some 30) None;;
       file_path ← download_first env progress_callback
                     (progressive_fallback q yt) (DOWNLOADS_DIR env) "";
       save_thumbnail env (thumbnail_url yt) (PosixPath.basename file_path);;
       emit_progress "Download complete!" (Some 100) None;;
       mret (Success (PosixPath.basename file_path) TVideo))
      (emit_progress
         "No suitable adaptive stream found, trying progressive fallback..."
         None None;;
       file_path ← download_first env (cli_progress env)
                     (progressive_fallback q yt) (DOWNLOADS_DIR env) "";
       emit_progress ("Download complete: " ++ file_path) None None)).
  { apply ends_emit_l, ends_emit_r.
    eapply ends_bind; [exact HQ | now apply sim_download_first |].
    intros file_path ? <-. apply ends_thumbnail_tail. }
  destruct selected as [selected_video|], (audio_streams yt) as [|audio_stream rest];
    try exact Hfallback.
  apply ends_emit_l, ends_emit_r, ends_emit_r.
  eapply ends_bind; [exact HQ | now apply sim_download | intros video_path ? <-].
  apply ends_emit_l.
  eapply ends_bind; [exact HQ | now apply sim_download | intros audio_path ? <-].
  eapply ends_bind; [exact HQ | apply sim_get_fs | intros f ? <-].
  cbv zeta. apply ends_emit_l, ends_emit_r, ends_emit_r.
  eapply ends_bind; [exact HQ | apply sim_merge_audio_video | intros merged ? <-].
  destruct merged; [apply ends_thumbnail_tail |].
  intros w1 w2 H. left. unfold mbind, M_bind, bind, emit_progress. simpl.
  now apply phys_eq_add_event_l, phys_eq_add_event_r.
Qed.

(** C6, as the code has it.  In video mode, when no progress callback
    raises, the two front ends perform the same operations on the same
    files: the same streams fetched to the same destinations, the same
    invocation of the tool, the same removals; the browser front end may
    write one thumbnail more. *)
Theorem video_mode_same_operations (env : Env) (url : string) (q : Z) (w : World) :
  callbacks_succeed env ->
  agree_up_to_thumbnail (download_video_web env url q false w).2
                        (download_video env url q false w).2.
Proof.
  intros Hcb.
  assert (Hbody : ends agree_up_to_thumbnail
                    (download_video_web_body env url q false)
                    (download_video_body env url q false)).
  { unfold download_video_web_body, download_video_body, print.
    apply ends_emit_l.
    eapply ends_bind; [intros; now left | apply sim_lift | intros yt ? <-].
    apply ends_emit_l, ends_emit_l, ends_emit_r, ends_emit_r, ends_emit_r.
    now apply ends_video. }
  specialize (Hbody w w (phys_eq_refl w)).
  unfold download_video_web, download_video, run_guarded, error_result.
  destruct (download_video_web_body env url q false w) as [[r1 | e1] w1],
           (download_video_body env url q false w) as [[r2 | e2] w2]; simpl in *;
    auto using agree_add_event_l, agree_add_event_r.
Qed.

Lemma steady_env_callbacks (yt : Video) (tool : list string -> gmap string Z ->
                                               ToolOutcome * gmap string Z) :
  callbacks_succeed (steady_env yt tool).
Proof.
  intros s r Hr. simpl in *. destruct (filesize s =? 0) eqn:E.
  - now apply elem_of_nil in Hr.
  - apply Z.eqb_neq in E. split; [| now eexists].
    assert (Hhalf : 2 * (filesize s / 2) <= filesize s < 2 * (filesize s / 2) + 2).
    { pose proof (Z.div_mod (filesize s) 2 ltac:(lia)).
      pose proof (Z.mod_pos_bound (filesize s) 2 ltac:(lia)). lia. }
    assert (Hr' : r = filesize s / 2 \/ r = 0).
    { apply elem_of_cons in Hr as [-> | Hr]; [now left |].
      apply elem_of_cons in Hr as [-> | Hr]; [now right |].
      now apply elem_of_nil in Hr. }
    destruct (Z.lt_trichotomy (filesize s) 0) as [Hneg | [H0 | Hpos]];
      [| contradiction |].
    + rewrite <- int_scaled_ratio_opp.
      destruct (percent_bounds (- (filesize s - r)) (- filesize s) 1)
        as (p & Hp & _); [lia | lia | lia | lia |]. now exists p.
    + destruct (percent_bounds (filesize s - r) (filesize s) 1)
        as (p & Hp & _); [lia | lia | lia | lia |]. now exists p.
Qed.

(** Transfers that report byte counts within the size of a stream of
    positive size meet the condition on the browser callback. *)
Lemma callbacks_succeed_in_range (env : Env) :
  (forall s r, r ∈ (transfer env s).1 ->
     0 < filesize s /\ 0 <= r <= filesize s
     /\ exists line, on_progress env s r = Ok line) ->
  callbacks_succeed env.
Proof.
  intros H s r Hr. destruct (H s r Hr) as (Hsize & Hrange & Hline).
  split; [| exact Hline].
  destruct (percent_bounds (filesize s - r) (filesize s) 1)
    as (p & Hp & _); [lia | lia | lia | lia |]. now exists p.
Qed.

Lemma video_mode_same_operations_witness :
  agree_up_to_thumbnail
    (download_video_web (steady_env sample_video (tool_writes 0 42))
       watch_address 720 false empty_world).2
    (download_video (steady_env sample_video (tool_writes 0 42))
       watch_address 720 false empty_world).2.
Proof.
  apply (video_mode_same_operations (steady_env sample_video (tool_writes 0 42))
           watch_address 720 empty_world).
  apply steady_env_callbacks.
Defined.

(** The specification's statement fails.  In an audio-only run whose conversion
    fails, the browser front end keeps the downloaded file and the terminal
    front end deletes it; the two invoke the tool with different arguments;
    and in video mode only the browser front end writes a thumbnail. *)
Lemma front_ends_differ :
  let env := sample_env audio_video (tool_exits 1) in
  let web := (download_video_web env watch_address 720 true empty_world).2 in
  let cli := (download_video env watch_address 720 true empty_world).2 in
  let env' := sample_env sample_video (tool_writes 0 42) in
  let web' := (download_video_web env' watch_address 720 false empty_world).2 in
  let cli' := (download_video env' watch_address 720 false empty_world).2 in
  fs web !! "/dl/Clip.mp4" = Some 100
  /\ fs cli !! "/dl/Clip.mp4" = None
  /\ ops web = [OpDownload audio_mp4 "/dl/Clip.mp4";
                OpRun (convert_argv_web "/dl/Clip.mp4" "/dl/Clip.mp3")]
  /\ ops cli = [OpDownload audio_mp4 "/dl/Clip.mp4";
                OpRun (convert_argv_cli "/dl/Clip.mp4" "/dl/Clip.mp3");
                OpRemove "/dl/Clip.mp4"]
  /\ fs web' !! "/dl/My Clip (720p).jpg" = Some 7
  /\ fs cli' !! "/dl/My Clip (720p).jpg" = None.
Proof. vm_compute. repeat split. Qed.

(** * Further properties *)

(** ** Filename policy *)

Lemma rstrip_ends_clean (s : string) : ends_clean (PyStr.rstrip s) = true.
Proof.
  induction s as [|c s IH]; simpl; [reflexivity |].
  destruct (PyStr.rstrip s) as [|a r].
  - destruct (PyStr.is_space c) eqn:E; simpl; [reflexivity | now rewrite E].
  - exact IH.
Qed.

Lemma lstrip_empty_iff (s : string) :
  PyStr.lstrip s = "" <-> PyStr.all_chars PyStr.is_space s = true.
Proof.
  induction s as [|c s IH]; simpl; [tauto |].
  destruct (PyStr.is_space c); simpl; [exact IH |].
  split; discriminate.
Qed.

Lemma rstrip_empty_iff (s : string) :
  PyStr.rstrip s = "" <-> PyStr.all_chars PyStr.is_space s = true.
Proof.
  induction s as [|c s IH]; simpl; [tauto |].
  destruct (PyStr.rstrip s) as [|a r].
  - destruct (PyStr.is_space c); simpl.
    + split; [intros _; now apply IH | reflexivity].
    + split; discriminate.
  - split; [discriminate |]. intros [_ H]%andb_prop.
    apply IH in H. discriminate.
Qed.

Lemma all_space_lstrip (s : string) :
  PyStr.all_chars PyStr.is_space (PyStr.lstrip s) = true ->
  PyStr.all_chars PyStr.is_space s = true.
Proof.
  induction s as [|c s IH]; simpl; [reflexivity |].
  destruct (PyStr.is_space c) eqn:E; simpl; [exact IH |].
  now rewrite E.
Qed.

Lemma strip_empty_iff (s : string) :
  PyStr.strip s = "" <-> PyStr.all_chars PyStr.is_space s = true.
Proof.
  unfold PyStr.strip. rewrite rstrip_empty_iff. split.
  - apply all_space_lstrip.
  - intros H. apply lstrip_empty_iff in H. now rewrite H.
Qed.

Lemma filter_all_space_iff (s : string) :
  PyStr.all_chars PyStr.is_space
    (PyStr.filter_chars (fun c => negb (is_illegal c)) s) = true
  <-> PyStr.all_chars is_dropped s = true.
Proof.
  unfold is_dropped. induction s as [|c s IH]; simpl; [tauto |].
  destruct (is_illegal c); simpl; [exact IH |].
  destruct (PyStr.is_space c); simpl; [exact IH | tauto].
Qed.

(** X1.  A sanitized name holds none of the nine characters of the pattern
    and neither starts nor ends with whitespace. *)
Theorem sanitize_filename_clean (name : string) :
  PyStr.all_chars (fun c => negb (is_illegal c)) (sanitize_filename name) = true
  /\ starts_clean (sanitize_filename name) = true
  /\ ends_clean (sanitize_filename name) = true.
Proof.
  split; [apply strip_all_chars, filter_chars_all |].
  unfold sanitize_filename, PyStr.strip. split.
  - apply rstrip_starts_clean, lstrip_starts_clean.
  - apply rstrip_ends_clean.
Qed.

(** X2.  The sanitized name is empty exactly when every character of the
    name is one of the nine of the pattern or whitespace. *)
Theorem sanitize_filename_empty_iff (name : string) :
  sanitize_filename name = "" <-> PyStr.all_chars is_dropped name = true.
Proof.
  unfold sanitize_filename. rewrite strip_empty_iff. apply filter_all_space_iff.
Qed.

(** X3.  On the files of a world [get_unique_path] returns a path that is
    not on disk, whatever the path asked for. *)
Theorem get_unique_path_is_free (f : gmap string Z) (path : string) :
  f !! get_unique_path f path = None.
Proof.
  destruct (get_unique_path_total f path) as (p & _ & -> & Hfree).
  unfold path_exists in Hfree. apply bool_decide_eq_false in Hfree.
  destruct (f !! p) eqn:E; [| reflexivity].
  exfalso. apply Hfree. eauto.
Qed.

(** X4.  Two calls in a row on the same path, the file of the first result
    created in between, give two different paths. *)
Theorem get_unique_path_twice_distinct (f : gmap string Z) (path : string) (size : Z) :
  String.eqb (get_unique_path (<[get_unique_path f path := size]> f) path)
             (get_unique_path f path) = false.
Proof.
  apply String.eqb_neq. intros H.
  destruct (get_unique_path_total (<[get_unique_path f path := size]> f) path)
    as (p & _ & Hp & Hfree).
  rewrite H in Hp. subst p.
  unfold path_exists in Hfree. apply bool_decide_eq_false in Hfree.
  apply Hfree. rewrite lookup_insert_eq. eauto.
Qed.

(** ** URL normalizer *)

Lemma all_chars_app (p : ascii -> bool) (a b : string) :
  PyStr.all_chars p (a ++ b) = PyStr.all_chars p a && PyStr.all_chars p b.
Proof.
  induction a as [|c a IH]; [reflexivity |].
  rewrite append_cons. simpl. now rewrite IH, andb_assoc.
Qed.

Lemma split_head_is_prefix (s : string) :
  exists t, s = PyStr.split_head "&" s ++ t.
Proof.
  induction s as [|c s [t IH]]; [now exists "" |]. simpl.
  destruct (Ascii.eqb c "&"); [now exists (String c s) |].
  exists t. rewrite append_cons. now f_equal.
Qed.

Lemma split_head_has_no_amp (s : string) :
  PyStr.all_chars not_amp (PyStr.split_head "&" s) = true.
Proof.
  induction s as [|c s IH]; simpl; [reflexivity |].
  destruct (Ascii.eqb c "&") eqn:E; simpl; [reflexivity |].
  unfold not_amp at 1. now rewrite E.
Qed.

Lemma id_chars_have_no_amp (s : string) :
  PyStr.all_chars is_id_char s = true -> PyStr.all_chars not_amp s = true.
Proof.
  induction s as [|c s IH]; simpl; [reflexivity |].
  intros [Hc Hs]%andb_prop. rewrite IH by exact Hs.
  unfold not_amp. destruct (Ascii.eqb c "&") eqn:E; [| reflexivity].
  apply Ascii.eqb_eq in E. subst c. discriminate.
Qed.

(** The pattern reads a prefix only: what follows a match does not matter. *)
Lemma short_link_id_prefix (a t video_id : string) :
  short_link_id a = Some video_id -> short_link_id (a ++ t) = Some video_id.
Proof.
  intros (Hlen & Hid & secure & rest & ->)%short_link_id_inv.
  rewrite !append_assoc.
  replace ((if secure then "s" else "") ++ "://youtu.be/" ++ video_id ++ rest ++ t)
    with ((if secure then "s" else "") ++ "://youtu.be/" ++ video_id ++ (rest ++ t)).
  - now apply short_link_id_match.
  - reflexivity.
Qed.

Lemma canonical_is_not_short (video_id : string) :
  short_link_id ("https://www.youtube.com/watch?v=" ++ video_id) = None.
Proof. reflexivity. Qed.

Lemma canonical_has_marker (video_id : string) :
  PyStr.contains watch_marker ("https://www.youtube.com/watch?v=" ++ video_id) = true.
Proof.
  change ("https://www.youtube.com/watch?v=" ++ video_id)
    with ("https://www.youtube.com/" ++ watch_marker ++ video_id).
  apply contains_app.
Qed.

Lemma canonical_has_no_amp (video_id : string) :
  PyStr.all_chars is_id_char video_id = true ->
  PyStr.all_chars not_amp ("https://www.youtube.com/watch?v=" ++ video_id) = true.
Proof.
  intros H. rewrite all_chars_app, (id_chars_have_no_amp _ H). reflexivity.
Qed.

(** X5.  Normalizing a normalized address changes nothing. *)
Theorem clean_youtube_url_idempotent (url : string) :
  clean_youtube_url (clean_youtube_url url) = clean_youtube_url url.
Proof.
  unfold clean_youtube_url at 2 3.
  destruct (short_link_id url) as [video_id|] eqn:Hshort.
  - apply short_link_id_inv in Hshort as (_ & Hid & _).
    unfold clean_youtube_url.
    rewrite canonical_is_not_short, canonical_has_marker.
    apply split_head_no_amp. now apply canonical_has_no_amp.
  - destruct (PyStr.contains watch_marker url) eqn:Hm.
    + unfold clean_youtube_url.
      destruct (short_link_id (PyStr.split_head "&" url)) as [video_id|] eqn:E.
      * destruct (split_head_is_prefix url) as [t Ht].
        apply (short_link_id_prefix _ t) in E. rewrite <- Ht in E. congruence.
      * destruct (PyStr.contains watch_marker (PyStr.split_head "&" url));
          [| reflexivity].
        apply split_head_no_amp, split_head_has_no_amp.
    + unfold clean_youtube_url. now rewrite Hshort, Hm.
Qed.

(** X6.  Whenever one of the two rewriting rules applies (a short link, or
    a watch marker in the string), the result holds no ampersand. *)
Theorem clean_youtube_url_no_ampersand (url : string) :
  is_Some (short_link_id url) \/ PyStr.contains watch_marker url = true ->
  PyStr.all_chars not_amp (clean_youtube_url url) = true.
Proof.
  intros H. unfold clean_youtube_url.
  destruct (short_link_id url) as [video_id|] eqn:Hshort.
  - apply short_link_id_inv in Hshort as (_ & Hid & _).
    now apply canonical_has_no_amp.
  - destruct H as [[x Hx] | ->]; [discriminate |].
    apply split_head_has_no_amp.
Qed.

Lemma clean_youtube_url_no_ampersand_witness :
  PyStr.all_chars not_amp
    (clean_youtube_url "https://www.youtube.com/watch?v=abcdEFGH123&list=PL1&index=2")
  = true.
Proof.
  apply (clean_youtube_url_no_ampersand
           "https://www.youtube.com/watch?v=abcdEFGH123&list=PL1&index=2").
  right. reflexivity.
Defined.

(** ** Merge stage *)

(** X7.  The merge never raises, and whatever the tool's outcome it leaves
    every path other than its two sources as the tool left it. *)
Theorem merge_audio_video_frame (env : Env)
    (video_path audio_path output_path : string) (w : World) :
  exists b w',
    merge_audio_video env video_path audio_path output_path w = (Ok b, w')
    /\ forall p, p <> video_path -> p <> audio_path ->
         fs w' !! p
         = (ffmpeg env (merge_argv video_path audio_path output_path) (fs w)).2 !! p.
Proof.
  destruct (ffmpeg env (merge_argv video_path audio_path output_path) (fs w))
    as [out f1] eqn:Htool.
  destruct (exit_ok out) eqn:Hout.
  - destruct (merge_audio_video_tool_success _ _ _ _ _ _ _ Htool Hout)
      as (w' & E & F).
    eexists _, w'. split; [exact E |]. intros p Hv Ha. rewrite F. simpl.
    repeat case_bool_decide; rewrite ?lookup_delete_ne by auto; reflexivity.
  - destruct (merge_audio_video_tool_failure _ _ _ _ _ out _ Htool Hout)
      as (w' & E & F).
    eexists _, w'. split; [exact E |]. intros p _ _. now rewrite F.
Qed.

(** ** Catalog failures *)

(** X8.  When the catalog raises for the address, a single-item run, on
    either front end, touches no file and performs no operation; the browser
    front end returns the failure that carries the error text. *)
Theorem catalog_failure_touches_nothing (env : Env) (url : string) (q : Z)
    (audio_only : bool) (w : World) (e : exn) :
  youtube env url = Raise e ->
  (download_video_web env url q audio_only w).1 = Failure (str_exn e)
  /\ fs (download_video_web env url q audio_only w).2 = fs w
  /\ ops (download_video_web env url q audio_only w).2 = ops w
  /\ fs (download_video env url q audio_only w).2 = fs w
  /\ ops (download_video env url q audio_only w).2 = ops w.
Proof.
  intros H.
  unfold download_video_web, download_video, run_guarded,
    download_video_web_body, download_video_body,
    mbind, M_bind, bind, lift, emit_progress.
  rewrite H. repeat split.
Qed.

Lemma catalog_failure_touches_nothing_witness :
  (download_video_web offline_env watch_address 720 false
     (one_file "/dl/Old.mp4" 9)).1 = Failure "Network is unreachable"
  /\ fs (download_video_web offline_env watch_address 720 false
           (one_file "/dl/Old.mp4" 9)).2 = {[ "/dl/Old.mp4" := 9 ]}.
Proof.
  destruct (catalog_failure_touches_nothing offline_env watch_address 720 false
              (one_file "/dl/Old.mp4" 9) _ eq_refl) as (H1 & H2 & _).
  split; [exact H1 | exact H2].
Defined.

(** X9.  When the catalog raises for the playlist address, a collection
    run, on either front end, processes no member, touches no file and
    performs no operation; the browser front end returns the failure that
    carries the error text. *)
Theorem playlist_failure_touches_nothing (env : Env) (url : string) (q : Z)
    (audio_only : bool) (w : World) (e : exn) :
  playlist env url = Raise e ->
  (download_playlist_web env url q audio_only w).1 = PlaylistFailure (str_exn e)
  /\ fs (download_playlist_web env url q audio_only w).2 = fs w
  /\ ops (download_playlist_web env url q audio_only w).2 = ops w
  /\ fs (download_playlist env url q audio_only w).2 = fs w
  /\ ops (download_playlist env url q audio_only w).2 = ops w.
Proof.
  intros H.
  unfold download_playlist_web, download_playlist, run_guarded,
    download_playlist_web_body, download_playlist_body,
    mbind, M_bind, bind, lift, emit_progress.
  rewrite H. repeat split.
Qed.

Lemma playlist_failure_touches_nothing_witness :
  (download_playlist_web offline_env playlist_address 720 false empty_world).1
  = PlaylistFailure "Network is unreachable"
  /\ ops (download_playlist offline_env playlist_address 720 false empty_world).2 = [].
Proof.
  destruct (playlist_failure_touches_nothing offline_env playlist_address 720 false
              empty_world _ eq_refl) as (H1 & _ & _ & _ & H2).
  split; [exact H1 | exact H2].
Defined.

(** X10.  A playlist without members: the browser front end returns a
    success with no per-item result, no operation is performed, and the
    percentage of the loop, which divides by the number of members, is never
    computed. *)
Theorem empty_playlist_succeeds (env : Env) (url : string) (q : Z)
    (audio_only : bool) (w : World) (pl : PlaylistInfo) :
  playlist env url = Ok pl -> videos pl = [] ->
  (download_playlist_web env url q audio_only w).1 = PlaylistSuccess []
  /\ fs (download_playlist_web env url q audio_only w).2 = fs w
  /\ ops (download_playlist_web env url q audio_only w).2 = ops w
  /\ ops (download_playlist env url q audio_only w).2 = ops w.
Proof.
  intros H Hv.
  unfold download_playlist_web, download_playlist, run_guarded,
    download_playlist_web_body, download_playlist_body,
    mbind, M_bind, bind, lift, emit_progress, print, emit_progress.
  rewrite H, Hv. repeat split.
Qed.

Lemma empty_playlist_succeeds_witness :
  (download_playlist_web (playlist_env []) playlist_address 720 false empty_world).1
  = PlaylistSuccess [].
Proof.
  apply (empty_playlist_succeeds (playlist_env []) playlist_address 720 false
           empty_world {| pl_title := "Mix"; videos := [] |}); reflexivity.
Defined.

(** ** Results and progress events *)

Section Finishes.

Context {A : Type} (Q : Exc A -> World -> Prop).

Lemma finishes_bind {B} (m : M B) (k : B -> M A) :
  (forall e w, Q (Raise e) w) -> (forall b, finishes Q (k b)) ->
  finishes Q (m ≫= k).
Proof.
  intros Hraise Hk w. unfold mbind, M_bind, bind.
  destruct (m w) as [[b | e] w']; [apply Hk | apply Hraise].
Qed.

Lemma finishes_try_except (m : M A) (h : exn -> M A) :
  finishes Q m -> (forall e, finishes Q (h e)) -> finishes Q (try_except m h).
Proof.
  intros Hm Hh w. unfold try_except. specialize (Hm w).
  destruct (m w) as [[a | e] w']; [exact Hm | apply Hh].
Qed.

End Finishes.

Lemma announced_raise (e : exn) (w : World) : success_is_announced (Raise e) w.
Proof. intros f t H. discriminate. Qed.

Lemma announced_failure (msg : string) :
  finishes success_is_announced (mret (Failure msg)).
Proof. intros w f t H. discriminate. Qed.

Lemma announced_complete (r : DownloadResult) :
  finishes success_is_announced
    (emit_progress "Download complete!" (Some 100) None;; mret r).
Proof. intros w f t _. simpl. apply last_snoc. Qed.

Lemma announced_emit_failure (msg text : string) (pct : option Z) :
  finishes success_is_announced (emit_progress msg pct None;; mret (Failure text)).
Proof. intros w f t H. discriminate. Qed.

Lemma convert_web_announced (env : Env) (yt : Video) (audio_file_path : string) :
  finishes success_is_announced (convert_web env yt audio_file_path).
Proof.
  unfold convert_web.
  apply finishes_bind; [apply announced_raise | intros _].
  apply finishes_try_except.
  - apply finishes_bind; [apply announced_raise | intros result].
    destruct (negb (result.1 =? 0)); [apply announced_emit_failure |].
    apply finishes_bind; [apply announced_raise | intros f].
    destruct (_ && _); [| apply announced_emit_failure].
    apply finishes_bind; [apply announced_raise | intros _].
    apply finishes_bind; [apply announced_raise | intros _].
    apply announced_complete.
  - intros e. destruct (is_timeout e); apply announced_emit_failure.
Qed.

Lemma download_video_web_body_announced (env : Env) (url : string) (q : Z)
    (audio_only : bool) :
  finishes success_is_announced (download_video_web_body env url q audio_only).
Proof.
  unfold download_video_web_body.
  apply finishes_bind; [apply announced_raise | intros _].
  apply finishes_bind; [apply announced_raise | intros yt].
  apply finishes_bind; [apply announced_raise | intros _].
  apply finishes_bind; [apply announced_raise | intros _].
  destruct audio_only.
  - unfold audio_only_web.
    apply finishes_bind; [apply announced_raise | intros _].
    destruct (best_audio_only yt); [| apply announced_emit_failure].
    apply finishes_bind; [apply announced_raise | intros path].
    apply convert_web_announced.
  - unfold video_web.
    apply finishes_bind; [apply announced_raise | intros selected].
    assert (Hfallback : finishes success_is_announced
      (emit_progress "Using progressive stream fallback..." (Some 30) None;;
       file_path ← download_first env progress_callback
                     (progressive_fallback q yt) (DOWNLOADS_DIR env) "";
       save_thumbnail env (thumbnail_url yt) (PosixPath.basename file_path);;
       emit_progress "Download complete!" (Some 100) None;;
       mret (Success (PosixPath.basename file_path) TVideo))).
    { apply finishes_bind; [apply announced_raise | intros _].
      apply finishes_bind; [apply announced_raise | intros file_path].
      apply finishes_bind; [apply announced_raise | intros _].
      apply announced_complete. }
    destruct selected as [selected_video|], (audio_streams yt) as [|audio_stream rest];
      try exact Hfallback.
    apply finishes_bind; [apply announced_raise | intros _].
    apply finishes_bind; [apply announced_raise | intros video_path].
    apply finishes_bind; [apply announced_raise | intros _].
    apply finishes_bind; [apply announced_raise | intros audio_path].
    apply finishes_bind; [apply announced_raise | intros f].
    cbv zeta.
    apply finishes_bind; [apply announced_raise | intros _].
    apply finishes_bind; [apply announced_raise | intros merged].
    destruct merged; [| apply announced_emit_failure].
    apply finishes_bind; [apply announced_raise | intros _].
    apply announced_complete.
Qed.

(** X11.  Whenever the browser front end returns a success, in either
    mode, the last progress event it emitted is "Download complete!" at
    100 percent. *)
Theorem success_ends_with_complete (env : Env) (url : string) (q : Z)
    (audio_only : bool) (w : World) (filename : string) (type : ResultType) :
  (download_video_web env url q audio_only w).1 = Success filename type ->
  last (events (download_video_web env url q audio_only w).2) = Some complete_event.
Proof.
  pose proof (download_video_web_body_announced env url q audio_only w) as H.
  unfold download_video_web, run_guarded, error_result.
  destruct (download_video_web_body env url q audio_only w) as [[r | e] w'];
    simpl in *; [| discriminate].
  intros ->. now apply (H filename type).
Qed.

Lemma success_ends_with_complete_witness :
  last (events (download_video_web (sample_env sample_video (tool_writes 0 42))
                  watch_address 720 false empty_world).2)
  = Some complete_event.
Proof.
  apply (success_ends_with_complete (sample_env sample_video (tool_writes 0 42))
           watch_address 720 false empty_world "My Clip (720p).mp4" TVideo).
  reflexivity.
Defined.

(** ** Audio-only conversion, browser front end *)

(** X12.  The conversion step of the browser front end never raises, and
    unless it returns a success it leaves the files exactly as the tool left
    them: its only operation is the run of the tool, nothing is removed and no
    thumbnail is written. *)
Theorem convert_web_failure_keeps_files (env : Env) (yt : Video)
    (audio_file_path : string) (w : World) :
  let mp3_path := (PosixPath.splitext audio_file_path).1 ++ ".mp3" in
  let argv := convert_argv_web audio_file_path mp3_path in
  returned_success (convert_web env yt audio_file_path w).1 = false ->
  (exists r, (convert_web env yt audio_file_path w).1 = Ok r)
  /\ fs (convert_web env yt audio_file_path w).2 = (ffmpeg env argv (fs w)).2
  /\ ops (convert_web env yt audio_file_path w).2 = (ops w ++ [OpRun argv])%list.
Proof.
  intros mp3_path argv.
  unfold convert_web, try_except, mbind, M_bind, bind, subprocess_run,
    emit_progress, get_fs, remove.
  simpl. fold mp3_path. fold argv.
  destruct (ffmpeg env argv (fs w)) as [[code err | e] f1]; simpl.
  - destruct (code =? 0); simpl; [| intros _; eauto].
    destruct (path_exists f1 mp3_path && (0 <? getsize f1 mp3_path)); simpl;
      [| intros _; eauto].
    destruct (f1 !! audio_file_path); simpl.
    + match goal with
      | |- context [save_thumbnail ?e ?u ?n ?w0] =>
          destruct (save_thumbnail_agree e u n w0 w0 (phys_eq_refl w0)) as [Hok _];
          destruct (save_thumbnail e u n w0) as [[[] | e'] w']
      end; simpl in *; [intros H; discriminate H | discriminate Hok].
    + intros _; eauto.
  - destruct (is_timeout e); simpl; intros _; eauto.
Qed.

Lemma convert_web_failure_keeps_files_witness :
  fs (convert_web (sample_env audio_video (tool_exits 1)) audio_video "/dl/Clip.mp4"
        (one_file "/dl/Clip.mp4" 100)).2 = {[ "/dl/Clip.mp4" := 100 ]}.
Proof.
  destruct (convert_web_failure_keeps_files (sample_env audio_video (tool_exits 1))
              audio_video "/dl/Clip.mp4" (one_file "/dl/Clip.mp4" 100) eq_refl)
    as (_ & H & _).
  exact H.
Defined.

(** ** Video mode: what a run may do *)

Lemma returns_bind {A B} (R : B -> Prop) (m : M A) (k : A -> M B) :
  (forall a, returns R (k a)) -> returns R (m ≫= k).
Proof.
  intros Hk w b w'. unfold mbind, M_bind, bind.
  destruct (m w) as [[a | e] w1]; [apply Hk | discriminate].
Qed.

(** A download returns the path it was asked to write. *)
Lemma download_returns (env : Env) (cb : Stream -> Z -> M unit) (s : Stream)
    (output_path filename_prefix : string) :
  returns (fun path => path = PosixPath.join output_path
                                (filename_prefix ++ default_filename s))
          (download env cb s output_path filename_prefix).
Proof.
  unfold download. do 3 (apply returns_bind; intros _).
  intros w a w'. destruct (transfer env s).2; [discriminate |].
  now intros [= <- _].
Qed.

Lemma appends_bind_returns {A B} (P : Op -> Prop) (R : A -> Prop)
    (m : M A) (k : A -> M B) :
  returns R m -> appends P m -> (forall a, R a -> appends P (k a)) ->
  appends P (m ≫= k).
Proof.
  intros HR Hm Hk w r w'. unfold mbind, M_bind, bind.
  destruct (m w) as [[a | e] w1] eqn:E.
  - pose proof (HR _ _ _ E) as Ha. apply Hm in E as (n1 & E1 & F1).
    intros (n2 & E2 & F2)%(Hk a Ha). exists (n1 ++ n2)%list.
    rewrite E2, E1, app_assoc. split; [reflexivity | now apply Forall_app].
  - apply Hm in E as (n1 & E1 & F1). intros [= _ <-]. now exists n1.
Qed.

Lemma appends_download_at (P : Op -> Prop) (env : Env)
    (cb : Stream -> Z -> M unit) (s : Stream) (output_path filename_prefix : string) :
  P (OpDownload s (PosixPath.join output_path (filename_prefix ++ default_filename s))) ->
  (forall r, appends P (cb s r)) ->
  appends P (download env cb s output_path filename_prefix).
Proof.
  intros Hs Hcb. unfold download.
  apply appends_bind; [now apply appends_log_op | intros _].
  apply appends_bind; [apply appends_write_file | intros _].
  apply appends_bind.
  - apply appends_for_each. intros r.
    apply appends_bind; [apply appends_write_file | intros _; apply Hcb].
  - intros _. destruct (transfer env s).2; [apply appends_raise | apply appends_ret].
Qed.

Lemma appends_merge_audio_video (P : Op -> Prop) (env : Env)
    (video_path audio_path output_path : string) :
  P (OpRun (merge_argv video_path audio_path output_path)) ->
  P (OpRemove video_path) -> P (OpRemove audio_path) ->
  appends P (merge_audio_video env video_path audio_path output_path).
Proof.
  intros Hrun Hv Ha. unfold merge_audio_video.
  apply appends_try_except; [| intros; apply appends_ret].
  apply appends_bind; [now apply appends_subprocess_run | intros _].
  apply appends_bind; [now apply appends_remove | intros _].
  apply appends_bind; [now apply appends_remove | intros _; apply appends_ret].
Qed.

Lemma first_within_elem (q : Z) (vs : list Stream) (s : Stream) :
  first_within q vs = Ok (Some s) -> s ∈ vs.
Proof.
  induction vs as [|x vs IH]; simpl; [discriminate |].
  destruct (resolution x) as [r|]; [| discriminate].
  destruct (r <=? q).
  - intros [= ->]. apply elem_of_cons. auto.
  - intros H. apply elem_of_cons. auto.
Qed.

Lemma select_video_elem (q : Z) (vs : list Stream) (s : Stream) :
  select_video q vs = Ok (Some s) -> s ∈ vs.
Proof.
  unfold select_video.
  destruct (first_within q vs) as [[x|] | e] eqn:E.
  - intros [= ->]. now apply (first_within_elem q).
  - destruct vs as [|x vs]; simpl; [discriminate |].
    intros [= ->]. apply elem_of_cons. auto.
  - discriminate.
Qed.

Lemma video_streams_elem (yt : Video) (s : Stream) :
  s ∈ video_streams yt -> kind s = KVideo /\ subtype s = "mp4" /\ s ∈ streams yt.
Proof.
  intros H. destruct (video_streams_sorted yt) as (_ & _ & Hall).
  rewrite Forall_forall in Hall. now apply Hall.
Qed.

Lemma audio_streams_elem (yt : Video) (s : Stream) :
  s ∈ audio_streams yt -> kind s = KAudio /\ s ∈ streams yt.
Proof.
  intros [H _]%elem_of_desc_order_by.
  apply elem_of_query_filter in H as [H Hk]. apply Kind_eqb_eq in Hk. auto.
Qed.

Lemma progressive_fallback_elem (q : Z) (yt : Video) (s : Stream) :
  progressive_fallback q yt = Some s -> kind s = KProgressive /\ s ∈ streams yt.
Proof.
  unfold progressive_fallback.
  destruct (StreamQuery.first _) as [x|] eqn:E.
  - intros [= ->]. apply first_desc_order_by in E as (H & _).
    apply elem_of_query_filter in H as [H Hp].
    apply andb_prop in Hp as [[Hk _]%andb_prop _]. apply Kind_eqb_eq in Hk. auto.
  - intros H. apply first_desc_order_by in H as (H & _).
    apply elem_of_query_filter in H as [H Hk]. apply Kind_eqb_eq in Hk. auto.
Qed.

Section VideoMode.

Variables (env : Env) (url : string) (yt : Video) (q : Z).
Hypothesis Hyt : youtube env url = Ok yt.

Lemma video_mode_op_run (video_path audio_path output_path : string) :
  video_mode_op env url (OpRun (merge_argv video_path audio_path output_path)).
Proof. exists yt. split; [exact Hyt | eauto]. Qed.

Lemma video_mode_op_write (name : string) :
  video_mode_op env url (OpWrite (PosixPath.join (DOWNLOADS_DIR env)
                ((PosixPath.splitext name).1 ++ ".jpg"))).
Proof. exists yt. split; [exact Hyt | now exists name]. Qed.

Lemma video_mode_op_video (s : Stream) :
  s ∈ video_streams yt ->
  video_mode_op env url (OpDownload s (PosixPath.join (TMP_DIR env) ("video_" ++ default_filename s)))
  /\ video_mode_op env url (OpRemove (PosixPath.join (TMP_DIR env) ("video_" ++ default_filename s))).
Proof.
  intros (Hk & He & Hin)%video_streams_elem.
  split; exists yt; (split; [exact Hyt |]); [| now eauto].
  split; [exact Hin | left; auto].
Qed.

Lemma video_mode_op_audio (s : Stream) :
  s ∈ audio_streams yt ->
  video_mode_op env url (OpDownload s (PosixPath.join (TMP_DIR env) ("audio_" ++ default_filename s)))
  /\ video_mode_op env url (OpRemove (PosixPath.join (TMP_DIR env) ("audio_" ++ default_filename s))).
Proof.
  intros (Hk & Hin)%audio_streams_elem.
  split; exists yt; (split; [exact Hyt |]); [| now eauto].
  split; [exact Hin | right; left; auto].
Qed.

Lemma video_mode_op_fallback (s : Stream) :
  progressive_fallback q yt = Some s ->
  video_mode_op env url (OpDownload s (PosixPath.join (DOWNLOADS_DIR env) ("" ++ default_filename s))).
Proof.
  intros (Hk & Hin)%progressive_fallback_elem.
  exists yt. split; [exact Hyt |]. split; [exact Hin | right; right; auto].
Qed.

Lemma appends_thumbnail (name : string) :
  appends (video_mode_op env url) (save_thumbnail env (thumbnail_url yt) name).
Proof.
  unfold save_thumbnail.
  apply appends_try_except; [| intros; apply appends_emit].
  apply appends_bind; [apply appends_lift | intros response].
  destruct (response.1 =? 200); [| apply appends_ret].
  apply appends_bind; [| intros; apply appends_write_file].
  apply appends_log_op, video_mode_op_write.
Qed.

Lemma appends_fallback_download (cb : Stream -> Z -> M unit) :
  (forall s r, appends (video_mode_op env url) (cb s r)) ->
  appends (video_mode_op env url) (download_first env cb (progressive_fallback q yt) (DOWNLOADS_DIR env) "").
Proof.
  intros Hcb. destruct (progressive_fallback q yt) as [s|] eqn:E; simpl;
    [| apply appends_raise].
  apply appends_download_at; [now apply video_mode_op_fallback | apply Hcb].
Qed.

Lemma video_web_appends : appends (video_mode_op env url) (video_web env yt q).
Proof.
  unfold video_web. apply appends_bind_lift. intros selected Hsel.
  assert (Hfallback : appends (video_mode_op env url)
    (emit_progress "Using progressive stream fallback..." (Some 30) None;;
     file_path ← download_first env progress_callback
                   (progressive_fallback q yt) (DOWNLOADS_DIR env) "";
     save_thumbnail env (thumbnail_url yt) (PosixPath.basename file_path);;
     emit_progress "Download complete!" (Some 100) None;;
     mret (Success (PosixPath.basename file_path) TVideo))).
  { apply appends_bind; [apply appends_emit | intros _].
    apply appends_bind;
      [apply appends_fallback_download; intros; apply appends_progress_callback |].
    intros file_path.
    apply appends_bind; [apply appends_thumbnail | intros _].
    apply appends_bind; [apply appends_emit | intros; apply appends_ret]. }
  destruct selected as [sv|]; [| destruct (audio_streams yt); exact Hfallback].
  destruct (audio_streams yt) as [|audio_stream rest] eqn:Ha; [exact Hfallback |].
  destruct (video_mode_op_video sv (select_video_elem _ _ _ Hsel)) as [Hdv Hrv].
  destruct (video_mode_op_audio audio_stream) as [Hda Hra];
    [rewrite Ha; apply elem_of_cons; auto |].
  apply appends_bind; [apply appends_emit | intros _].
  eapply appends_bind_returns; [apply download_returns | |].
  { apply appends_download_at; [exact Hdv | intros; apply appends_progress_callback]. }
  intros video_path ->.
  apply appends_bind; [apply appends_emit | intros _].
  eapply appends_bind_returns; [apply download_returns | |].
  { apply appends_download_at; [exact Hda | intros; apply appends_progress_callback]. }
  intros audio_path ->.
  apply appends_bind; [apply appends_get_fs | intros f]. cbv zeta.
  apply appends_bind; [apply appends_emit | intros _].
  apply appends_bind.
  - apply appends_merge_audio_video; [apply video_mode_op_run | exact Hrv | exact Hra].
  - intros merged. destruct merged.
    + apply appends_bind; [apply appends_thumbnail | intros _].
      apply appends_bind; [apply appends_emit | intros; apply appends_ret].
    + apply appends_bind; [apply appends_emit | intros; apply appends_ret].
Qed.

Lemma video_cli_appends : appends (video_mode_op env url) (video_cli env yt q).
Proof.
  unfold video_cli, print.
  apply appends_bind; [apply appends_emit | intros _].
  apply appends_bind_lift. intros selected Hsel.
  assert (Hfallback : appends (video_mode_op env url)
    (emit_progress
       "No suitable adaptive stream found, trying progressive fallback..."
       None None;;
     file_path ← download_first env (cli_progress env)
                   (progressive_fallback q yt) (DOWNLOADS_DIR env) "";
     emit_progress ("Download complete: " ++ file_path) None None)).
  { apply appends_bind; [apply appends_emit | intros _].
    apply appends_bind;
      [apply appends_fallback_download; intros; apply appends_cli_progress |].
    intros; apply appends_emit. }
  destruct selected as [sv|]; [| destruct (audio_streams yt); exact Hfallback].
  destruct (audio_streams yt) as [|audio_stream rest] eqn:Ha; [exact Hfallback |].
  destruct (video_mode_op_video sv (select_video_elem _ _ _ Hsel)) as [Hdv Hrv].
  destruct (video_mode_op_audio audio_stream) as [Hda Hra];
    [rewrite Ha; apply elem_of_cons; auto |].
  apply appends_bind; [apply appends_emit | intros _].
  apply appends_bind; [apply appends_emit | intros _].
  eapply appends_bind_returns; [apply download_returns | |].
  { apply appends_download_at; [exact Hdv | intros; apply appends_cli_progress]. }
  intros video_path ->.
  eapply appends_bind_returns; [apply download_returns | |].
  { apply appends_download_at; [exact Hda | intros; apply appends_cli_progress]. }
  intros audio_path ->.
  apply appends_bind; [apply appends_get_fs | intros f]. cbv zeta.
  apply appends_bind; [apply appends_emit | intros _].
  apply appends_bind; [apply appends_emit | intros _].
  apply appends_bind.
  - apply appends_merge_audio_video; [apply video_mode_op_run | exact Hrv | exact Hra].
  - intros merged. destruct merged; apply appends_emit.
Qed.

End VideoMode.

(** X13.  In video mode, on either front end, a run fetches only streams of
    the catalog entry (a video-only mp4 stream and an audio-only stream to
    the temporary directory under the prefixes [video_] and [audio_], or a
    progressive stream to the downloads directory), runs the tool only with
    the merge arguments, and removes nothing but those two temporary files. *)
Theorem video_mode_discipline (env : Env) (url : string) (q : Z) (w : World) :
  (exists new,
      ops (download_video_web env url q false w).2 = (ops w ++ new)%list
      /\ Forall (video_mode_op env url) new)
  /\ (exists new,
         ops (download_video env url q false w).2 = (ops w ++ new)%list
         /\ Forall (video_mode_op env url) new).
Proof.
  split.
  - apply appends_run_guarded; [| reflexivity].
    unfold download_video_web_body.
    apply appends_bind; [apply appends_emit | intros _].
    apply appends_bind_lift. intros yt Hyt.
    apply appends_bind; [apply appends_emit | intros _].
    apply appends_bind; [apply appends_emit | intros _].
    now apply video_web_appends.
  - apply appends_run_guarded; [| reflexivity].
    unfold download_video_body, print.
    apply appends_bind_lift. intros yt Hyt.
    apply appends_bind; [apply appends_emit | intros _].
    apply appends_bind; [apply appends_emit | intros _].
    apply appends_bind; [apply appends_emit | intros _].
    now apply video_cli_appends.
Qed.

(** ** Progressive fallback *)

Section Fallback.

Variables (env : Env) (yt : Video) (q : Z).

Lemma appends_fallback_op_download (cb : Stream -> Z -> M unit) :
  (forall s r, appends (fallback_op env q yt) (cb s r)) ->
  appends (fallback_op env q yt)
    (download_first env cb (progressive_fallback q yt) (DOWNLOADS_DIR env) "").
Proof.
  intros Hcb. destruct (progressive_fallback q yt) as [s|] eqn:E; simpl;
    [| apply appends_raise].
  apply appends_download_at; [| apply Hcb]. simpl. now rewrite E.
Qed.

Hypothesis Hnone : video_streams yt = [] \/ audio_streams yt = [].

Lemma fallback_is_taken (selected : Stream) :
  select_video q (video_streams yt) = Ok (Some selected) ->
  audio_streams yt = [].
Proof.
  destruct Hnone as [Hv | Ha]; [| auto]. rewrite Hv. discriminate.
Qed.

Lemma video_web_fallback_appends :
  appends (fallback_op env q yt) (video_web env yt q).
Proof.
  unfold video_web. apply appends_bind_lift. intros selected Hsel.
  assert (Ha : match selected with Some _ => audio_streams yt = [] | None => True end).
  { destruct selected; [now apply (fallback_is_taken s) | exact I]. }
  destruct selected as [sv|]; [rewrite Ha | destruct (audio_streams yt)];
    (apply appends_bind; [apply appends_emit | intros _];
     apply appends_bind;
       [apply appends_fallback_op_download; intros; apply appends_progress_callback |];
     intros file_path;
     apply appends_bind; [now apply appends_save_thumbnail | intros _];
     apply appends_bind; [apply appends_emit | intros; apply appends_ret]).
Qed.

Lemma video_cli_fallback_appends :
  appends (fallback_op env q yt) (video_cli env yt q).
Proof.
  unfold video_cli, print.
  apply appends_bind; [apply appends_emit | intros _].
  apply appends_bind_lift. intros selected Hsel.
  assert (Ha : match selected with Some _ => audio_streams yt = [] | None => True end).
  { destruct selected; [now apply (fallback_is_taken s) | exact I]. }
  destruct selected as [sv|]; [rewrite Ha | destruct (audio_streams yt)];
    (apply appends_bind; [apply appends_emit | intros _];
     apply appends_bind;
       [apply appends_fallback_op_download; intros; apply appends_cli_progress |];
     intros; apply appends_emit).
Qed.

End Fallback.

(** X14.  When the catalog entry has no video-only mp4 stream with a
    resolution, or no audio-only stream with a bitrate, a video-mode run on
    either front end takes the progressive fallback: it fetches nothing but
    the fallback stream, straight into the downloads directory, never runs the
    tool and removes no file. *)
Theorem fallback_runs_no_tool (env : Env) (url : string) (q : Z) (w : World)
    (yt : Video) :
  youtube env url = Ok yt ->
  video_streams yt = [] \/ audio_streams yt = [] ->
  (exists new,
      ops (download_video_web env url q false w).2 = (ops w ++ new)%list
      /\ Forall (fallback_op env q yt) new)
  /\ (exists new,
         ops (download_video env url q false w).2 = (ops w ++ new)%list
         /\ Forall (fallback_op env q yt) new).
Proof.
  intros Hyt Hnone. split.
  - apply appends_run_guarded; [| reflexivity].
    unfold download_video_web_body.
    apply appends_bind; [apply appends_emit | intros _].
    apply appends_bind_lift. intros yt' Hyt'.
    assert (yt' = yt) as -> by congruence.
    apply appends_bind; [apply appends_emit | intros _].
    apply appends_bind; [apply appends_emit | intros _].
    now apply video_web_fallback_appends.
  - apply appends_run_guarded; [| reflexivity].
    unfold download_video_body, print.
    apply appends_bind_lift. intros yt' Hyt'.
    assert (yt' = yt) as -> by congruence.
    apply appends_bind; [apply appends_emit | intros _].
    apply appends_bind; [apply appends_emit | intros _].
    apply appends_bind; [apply appends_emit | intros _].
    now apply video_cli_fallback_appends.
Qed.

Lemma fallback_runs_no_tool_witness :
  exists new,
    ops (download_video (steady_env live_video (tool_writes 0 42))
           watch_address 360 false empty_world).2 = new
    /\ Forall (fallback_op (steady_env live_video (tool_writes 0 42)) 360 live_video) new.
Proof.
  destruct (fallback_runs_no_tool (steady_env live_video (tool_writes 0 42))
              watch_address 360 empty_world live_video eq_refl)
    as (_ & new & E & F); [left; reflexivity |].
  exists new. split; [exact E | exact F].
Defined.

(** ** Terminal entry point *)

Lemma is_space_lower_char (c : ascii) :
  PyStr.is_space (lower_char c) = PyStr.is_space c.
Proof. destruct c as [[] [] [] [] [] [] [] []]; reflexivity. Qed.

Lemma lower_char_is_a (c : ascii) :
  lower_char c = "a"%char <-> c = "a"%char \/ c = "A"%char.
Proof.
  split.
  - destruct c as [[] [] [] [] [] [] [] []]; intros H; vm_compute in H;
      first [discriminate H | now left | now right].
  - intros [-> | ->]; reflexivity.
Qed.

Lemma lower_empty_iff (s : string) : lower s = "" <-> s = "".
Proof. destruct s; simpl; split; congruence. Qed.

Lemma lstrip_lower (s : string) : PyStr.lstrip (lower s) = lower (PyStr.lstrip s).
Proof.
  induction s as [|c s IH]; simpl; [reflexivity |].
  rewrite is_space_lower_char. now destruct (PyStr.is_space c).
Qed.

Lemma rstrip_lower (s : string) : PyStr.rstrip (lower s) = lower (PyStr.rstrip s).
Proof.
  induction s as [|c s IH]; simpl; [reflexivity |].
  rewrite IH, is_space_lower_char.
  destruct (PyStr.rstrip s) as [|a r]; simpl; [| reflexivity].
  now destruct (PyStr.is_space c).
Qed.

Lemma strip_lower (s : string) : PyStr.strip (lower s) = lower (PyStr.strip s).
Proof. unfold PyStr.strip. now rewrite lstrip_lower, rstrip_lower. Qed.

Lemma lower_is_a (s : string) : lower s = "a" <-> s = "a" \/ s = "A".
Proof.
  destruct s as [|c [|d s]]; simpl.
  - split; [discriminate | intros [H | H]; discriminate H].
  - split.
    + intros [= H]. apply lower_char_is_a in H as [-> | ->]; auto.
    + intros [[= ->] | [= ->]]; reflexivity.
  - split; [discriminate | intros [H | H]; discriminate H].
Qed.

(** X15.  The mode answer decides alone between audio and video: the run
    is audio-only exactly when the answer, stripped, is "a" or "A", and then
    no quality is asked for; with any other answer, a blank one included, the
    quality is asked for and a blank answer to it stands for 720. *)
Theorem main_mode_rule (line1 line2 line3 : string) (rest : list string) :
  let url := clean_youtube_url (PyStr.strip line1) in
  (PyStr.strip line2 = "a" \/ PyStr.strip line2 = "A" ->
   main (line1 :: line2 :: rest) = Some (dispatch url None true))
  /\ (PyStr.strip line2 <> "a" -> PyStr.strip line2 <> "A" ->
      main (line1 :: line2 :: line3 :: rest)
      = Some (dispatch url
                (Some (if String.eqb (PyStr.strip line3) "" then "720"
                       else PyStr.strip line3))
                false)).
Proof.
  intros url. unfold main. fold url. rewrite strip_lower.
  assert (Hmode : String.eqb (str_or (lower (PyStr.strip line2)) "v") "a" = true
                  <-> PyStr.strip line2 = "a" \/ PyStr.strip line2 = "A").
  { rewrite String.eqb_eq, <- lower_is_a. unfold str_or.
    destruct (String.eqb_spec (lower (PyStr.strip line2)) "") as [-> | _];
      [| reflexivity].
    split; discriminate. }
  split.
  - intros H. apply Hmode in H. now rewrite H.
  - intros Ha HA.
    assert (E : String.eqb (str_or (lower (PyStr.strip line2)) "v") "a" = false).
    { apply not_true_is_false. intros E. apply Hmode in E. tauto. }
    now rewrite E.
Qed.

Lemma main_mode_rule_witness :
  main ["https://youtu.be/abcdEFGH123"; "  A "]
  = Some (CallVideo "https://www.youtube.com/watch?v=abcdEFGH123" None true)
  /\ main ["https://youtu.be/abcdEFGH123"; ""; " "]
     = Some (CallVideo "https://www.youtube.com/watch?v=abcdEFGH123" (Some "720") false).
Proof.
  split.
  - apply (proj1 (main_mode_rule "https://youtu.be/abcdEFGH123" "  A " "" [])).
    right. reflexivity.
  - apply (proj2 (main_mode_rule "https://youtu.be/abcdEFGH123" "" " " []));
      discriminate.
Defined.

(** ** Dispatch between the two pipelines *)

(** X16.  A short link is rewritten before the dispatch looks for the word
    "playlist", so the choice rests on the identifier alone: on either front
    end the link is handled as a playlist exactly when its eleven characters
    hold that word, and as a single video otherwise. *)
Theorem short_link_dispatch (secure : bool) (video_id rest : string)
    (quality : option string) (audio_only : bool)
    (env : Env) (target_quality : Z) (w : World) :
  String.length video_id = 11%nat ->
  PyStr.all_chars is_id_char video_id = true ->
  let url := clean_youtube_url
               ("http" ++ (if secure then "s" else "") ++ "://youtu.be/"
                ++ video_id ++ rest) in
  url = "https://www.youtube.com/watch?v=" ++ video_id
  /\ dispatch url quality audio_only
     = (if PyStr.contains "playlist" video_id
        then CallPlaylist url quality audio_only
        else CallVideo url quality audio_only)
  /\ download_task env url target_quality audio_only w
     = (if PyStr.contains "playlist" video_id
        then (download_playlist_web env url target_quality audio_only w).2
        else (download_video_web env url target_quality audio_only w).2).
Proof.
  intros Hlen Hid url.
  assert (Hurl : url = "https://www.youtube.com/watch?v=" ++ video_id).
  { unfold url, clean_youtube_url. now rewrite short_link_id_match. }
  assert (Hc : PyStr.contains "playlist" url = PyStr.contains "playlist" video_id).
  { rewrite Hurl. reflexivity. }
  split; [exact Hurl |].
  unfold dispatch, download_task. now rewrite Hc.
Qed.

Lemma short_link_dispatch_witness :
  dispatch (clean_youtube_url playlist_like_link) (Some "720") false
  = CallPlaylist "https://www.youtube.com/watch?v=abplaylistc" (Some "720") false
  /\ dispatch (clean_youtube_url "http://youtu.be/abcdEFGH123?t=4") None true
     = CallVideo "https://www.youtube.com/watch?v=abcdEFGH123" None true.
Proof.
  split.
  - destruct (short_link_dispatch true "abplaylistc" "" (Some "720") false
                offline_env 720 empty_world eq_refl eq_refl) as (_ & H & _).
    vm_compute in H. vm_compute. exact H.
  - destruct (short_link_dispatch false "abcdEFGH123" "?t=4" None true
                offline_env 720 empty_world eq_refl eq_refl) as (_ & H & _).
    vm_compute in H. vm_compute. exact H.
Defined.

(** ** Request handlers *)

(** X17.  For a body that is a JSON object: when the address is missing or
    a string of whitespace only, the request is answered with 400 and starts
    no task; when it is any other string, the request is answered with 200 and
    starts one task, on the stripped and normalized address, with quality 720
    and video mode where the body names none; when it is not a string, the
    view raises and starts no task. *)
Theorem api_download_outcome (data : DownloadRequest) :
  match default (JString EmptyString) (req_url data) with
  | JString raw =>
      (PyStr.all_chars PyStr.is_space raw = true ->
       api_download data
       = Ok ({| status := 400; success := false; text := "URL is required" |}, None))
      /\ (PyStr.all_chars PyStr.is_space raw = false ->
          api_download data
          = Ok ({| status := 200; success := true; text := "Download started" |},
                Some (clean_youtube_url (PyStr.strip raw),
                      default 720 (req_quality data),
                      default false (req_audio_only data))))
  | _ => api_download data = Raise AttributeError
  end.
Proof.
  unfold api_download.
  destruct (default (JString EmptyString) (req_url data)) as [| b | n | raw |];
    try reflexivity.
  destruct (String.eqb_spec (PyStr.strip raw) "") as [E | E].
  - apply strip_empty_iff in E. rewrite E. split; [reflexivity | discriminate].
  - split; [| reflexivity]. intros H. apply strip_empty_iff in H. contradiction.
Qed.

Lemma api_download_outcome_witness :
  api_download {| req_url := Some (JString "   "); req_quality := None;
                  req_audio_only := None |}
  = Ok ({| status := 400; success := false; text := "URL is required" |}, None)
  /\ api_download {| req_url := Some (JString " https://youtu.be/abcdEFGH123 ");
                     req_quality := None; req_audio_only := None |}
     = Ok ({| status := 200; success := true; text := "Download started" |},
           Some ("https://www.youtube.com/watch?v=abcdEFGH123", 720, false))
  /\ api_download {| req_url := Some JNull; req_quality := None;
                     req_audio_only := None |}
     = Raise AttributeError.
Proof.
  split; [| split].
  - apply (proj1 (api_download_outcome
                    {| req_url := Some (JString "   "); req_quality := None;
                       req_audio_only := None |})). reflexivity.
  - apply (proj2 (api_download_outcome
                    {| req_url := Some (JString " https://youtu.be/abcdEFGH123 ");
                       req_quality := None; req_audio_only := None |})).
    reflexivity.
  - exact (api_download_outcome
             {| req_url := Some JNull; req_quality := None;
                req_audio_only := None |}).
Defined.

Lemma delete_handler_absent (dirs : gset string) (env : Env) (filename : string)
    (w : World) :
  fs w !! PosixPath.join (DOWNLOADS_DIR env) filename = None ->
  api_delete_file dirs env filename w
  = (if bool_decide (PosixPath.join (DOWNLOADS_DIR env) filename ∈ dirs)
     then {| status := 500; success := false;
             text := str_exn (IsADirectoryError
                                (PosixPath.join (DOWNLOADS_DIR env) filename)) |}
     else {| status := 404; success := false; text := "File not found" |},
     w).
Proof.
  intros H.
  unfold api_delete_file, run_guarded, mbind, M_bind, bind, get_fs, exists_on,
    remove_on, path_exists.
  simpl. rewrite H. simpl.
  destruct (bool_decide (PosixPath.join (DOWNLOADS_DIR env) filename ∈ dirs));
    simpl; rewrite ?H; reflexivity.
Qed.

Lemma delete_handler_there (dirs : gset string) (env : Env) (filename : string)
    (w : World) :
  is_Some (fs w !! PosixPath.join (DOWNLOADS_DIR env) filename) ->
  (api_delete_file dirs env filename w).1
  = (if bool_decide (thumb_path_of env filename ∈ dirs)
        && negb (path_exists (delete (PosixPath.join (DOWNLOADS_DIR env) filename)
                                (fs w))
                   (thumb_path_of env filename))
     then {| status := 500; success := false;
             text := str_exn (IsADirectoryError (thumb_path_of env filename)) |}
     else {| status := 200; success := true; text := "File deleted" |})
  /\ fs (api_delete_file dirs env filename w).2
     = delete (thumb_path_of env filename)
         (delete (PosixPath.join (DOWNLOADS_DIR env) filename) (fs w)).
Proof.
  intros [size H].
  unfold api_delete_file, run_guarded, mbind, M_bind, bind, get_fs, exists_on,
    remove_on, path_exists, remove.
  simpl. rewrite H. simpl. rewrite H. simpl.
  destruct (delete (PosixPath.join (DOWNLOADS_DIR env) filename) (fs w)
              !! thumb_path_of env filename) as [size'|] eqn:E; simpl.
  - rewrite E. simpl. rewrite andb_false_r. split; reflexivity.
  - rewrite andb_true_r.
    destruct (bool_decide (thumb_path_of env filename ∈ dirs)); simpl;
      rewrite ?E; simpl; (split; [reflexivity |]); symmetry; now apply delete_id.
Qed.

(** X18.  Deleting a name under which there is no regular file changes
    nothing: the answer is 404 when nothing is there, and 500 when the name
    leads to a directory, which [os.remove] refuses. *)
Theorem api_delete_file_missing (dirs : gset string) (env : Env)
    (filename : string) (w : World) :
  fs w !! PosixPath.join (DOWNLOADS_DIR env) filename = None ->
  api_delete_file dirs env filename w
  = (if bool_decide (PosixPath.join (DOWNLOADS_DIR env) filename ∈ dirs)
     then {| status := 500; success := false;
             text := str_exn (IsADirectoryError
                                (PosixPath.join (DOWNLOADS_DIR env) filename)) |}
     else {| status := 404; success := false; text := "File not found" |},
     w).
Proof.
  exact (delete_handler_absent dirs env filename w).
Qed.

Lemma api_delete_file_missing_witness :
  status (api_delete_file {[ "/dl/.." ]} (sample_env sample_video (tool_writes 0 42))
            "Other.mp4" (one_file "/dl/Clip.mp4" 9)).1 = 404
  /\ api_delete_file {[ "/dl/.." ]} (sample_env sample_video (tool_writes 0 42))
       ".." (one_file "/dl/Clip.mp4" 9)
     = ({| status := 500; success := false; text := "Is a directory: /dl/.." |},
        one_file "/dl/Clip.mp4" 9).
Proof.
  split.
  - rewrite (api_delete_file_missing {[ "/dl/.." ]}
               (sample_env sample_video (tool_writes 0 42))
               "Other.mp4" (one_file "/dl/Clip.mp4" 9)); reflexivity.
  - rewrite (api_delete_file_missing {[ "/dl/.." ]}
               (sample_env sample_video (tool_writes 0 42))
               ".." (one_file "/dl/Clip.mp4" 9)); reflexivity.
Defined.

(** X19.  Deleting a regular file of the downloads directory removes that
    file and the thumbnail of the same base name, if there is one, and every
    other file stays.  The answer is 200, unless the thumbnail path leads to
    a directory: the file is removed all the same, and the answer is 500. *)
Theorem api_delete_file_present (dirs : gset string) (env : Env)
    (filename : string) (w : World) :
  is_Some (fs w !! PosixPath.join (DOWNLOADS_DIR env) filename) ->
  (api_delete_file dirs env filename w).1
  = (if bool_decide (thumb_path_of env filename ∈ dirs)
        && negb (path_exists (delete (PosixPath.join (DOWNLOADS_DIR env) filename)
                                (fs w))
                   (thumb_path_of env filename))
     then {| status := 500; success := false;
             text := str_exn (IsADirectoryError (thumb_path_of env filename)) |}
     else {| status := 200; success := true; text := "File deleted" |})
  /\ fs (api_delete_file dirs env filename w).2
     = delete (thumb_path_of env filename)
         (delete (PosixPath.join (DOWNLOADS_DIR env) filename) (fs w)).
Proof.
  exact (delete_handler_there dirs env filename w).
Qed.

Lemma api_delete_file_present_witness :
  (api_delete_file ∅ (sample_env sample_video (tool_writes 0 42)) "Clip.mp4"
     {| fs := {[ "/dl/Clip.mp4" := 9; "/dl/Clip.jpg" := 7; "/dl/Other.mp4" := 5 ]};
        ops := []; events := [] |}).1
  = {| status := 200; success := true; text := "File deleted" |}
  /\ fs (api_delete_file ∅ (sample_env sample_video (tool_writes 0 42)) "Clip.mp4"
           {| fs := {[ "/dl/Clip.mp4" := 9; "/dl/Clip.jpg" := 7;
                       "/dl/Other.mp4" := 5 ]};
              ops := []; events := [] |}).2
     = {[ "/dl/Other.mp4" := 5 ]}.
Proof.
  destruct (api_delete_file_present ∅ (sample_env sample_video (tool_writes 0 42))
              "Clip.mp4"
              {| fs := {[ "/dl/Clip.mp4" := 9; "/dl/Clip.jpg" := 7;
                          "/dl/Other.mp4" := 5 ]};
                 ops := []; events := [] |}) as [H1 H2].
  - vm_compute. eauto.
  - split; [rewrite H1 | rewrite H2]; now vm_compute.
Defined.

(** X20.  After the delete handler has run on a name, fetching that name
    is never answered with a file: the answer is 404, and 500 when the name
    leads to a directory, on which [send_file] raises. *)
Theorem api_download_file_after_delete (dirs : gset string) (env : Env)
    (filename : string) (w : World) :
  api_download_file dirs env filename (api_delete_file dirs env filename w).2
  = (if bool_decide (PosixPath.join (DOWNLOADS_DIR env) filename ∈ dirs)
     then (500, None) else (404, None)).
Proof.
  unfold api_download_file, exists_on, path_exists.
  assert (Hgone : fs (api_delete_file dirs env filename w).2
                    !! PosixPath.join (DOWNLOADS_DIR env) filename = None).
  { destruct (fs w !! PosixPath.join (DOWNLOADS_DIR env) filename)
      as [size|] eqn:E.
    - destruct (delete_handler_there dirs env filename w) as [_ ->]; [eauto |].
      destruct (decide (thumb_path_of env filename
                        = PosixPath.join (DOWNLOADS_DIR env) filename))
        as [Heq | Hne].
      + rewrite <- Heq. apply lookup_delete_eq.
      + rewrite lookup_delete_ne by exact Hne. apply lookup_delete_eq.
    - rewrite delete_handler_absent by exact E. exact E. }
  rewrite Hgone.
  rewrite (bool_decide_eq_false_2 (is_Some None)) by (intros [x Hx]; discriminate).
  simpl.
  destruct (bool_decide (PosixPath.join (DOWNLOADS_DIR env) filename ∈ dirs));
    reflexivity.
Qed.

(** X21.  The handler finds the thumbnail the pipeline saved: after the
    thumbnail step for a file that is on disk, deleting that file leaves
    neither the file nor its thumbnail, whatever the thumbnail request
    returned. *)
Theorem delete_removes_saved_thumbnail (dirs : gset string) (env : Env)
    (url filename : string) (w : World) :
  is_Some (fs w !! PosixPath.join (DOWNLOADS_DIR env) filename) ->
  let saved := (save_thumbnail env url filename w).2 in
  let deleted := (api_delete_file dirs env filename saved).2 in
  fs deleted !! PosixPath.join (DOWNLOADS_DIR env) filename = None
  /\ fs deleted !! thumb_path_of env filename = None
  /\ fs deleted
     = delete (thumb_path_of env filename)
         (delete (PosixPath.join (DOWNLOADS_DIR env) filename) (fs w)).
Proof.
  intros [size H] saved deleted.
  assert (Hsaved : fs saved = fs w
                   \/ exists len, fs saved = <[thumb_path_of env filename := len]> (fs w)).
  { unfold saved, save_thumbnail, try_except, mbind, M_bind, bind, lift, print,
      emit_progress, log_op, write_file.
    destruct (http_get env url) as [[code len] | e]; simpl; [| now left].
    destruct (code =? 200); simpl; [right; now exists len | now left]. }
  assert (Hthere : is_Some (fs saved !! PosixPath.join (DOWNLOADS_DIR env) filename)).
  { destruct Hsaved as [-> | [len ->]]; [eauto |].
    rewrite lookup_insert. case_decide; eauto. }
  destruct (delete_handler_there dirs env filename saved Hthere) as [_ Hfs].
  fold deleted in Hfs.
  assert (Heq : fs deleted
                = delete (thumb_path_of env filename)
                    (delete (PosixPath.join (DOWNLOADS_DIR env) filename) (fs w))).
  { rewrite Hfs. destruct Hsaved as [-> | [len ->]]; [reflexivity |].
    apply map_eq. intros p.
    destruct (decide (p = thumb_path_of env filename)) as [-> | Hp].
    - now rewrite !lookup_delete_eq.
    - rewrite !(lookup_delete_ne _ (thumb_path_of env filename)) by auto.
      destruct (decide (p = PosixPath.join (DOWNLOADS_DIR env) filename)) as [-> | Hp'].
      + now rewrite !lookup_delete_eq.
      + rewrite !lookup_delete_ne by auto. now rewrite lookup_insert_ne by auto. }
  split; [| split; [| exact Heq]]; rewrite Heq.
  - destruct (decide (thumb_path_of env filename
                      = PosixPath.join (DOWNLOADS_DIR env) filename)) as [<- | Hne].
    + apply lookup_delete_eq.
    + rewrite lookup_delete_ne by exact Hne. apply lookup_delete_eq.
  - apply lookup_delete_eq.
Qed.

Lemma delete_removes_saved_thumbnail_witness :
  fs (api_delete_file ∅ (sample_env sample_video (tool_writes 0 42)) "Clip.mp4"
        (save_thumbnail (sample_env sample_video (tool_writes 0 42))
           "https://i.ytimg.com/vi/abcdEFGH123/hq.jpg" "Clip.mp4"
           (one_file "/dl/Clip.mp4" 9)).2).2
  = ∅.
Proof.
  destruct (delete_removes_saved_thumbnail ∅
              (sample_env sample_video (tool_writes 0 42))
              "https://i.ytimg.com/vi/abcdEFGH123/hq.jpg" "Clip.mp4"
              (one_file "/dl/Clip.mp4" 9)) as (_ & _ & H).
  - vm_compute. eauto.
  - rewrite H. now vm_compute.
Defined.

(** ** Progressive fallback: which stream *)

Lemma first_desc_order_by_none (attr : Stream -> option Z) (l : list Stream) :
  StreamQuery.first (StreamQuery.desc (StreamQuery.order_by attr l)) = None ->
  forall x, x ∈ l -> attr x = None.
Proof.
  intros H x Hx. destruct (attr x) as [v|] eqn:E; [| reflexivity].
  assert (Hin : x ∈ StreamQuery.desc (StreamQuery.order_by attr l)).
  { apply elem_of_desc_order_by. split; [exact Hx | rewrite E; eauto]. }
  destruct (StreamQuery.desc (StreamQuery.order_by attr l)); [| discriminate].
  now apply elem_of_nil in Hin.
Qed.

(** X22.  The progressive fallback picks a progressive stream of the
    catalog entry: an mp4 one at exactly the requested resolution when there
    is one, otherwise one whose resolution no progressive stream exceeds; it
    finds none only when no progressive stream has a resolution. *)
Theorem progressive_fallback_choice (q : Z) (yt : Video) :
  match progressive_fallback q yt with
  | Some s =>
      kind s = KProgressive /\ s ∈ streams yt
      /\ ((subtype s = "mp4" /\ resolution s = Some q)
          \/ ((forall s', s' ∈ streams yt -> kind s' = KProgressive ->
                          subtype s' = "mp4" -> resolution s' <> Some q)
              /\ forall s', s' ∈ streams yt -> kind s' = KProgressive ->
                            is_Some (resolution s') -> res_of s' <= res_of s))
  | None =>
      forall s', s' ∈ streams yt -> kind s' = KProgressive -> resolution s' = None
  end.
Proof.
  unfold progressive_fallback.
  destruct (StreamQuery.first (StreamQuery.desc (StreamQuery.order_by resolution
              (StreamQuery.filter
                 (fun s => StreamQuery.progressive s
                           && StreamQuery.file_extension "mp4" s
                           && StreamQuery.res q s) (streams yt)))))
    as [s|] eqn:Hexact.
  - apply first_desc_order_by in Hexact as (Hin & _ & _).
    apply elem_of_query_filter in Hin as [Hin Hp].
    apply andb_prop in Hp as [[Hk He]%andb_prop Hr].
    apply Kind_eqb_eq in Hk. apply String.eqb_eq in He.
    unfold StreamQuery.res in Hr.
    destruct (resolution s) as [r|] eqn:Er; [| discriminate].
    apply Z.eqb_eq in Hr as ->. repeat split; auto.
  - assert (Hno : forall s', s' ∈ streams yt -> kind s' = KProgressive ->
                             subtype s' = "mp4" -> resolution s' <> Some q).
    { intros s' Hin Hk He Hr.
      assert (Hf : s' ∈ StreamQuery.filter
                     (fun s => StreamQuery.progressive s
                               && StreamQuery.file_extension "mp4" s
                               && StreamQuery.res q s) (streams yt)).
      { apply elem_of_query_filter. split; [exact Hin |].
        unfold StreamQuery.progressive, StreamQuery.file_extension, StreamQuery.res.
        rewrite Hk, He, Hr, Z.eqb_refl. reflexivity. }
      apply (first_desc_order_by_none _ _ Hexact) in Hf. congruence. }
    destruct (StreamQuery.first (StreamQuery.desc (StreamQuery.order_by resolution
                (StreamQuery.filter StreamQuery.progressive (streams yt)))))
      as [s|] eqn:Hany.
    + apply first_desc_order_by in Hany as (Hin & _ & Hmax).
      apply elem_of_query_filter in Hin as [Hin Hk]. apply Kind_eqb_eq in Hk.
      repeat split; auto. right. split; [exact Hno |].
      intros s' Hin' Hk' Hr'. apply Hmax; [| exact Hr'].
      apply elem_of_query_filter. split; [exact Hin' | now apply Kind_eqb_eq].
    + intros s' Hin Hk. apply (first_desc_order_by_none _ _ Hany).
      apply elem_of_query_filter. split; [exact Hin | now apply Kind_eqb_eq].
Qed.

(** ** Audio-only conversion, terminal front end *)

Lemma replace_go_absent (old new : string) (s : string) :
  PyStr.contains old s = false -> PyStr.replace_go old new 0 s = s.
Proof.
  induction s as [|c s IH]; [reflexivity |].
  intros H. simpl in H. apply orb_false_elim in H as [Hs Hc].
  change (PyStr.replace_go old new 0 (String c s))
    with (if PyStr.startswith old (String c s)
          then new ++ PyStr.replace_go old new (String.length old - 1) s
          else String c (PyStr.replace_go old new 0 s)).
  rewrite Hs. f_equal. now apply IH.
Qed.

Lemma download_first_returns (env : Env) (cb : Stream -> Z -> M unit)
    (s : Stream) (output_path filename_prefix : string) :
  returns (fun path => path = PosixPath.join output_path
                                (filename_prefix ++ default_filename s))
          (download_first env cb (Some s) output_path filename_prefix).
Proof. apply download_returns. Qed.

(** X23.  In an audio-only run of the terminal front end, when the path of
    the downloaded file holds no ".mp4", the output name is the input name:
    the only run of the tool converts the file onto itself, and the only
    removal is of that same file. *)
Theorem audio_only_cli_converts_onto_itself (env : Env) (url : string) (q : Z)
    (w : World) (yt : Video) (s : Stream) :
  youtube env url = Ok yt ->
  best_audio_only yt = Some s ->
  let path := PosixPath.join (DOWNLOADS_DIR env) (default_filename s) in
  PyStr.contains ".mp4" path = false ->
  exists new,
    ops (download_video env url q true w).2 = (ops w ++ new)%list
    /\ Forall (audio_cli_op s path path) new.
Proof.
  intros Hyt Hs path Hpath.
  apply appends_run_guarded; [| reflexivity].
  unfold download_video_body, print.
  apply appends_bind_lift. intros yt' Hyt'.
  assert (yt' = yt) as -> by congruence.
  apply appends_bind; [apply appends_emit | intros _].
  apply appends_bind; [apply appends_emit | intros _].
  apply appends_bind; [apply appends_emit | intros _].
  unfold audio_only_cli, print. rewrite Hs.
  apply appends_bind; [apply appends_emit | intros _].
  eapply appends_bind_returns; [apply download_first_returns | |].
  { apply appends_download_at; [now split | intros; apply appends_cli_progress]. }
  intros mp4_path ->. fold path.
  unfold PyStr.replace. rewrite replace_go_absent by exact Hpath.
  apply appends_bind; [now apply appends_subprocess_run | intros _].
  apply appends_bind; [now apply appends_remove | intros; apply appends_emit].
Qed.

Lemma audio_only_cli_converts_onto_itself_witness :
  exists new,
    ops (download_video (sample_env sample_video (tool_writes 0 42))
           watch_address 720 true empty_world).2 = new
    /\ Forall (audio_cli_op a160 "/dl/Clip.webm" "/dl/Clip.webm") new.
Proof.
  destruct (audio_only_cli_converts_onto_itself
              (sample_env sample_video (tool_writes 0 42)) watch_address 720
              empty_world sample_video a160 eq_refl eq_refl eq_refl)
    as (new & E & F).
  exists new. split; [exact E | exact F].
Defined.
